(** * Flowforge device comms: a shallow embedding of
      forge/comms/devices.js, forge/comms/aclManager.js and the Device
      controller (updateState, sendDeviceUpdateCommand), with the
      properties of the command/response protocol, the ACL evaluator, the
      log relay and the status reconciler. *)

From stdpp Require Import gmap strings list fin_maps pretty.
From Stdlib Require Import ZArith Ascii String.

Local Open Scope string_scope.

(** ** JavaScript values

    The handlers receive plain JS objects and the result of [JSON.parse],
    so the data they inspect is modelled by one type of JS values.
    Numbers are integers (none of the code below does arithmetic on a
    parsed number; only its type and its truthiness are observed).
    Objects are association lists in property order with unique keys.
    Strings are sequences of bytes, read as the UTF-8 text of the JS
    string. *)
Module JS.

#[local] Set Warnings "-register-all".

Inductive value :=
| VUndefined
| VNull
| VBool (b : bool)
| VNum (n : Z)
| VStr (s : string)
| VArr (elems : list value)
| VObj (props : list (string * value)).

(** Exceptions the modelled code can raise. *)
Inductive error :=
| SyntaxError
| TypeError.

Inductive result (A : Type) :=
| Ok (a : A)
| Throw (e : error).
Arguments Ok {A} a.
Arguments Throw {A} e.

#[export] Instance result_ret : MRet result := fun _ a => Ok a.

#[export] Instance result_bind : MBind result := fun _ _ k r =>
  match r with
  | Ok a => k a
  | Throw e => Throw e
  end.

(** ToBoolean. *)
Definition truthy (v : value) : bool :=
  match v with
  | VUndefined | VNull => false
  | VBool b => b
  | VNum n => negb (n =? 0)%Z
  | VStr s => negb (String.eqb s "")
  | VArr _ | VObj _ => true
  end.

(** Is the value [null] or [undefined]. *)
Definition nullish (v : value) : bool :=
  match v with
  | VUndefined | VNull => true
  | _ => false
  end.

(** [a || b] *)
Definition js_or (a b : value) : value := if truthy a then a else b.

(** [typeof v === 'string'] and [typeof v === 'number'] *)
Definition is_string (v : value) : bool :=
  match v with VStr _ => true | _ => false end.

Fixpoint assoc (k : string) (l : list (string * value)) : option value :=
  match l with
  | [] => None
  | (k', v) :: r => if String.eqb k k' then Some v else assoc k r
  end.

(** [o[k] = v] on a property list: an existing key keeps its position. *)
Fixpoint obj_set (k : string) (v : value) (l : list (string * value))
  : list (string * value) :=
  match l with
  | [] => [(k, v)]
  | (k', v') :: r =>
      if String.eqb k k' then (k, v) :: r else (k', v') :: obj_set k v r
  end.

(** Property read [v.k], for a name [k] that no built-in prototype
    defines (every name read below is such a name: id, message, status,
    logs, command, correlationData, payload, state, agentVersion,
    snapshot, project, settings, timeout).  Reading a property of
    [null] or [undefined] raises a TypeError. *)
Definition get_prop (v : value) (k : string) : result value :=
  match v with
  | VUndefined | VNull => Throw TypeError
  | VObj l => Ok (default VUndefined (assoc k l))
  | _ => Ok VUndefined
  end.

(** [Object.hasOwn(v, k)], for the same names. *)
Definition has_own (v : value) (k : string) : result bool :=
  match v with
  | VUndefined | VNull => Throw TypeError
  | VObj l => Ok (bool_decide (is_Some (assoc k l)))
  | _ => Ok false
  end.

(** [a === b], where at least one side is freshly built (a parse result
    or a literal): two objects or arrays are then never the same
    reference. *)
Definition strict_eq (a b : value) : bool :=
  match a, b with
  | VUndefined, VUndefined => true
  | VNull, VNull => true
  | VBool x, VBool y => Bool.eqb x y
  | VNum x, VNum y => (x =? y)%Z
  | VStr x, VStr y => String.eqb x y
  | _, _ => false
  end.

Fixpoint join (sep : string) (l : list string) : string :=
  match l with
  | [] => ""
  | [s] => s
  | s :: r => s ++ sep ++ join sep r
  end.

(** ToString, as used for a property key [o[v]] and inside a template
    literal. *)
Fixpoint to_str (v : value) : string :=
  match v with
  | VUndefined => "undefined"
  | VNull => "null"
  | VBool true => "true"
  | VBool false => "false"
  | VNum n => pretty n
  | VStr s => s
  | VArr l =>
      join "," (map (fun e => match e with
                              | VUndefined | VNull => ""
                              | _ => to_str e
                              end) l)
  | VObj _ => "[object Object]"
  end.

Fixpoint chars_from (i : nat) (s : string) : list (string * value) :=
  match s with
  | EmptyString => []
  | String c r => (pretty i, VStr (String c EmptyString)) :: chars_from (S i) r
  end.

(** Own enumerable properties copied by an object spread [{...v}]. *)
Definition spread (v : value) : list (string * value) :=
  match v with
  | VObj l => l
  | VArr l => imap (fun i e => (pretty i, e)) l
  | VStr s => chars_from 0 s
  | _ => []
  end.

End JS.
Export JS.

Arguments strict_eq : simpl never.
Arguments truthy : simpl never.
Arguments to_str : simpl never.

(** ** A JSON reader and writer for examples

    [JSON.parse] is a collaborator of the handlers (they are verified
    for an arbitrary parser, see the section variables below).  The
    concrete reader here covers the JSON subset the examples use:
    literals, integers, strings without escapes, arrays and objects. *)
Module Json.

Definition quote : string := String "034"%char EmptyString.

Definition is_ws (c : ascii) : bool :=
  match c with
  | " "%char | "009"%char | "010"%char | "013"%char => true
  | _ => false
  end.

Fixpoint skip_ws (s : string) : string :=
  match s with
  | String c r => if is_ws c then skip_ws r else s
  | EmptyString => s
  end.

Definition digit_of (c : ascii) : option Z :=
  let n := Z.of_nat (nat_of_ascii c) in
  if ((48 <=? n) && (n <=? 57))%Z then Some (n - 48)%Z else None.

Fixpoint read_digits (acc : Z) (s : string) : Z * string :=
  match s with
  | String c r =>
      match digit_of c with
      | Some d => read_digits (10 * acc + d)%Z r
      | None => (acc, s)
      end
  | EmptyString => (acc, s)
  end.

(** An unsigned integer without a leading zero. *)
Definition read_nat (s : string) : option (Z * string) :=
  match s with
  | String c r =>
      match digit_of c with
      | Some 0%Z =>
          match r with
          | String c' _ => if digit_of c' is Some _ then None else Some (0%Z, r)
          | EmptyString => Some (0%Z, r)
          end
      | Some d => Some (read_digits d r)
      | None => None
      end
  | EmptyString => None
  end.

(** The text up to the closing quote; escapes and control characters are
    outside the subset. *)
Fixpoint read_string (s : string) : option (string * string) :=
  match s with
  | EmptyString => None
  | String c r =>
      if Ascii.eqb c "034"%char then Some (EmptyString, r)
      else if Ascii.eqb c "\"%char then None
      else if (nat_of_ascii c <? 32)%nat then None
      else '(t, r') ← read_string r; Some (String c t, r')
  end.

Definition read_literal (lit : string) (v : value) (s : string)
  : option (value * string) :=
  if String.prefix lit s
  then Some (v, String.substring (String.length lit)
                  (String.length s - String.length lit) s)
  else None.

Fixpoint read_value (fuel : nat) (s : string) : option (value * string) :=
  match fuel with
  | O => None
  | S f =>
      match skip_ws s with
      | String "[" r =>
          match skip_ws r with
          | String "]" r' => Some (VArr [], r')
          | _ => '(l, r') ← read_elems f r; Some (VArr l, r')
          end
      | String "{" r =>
          match skip_ws r with
          | String "}" r' => Some (VObj [], r')
          | _ => '(l, r') ← read_members f [] r; Some (VObj l, r')
          end
      | String "034" r => '(t, r') ← read_string r; Some (VStr t, r')
      | String "-" r => '(n, r') ← read_nat r; Some (VNum (- n), r')
      | String "t" _ => read_literal "true" (VBool true) (skip_ws s)
      | String "f" _ => read_literal "false" (VBool false) (skip_ws s)
      | String "n" _ => read_literal "null" VNull (skip_ws s)
      | _ => '(n, r') ← read_nat (skip_ws s); Some (VNum n, r')
      end
  end
with read_elems (fuel : nat) (s : string) : option (list value * string) :=
  match fuel with
  | O => None
  | S f =>
      '(v, r) ← read_value f s;
      match skip_ws r with
      | String "," r' => '(l, r'') ← read_elems f r'; Some (v :: l, r'')
      | String "]" r' => Some ([v], r')
      | _ => None
      end
  end
with read_members (fuel : nat) (acc : list (string * value)) (s : string)
  : option (list (string * value) * string) :=
  match fuel with
  | O => None
  | S f =>
      match skip_ws s with
      | String "034" r =>
          '(k, r1) ← read_string r;
          match skip_ws r1 with
          | String ":" r2 =>
              '(v, r3) ← read_value f r2;
              match skip_ws r3 with
              | String "," r4 => read_members f (obj_set k v acc) r4
              | String "}" r4 => Some (obj_set k v acc, r4)
              | _ => None
              end
          | _ => None
          end
      | _ => None
      end
  end.

(** [None] stands for the SyntaxError of [JSON.parse]. *)
Definition parse (s : string) : option value :=
  '(v, r) ← read_value (2 * String.length s + 2) s;
  match skip_ws r with
  | EmptyString => Some v
  | _ => None
  end.

(** [JSON.stringify] on the same subset ([undefined] members are left
    out, as JS does). *)
Fixpoint stringify (v : value) : string :=
  match v with
  | VUndefined | VNull => "null"
  | VBool true => "true"
  | VBool false => "false"
  | VNum n => pretty n
  | VStr s => quote ++ s ++ quote
  | VArr l => "[" ++ join "," (map stringify l) ++ "]"
  | VObj l =>
      "{" ++ join ","
        ((fix members (l : list (string * value)) : list string :=
            match l with
            | [] => []
            | (_, VUndefined) :: r => members r
            | (k, v) :: r => (quote ++ k ++ quote ++ ":" ++ stringify v) :: members r
            end) l) ++ "}"
  end.

End Json.

(** ** Collaborators

    The persistence layer, the licence, [JSON.parse], the clock and the
    token generator are outside the modules verified here.  Lookups are
    answered by the [App] record handed to each handler; the clock value
    and the generated token are arguments of the call that reads them. *)

(** What [literal('CURRENT_TIMESTAMP')] or a stored time stands for. *)
Inductive Timestamp :=
| At (t : Z)
| CURRENT_TIMESTAMP.

(** A Device row with the associations the code reads:
    [device.Team.hashid], [device.Project?.id],
    [device.targetSnapshot?.hashid] (the optional chains yield
    [undefined] when the association is missing). *)
Record Device := {
  hashid : string;
  Team_hashid : string;
  Project_id : value;
  targetSnapshot_hashid : value;
  settingsHash : value;
  mode : value;
  state : value;
  agentVersion : value;
  lastSeenAt : Timestamp;
  activeSnapshotId : value;
  currentSnapshot : value
}.

Record App := {
  (** [app.comms] is set *)
  comms : bool;
  (** [app.license.active()] *)
  license_active : bool;
  (** [JSON.parse]; [None] is its SyntaxError *)
  JSON_parse : string -> option value;
  (** [app.db.models.Device.byId]; [None] is [null] *)
  Device_byId : value -> option Device;
  (** [app.db.models.ProjectSnapshot.decodeHashid]: an array of ids *)
  ProjectSnapshot_decodeHashid : value -> list Z;
  (** [app.db.models.ProjectSnapshot.byId], as far as it is tested: does
      the snapshot exist *)
  ProjectSnapshot_byId : value -> bool;
  (** [app.db.models.Device.getDeviceProjectId] *)
  getDeviceProjectId : value -> value;
  (** [app.db.models.Project.getProjectTeamId] *)
  getProjectTeamId : value -> value;
  (** [app.db.models.Team.encodeHashid] *)
  encodeHashid : value -> value
}.

(** [JSON.parse(v)]: the argument is converted to a string first. *)
Definition JSON_parse_value (app : App) (v : value) : result value :=
  match JSON_parse app (to_str v) with
  | Some r => Ok r
  | None => Throw SyntaxError
  end.

(** ** forge/comms/devices.js: the state of a DeviceCommsHandler *)

(** ResponseMonitor objects are shared between the in-flight mapping,
    the closures [resolve] and [reject] and the timer callback, so they
    live in a heap and are referred to by address. *)
Definition addr := nat.

Record ResponseMonitor := {
  command : string;
  deviceId : string;
  teamId : string;
  correlationData : string;
  createdAt : Z;
  expiresAt : Z;
  resolved : bool;
  rejected : bool
}.

(** The promise returned by [sendCommandAwaitReply]; the rejection
    carries the message of the Error. *)
Inductive Promise :=
| Pending
| Fulfilled (payload : value)
| Rejected (message : string).

Record LogSession := {
  cache : list value;
  sockets : list nat
}.

(** A call of [client.publish]: the topic and the object that is
    serialised into the message. *)
Record Publish := {
  topic : string;
  body : value
}.

(** The two objects used as dictionaries are finite maps.  Their keys
    are tokens made by [uuidv4()] and device ids, which are never names
    of members of Object.prototype. *)
Record State := {
  (** [this.inFlightCommands] *)
  inFlightCommands : gmap string addr;
  (** the heap of ResponseMonitor objects *)
  monitors : gmap addr ResponseMonitor;
  (** the promise made for each monitor *)
  promises : gmap addr Promise;
  (** the timers that are set, with their delay *)
  timers : gmap addr Z;
  (** [this.deviceLogClients] *)
  deviceLogClients : gmap string LogSession;
  (** trace of [client.publish] *)
  published : list Publish;
  (** trace of [socket.send] *)
  socket_sent : list (nat * value);
  (** trace of [app.log.info] *)
  info_log : list string
}.

(** The handler as its constructor leaves it. *)
Definition init : State :=
  {| inFlightCommands := ∅; monitors := ∅; promises := ∅; timers := ∅;
     deviceLogClients := ∅; published := []; socket_sent := []; info_log := [] |}.

Definition with_inFlightCommands (f : gmap string addr -> gmap string addr) (st : State) :=
  {| inFlightCommands := f (inFlightCommands st); monitors := monitors st;
     promises := promises st; timers := timers st;
     deviceLogClients := deviceLogClients st; published := published st;
     socket_sent := socket_sent st; info_log := info_log st |}.

Definition with_monitors (f : gmap addr ResponseMonitor -> gmap addr ResponseMonitor) (st : State) :=
  {| inFlightCommands := inFlightCommands st; monitors := f (monitors st);
     promises := promises st; timers := timers st;
     deviceLogClients := deviceLogClients st; published := published st;
     socket_sent := socket_sent st; info_log := info_log st |}.

Definition with_promises (f : gmap addr Promise -> gmap addr Promise) (st : State) :=
  {| inFlightCommands := inFlightCommands st; monitors := monitors st;
     promises := f (promises st); timers := timers st;
     deviceLogClients := deviceLogClients st; published := published st;
     socket_sent := socket_sent st; info_log := info_log st |}.

Definition with_timers (f : gmap addr Z -> gmap addr Z) (st : State) :=
  {| inFlightCommands := inFlightCommands st; monitors := monitors st;
     promises := promises st; timers := f (timers st);
     deviceLogClients := deviceLogClients st; published := published st;
     socket_sent := socket_sent st; info_log := info_log st |}.

Definition with_deviceLogClients (f : gmap string LogSession -> gmap string LogSession) (st : State) :=
  {| inFlightCommands := inFlightCommands st; monitors := monitors st;
     promises := promises st; timers := timers st;
     deviceLogClients := f (deviceLogClients st); published := published st;
     socket_sent := socket_sent st; info_log := info_log st |}.

(** [this.client.publish(topic, JSON.stringify(body), ...)] *)
Definition publish (p : Publish) (st : State) :=
  {| inFlightCommands := inFlightCommands st; monitors := monitors st;
     promises := promises st; timers := timers st;
     deviceLogClients := deviceLogClients st; published := published st ++ [p];
     socket_sent := socket_sent st; info_log := info_log st |}.

(** [socket.send(data)] *)
Definition socket_send (socket : nat) (data : value) (st : State) :=
  {| inFlightCommands := inFlightCommands st; monitors := monitors st;
     promises := promises st; timers := timers st;
     deviceLogClients := deviceLogClients st; published := published st;
     socket_sent := socket_sent st ++ [(socket, data)]; info_log := info_log st |}.

(** [this.app.log.info(line)] *)
Definition log_info (line : string) (st : State) :=
  {| inFlightCommands := inFlightCommands st; monitors := monitors st;
     promises := promises st; timers := timers st;
     deviceLogClients := deviceLogClients st; published := published st;
     socket_sent := socket_sent st; info_log := info_log st ++ [line] |}.

(** ** forge/comms/devices.js: sending *)

Definition DEFAULT_TIMEOUT : Z := 5000.

(** The object literal [{ command, ...payload }]. *)
Definition command_body (command : string) (payload : value) : value :=
  VObj (foldl (fun acc kv => obj_set kv.1 kv.2 acc)
              [("command", VStr command)] (spread payload)).

Definition sendCommandToProjectDevices (teamId projectId command : string)
    (payload : value) (st : State) : State :=
  publish {| topic := "ff/v1/" ++ teamId ++ "/p/" ++ projectId ++ "/command";
             body := command_body command payload |} st.

(** The publish options and the callback are handed to the client as
    they are; without a callback the call is fire-and-forget. *)
Definition sendCommand (teamId deviceId command : string) (payload : value)
    (st : State) : State :=
  publish {| topic := "ff/v1/" ++ teamId ++ "/d/" ++ deviceId ++ "/command";
             body := command_body command payload |} st.

(** The options argument of [sendCommandAwaitReply]: [None] when it is
    left out or null. *)
Record Options := { timeout : value }.

(** [(typeof options.timeout === 'number' && options.timeout > 0)
      ? options.timeout : DEFAULT_TIMEOUT] *)
Definition sanitise_timeout (options : option Options) : Z :=
  match options with
  | Some {| timeout := VNum t |} => if (0 <? t)%Z then t else DEFAULT_TIMEOUT
  | _ => DEFAULT_TIMEOUT
  end.

(** [now] is [Date.now()], [uuid] is [uuidv4()], [timeout] the sanitised
    option.  [expiresAt] is [now + options?.timeout || DEFAULT_TIMEOUT]. *)
Definition newResponseMonitor (command deviceId teamId : string) (timeout now : Z)
    (uuid : string) : ResponseMonitor :=
  {| command := command;
     deviceId := deviceId;
     teamId := teamId;
     correlationData := uuid;
     createdAt := now;
     expiresAt := if (now + timeout =? 0)%Z then DEFAULT_TIMEOUT else (now + timeout)%Z;
     resolved := false;
     rejected := false |}.

Definition newCommandMessage (cmr : ResponseMonitor) (payload : value) : value :=
  VObj [("command", VStr (command cmr));
        ("deviceId", VStr (deviceId cmr));
        ("teamId", VStr (teamId cmr));
        ("correlationData", VStr (correlationData cmr));
        ("createdAt", VNum (createdAt cmr));
        ("expiresAt", VNum (expiresAt cmr));
        ("payload", payload);
        ("responseTopic",
         VStr ("ff/v1/" ++ teamId cmr ++ "/d/" ++ deviceId cmr ++ "/response"))].

Definition set_resolved (m : ResponseMonitor) : ResponseMonitor :=
  {| command := command m; deviceId := deviceId m; teamId := teamId m;
     correlationData := correlationData m; createdAt := createdAt m;
     expiresAt := expiresAt m; resolved := true; rejected := rejected m |}.

Definition set_rejected (m : ResponseMonitor) : ResponseMonitor :=
  {| command := command m; deviceId := deviceId m; teamId := teamId m;
     correlationData := correlationData m; createdAt := createdAt m;
     expiresAt := expiresAt m; resolved := resolved m; rejected := true |}.

(** Settling a promise: only the first call has an effect. *)
Definition settle (outcome : Promise) (p : Promise) : Promise :=
  match p with
  | Pending => outcome
  | _ => p
  end.

(** The closure [inFlightCommand.resolve] of the monitor at [a]. *)
Definition monitor_resolve (a : addr) (payload : value) (st : State) : State :=
  match monitors st !! a with
  | Some m =>
      let st := with_monitors (insert a (set_resolved m)) st in
      let st := with_timers (delete a) st in
      let st := with_promises (alter (settle (Fulfilled payload)) a) st in
      with_inFlightCommands (delete (correlationData m)) st
  | None => st
  end.

(** The closure [inFlightCommand.reject] of the monitor at [a]. *)
Definition monitor_reject (a : addr) (err : string) (st : State) : State :=
  match monitors st !! a with
  | Some m =>
      let st := with_monitors (insert a (set_rejected m)) st in
      let st := with_timers (delete a) st in
      let st := with_promises (alter (settle (Rejected err)) a) st in
      with_inFlightCommands (delete (correlationData m)) st
  | None => st
  end.

(** The callback given to [setTimeout]. *)
Definition timer_callback (a : addr) (st : State) : State :=
  match monitors st !! a with
  | Some m =>
      if resolved m then st
      else if rejected m then st
      else monitor_reject a "Command timed out" st
  | None => st
  end.

(** The timer of the monitor at [a] fires: a timer that was cleared, or
    that fired before, does not fire. *)
Definition timer_fire (a : addr) (st : State) : State :=
  match timers st !! a with
  | Some _ => timer_callback a (with_timers (delete a) st)
  | None => st
  end.

(** Returns the address of the new monitor, which identifies the promise
    handed back to the caller. *)
Definition sendCommandAwaitReply (teamId deviceId command : string) (payload : value)
    (options : option Options) (now : Z) (uuid : string) (st : State) : addr * State :=
  let timeout := sanitise_timeout options in
  let inFlightCommand := newResponseMonitor command deviceId teamId timeout now uuid in
  let a := fresh (dom (monitors st)) in
  let st := with_monitors (insert a inFlightCommand) st in
  let st := with_promises (insert a Pending) st in
  let st := with_timers (insert a timeout) st in
  let st := with_inFlightCommands (insert (correlationData inFlightCommand) a) st in
  let commandData := newCommandMessage inFlightCommand payload in
  (a, sendCommand teamId deviceId command commandData st).

(** ** forge/comms/devices.js: handleCommandResponse

    The function is asynchronous with one suspension point, the device
    lookup.  Nothing before that point reads the handler's state, so the
    run is the same as one that starts when the lookup has answered; the
    answer is the one [app] gives.  A [Throw] is the rejection of the
    promise the asynchronous function returns. *)
Definition handleCommandResponse (app : App) (response : value) (st : State)
  : result State :=
  id ← get_prop response "id";
  if negb (truthy id) then Ok st else
  msg ← get_prop response "message";
  match msg with
  | VStr text =>
      message ← JSON_parse_value app (VStr text);
      c ← get_prop message "command";
      if negb (truthy c) then Ok st else
      cd ← get_prop message "correlationData";
      if negb (truthy cd) then Ok st else
      payload ← get_prop message "payload";
      if negb (truthy payload) then Ok st else
      match Device_byId app id with
      | None => Ok st
      | Some device =>
          match inFlightCommands st !! to_str cd with
          | Some a =>
              match monitors st !! a with
              | Some inFlightCommand =>
                  if strict_eq (VStr (command inFlightCommand)) c then
                    let st := monitor_resolve a payload st in
                    rcd ← get_prop response "correlationData";
                    Ok (with_inFlightCommands (delete (to_str rcd)) st)
                  else Ok st
              | None => Ok st
              end
          | None => Ok st
          end
      end
  | _ => Ok st
  end.

(** ** The Device controller: updateState and sendDeviceUpdateCommand *)

Definition set_state (v : value) (d : Device) : Device :=
  {| hashid := hashid d; Team_hashid := Team_hashid d; Project_id := Project_id d;
     targetSnapshot_hashid := targetSnapshot_hashid d; settingsHash := settingsHash d;
     mode := mode d; state := v; agentVersion := agentVersion d;
     lastSeenAt := lastSeenAt d; activeSnapshotId := activeSnapshotId d;
     currentSnapshot := currentSnapshot d |}.

Definition set_agentVersion (v : value) (d : Device) : Device :=
  {| hashid := hashid d; Team_hashid := Team_hashid d; Project_id := Project_id d;
     targetSnapshot_hashid := targetSnapshot_hashid d; settingsHash := settingsHash d;
     mode := mode d; state := state d; agentVersion := v;
     lastSeenAt := lastSeenAt d; activeSnapshotId := activeSnapshotId d;
     currentSnapshot := currentSnapshot d |}.

Definition set_lastSeenAt (t : Timestamp) (d : Device) : Device :=
  {| hashid := hashid d; Team_hashid := Team_hashid d; Project_id := Project_id d;
     targetSnapshot_hashid := targetSnapshot_hashid d; settingsHash := settingsHash d;
     mode := mode d; state := state d; agentVersion := agentVersion d;
     lastSeenAt := t; activeSnapshotId := activeSnapshotId d;
     currentSnapshot := currentSnapshot d |}.

Definition set_activeSnapshotId (v : value) (d : Device) : Device :=
  {| hashid := hashid d; Team_hashid := Team_hashid d; Project_id := Project_id d;
     targetSnapshot_hashid := targetSnapshot_hashid d; settingsHash := settingsHash d;
     mode := mode d; state := state d; agentVersion := agentVersion d;
     lastSeenAt := lastSeenAt d; activeSnapshotId := v;
     currentSnapshot := currentSnapshot d |}.

(** The result is the device as [device.save()] stores it. *)
Definition updateState (app : App) (device : Device) (payload : value) : result Device :=
  s ← get_prop payload "state";
  let device := if truthy s then set_state s device else device in
  v ← get_prop payload "agentVersion";
  let device := if truthy v then set_agentVersion v device else device in
  let device := set_lastSeenAt CURRENT_TIMESTAMP device in
  snapshot ← get_prop payload "snapshot";
  if negb (truthy snapshot) then
    if negb (strict_eq (currentSnapshot device) VNull)
    then Ok (set_activeSnapshotId VNull device)
    else Ok device
  else
    let snapshotId := ProjectSnapshot_decodeHashid app snapshot in
    if (0 <? List.length snapshotId)%nat then
      if ProjectSnapshot_byId app snapshot
      then Ok (set_activeSnapshotId (VArr (map VNum snapshotId)) device)
      else Ok device
    else Ok device.

(** The payload of the "update" command. *)
Definition update_payload (app : App) (device : Device) : value :=
  VObj [("project", js_or (Project_id device) VNull);
        ("snapshot", js_or (targetSnapshot_hashid device) VNull);
        ("settings", js_or (settingsHash device) VNull);
        ("mode", mode device);
        ("licensed", VBool (license_active app))].

(** [app.comms.devices] is the handler whose state is [st]. *)
Definition sendDeviceUpdateCommand (app : App) (device : Device) (st : State) : State :=
  if comms app
  then sendCommand (Team_hashid device) (hashid device) "update"
         (update_payload app device) st
  else st.

(** ** forge/comms/devices.js: handleStatus *)

(** [Object.hasOwn(payload, k) && payload[k] !== (actual || null)] *)
Definition differs (payload : value) (k : string) (actual : value) : result bool :=
  own ← has_own payload k;
  if (own : bool) then
    (v ← get_prop payload k;
     Ok (negb (strict_eq v (js_or actual VNull))))
  else Ok false.

(** The body of the [try] block. *)
Definition handleStatus_try (app : App) (device : Device) (text : value) (st : State)
  : result (State * option Device) :=
  payload ← JSON_parse_value app text;
  device ← updateState app device payload;
  s ← get_prop payload "state";
  let sendUpdateCommand := strict_eq s (VStr "unknown") in
  p ← differs payload "project" (Project_id device);
  let sendUpdateCommand := if (p : bool) then true else sendUpdateCommand in
  n ← differs payload "snapshot" (targetSnapshot_hashid device);
  let sendUpdateCommand := if (n : bool) then true else sendUpdateCommand in
  g ← differs payload "settings" (settingsHash device);
  let sendUpdateCommand := if (g : bool) then true else sendUpdateCommand in
  if sendUpdateCommand
  then Ok (sendDeviceUpdateCommand app device st, Some device)
  else Ok (st, Some device).

(** The second component is the device row that was saved, if any.  An
    exception inside the [try] block is caught and ignored. *)
Definition handleStatus (app : App) (status : value) (st : State)
  : result (State * option Device) :=
  id ← get_prop status "id";
  if negb (truthy id) then Ok (st, None) else
  text ← get_prop status "status";
  if negb (truthy text) then Ok (st, None) else
  match Device_byId app id with
  | None => Ok (st, None)
  | Some device =>
      match handleStatus_try app device text st with
      | Ok r => Ok r
      | Throw _ => Ok (st, None)
      end
  end.

(** ** forge/comms/devices.js: the log relay *)

(** [sockets.add(socket)] on an insertion-ordered Set. *)
Definition set_add (socket : nat) (l : list nat) : list nat :=
  if bool_decide (socket ∈ l) then l else l ++ [socket].

(** [sockets.delete(socket)] *)
Definition set_delete (socket : nat) (l : list nat) : list nat :=
  filter (fun s => s ≠ socket) l.

(** The replay loop of [streamLogs]. *)
Fixpoint replay (socket : nat) (entries : list value) (st : State) : result State :=
  match entries with
  | [] => Ok st
  | entry :: rest =>
      logs ← get_prop entry "logs";
      replay socket rest (socket_send socket logs st)
  end.

Definition streamLogs (teamId deviceId : string) (socket : nat) (st : State)
  : result State :=
  let st :=
    match deviceLogClients st !! deviceId with
    | Some _ => st
    | None =>
        let st := with_deviceLogClients
                    (insert deviceId {| cache := []; sockets := [] |}) st in
        let st := sendCommand teamId deviceId "startLog" (VStr "") st in
        log_info ("Enable device logging " ++ deviceId) st
    end in
  let st := with_deviceLogClients
              (alter (fun info => {| cache := cache info;
                                     sockets := set_add socket (sockets info) |})
                     deviceId) st in
  replay socket (default [] (cache <$> deviceLogClients st !! deviceId)) st.

(** The listener [streamLogs] registers for the close of [socket]. *)
Definition socket_close (teamId deviceId : string) (socket : nat) (st : State) : State :=
  match deviceLogClients st !! deviceId with
  | Some info =>
      let remaining := set_delete socket (sockets info) in
      if (List.length remaining =? 0)%nat then
        let st := with_deviceLogClients (delete deviceId) st in
        let st := sendCommand teamId deviceId "stopLog" (VStr "") st in
        log_info ("Disable device logging " ++ deviceId) st
      else
        with_deviceLogClients
          (insert deviceId {| cache := cache info; sockets := remaining |}) st
  | None => st
  end.

(** [cache.push(log)], then one [cache.shift()] when the length is
    over 10. *)
Definition cache_push (log : value) (cache : list value) : list value :=
  let cache := (cache ++ [log])%list in
  if (10 <? List.length cache)%nat then tail cache else cache.

Definition forwardLog (app : App) (log : value) (st : State) : result State :=
  id ← get_prop log "id";
  match deviceLogClients st !! to_str id with
  | Some socketInfo =>
      let st := with_deviceLogClients
                  (insert (to_str id)
                     {| cache := cache_push log (cache socketInfo);
                        sockets := sockets socketInfo |}) st in
      logs ← get_prop log "logs";
      Ok (foldl (fun st s => socket_send s logs st) st (sockets socketInfo))
  | None =>
      match Device_byId app id with
      | Some device =>
          let st := sendCommand (Team_hashid device) (to_str id) "stopLog" (VStr "") st in
          Ok (log_info ("Disable device logging " ++ to_str id) st)
      | None => Ok st
      end
  end.

(** ** Runs of the handler

    What can happen to a DeviceCommsHandler, one event at a time: calls
    of its methods, events of the comms client, timers and socket
    closes.  An event whose handler throws leaves the state as it was:
    the handlers of the client events throw only before they touch the
    state, and [streamLogs] does not throw ([streamLogs_returns]). *)
Inductive Event :=
| SendCommand (teamId deviceId command : string) (payload : value)
| SendCommandToProjectDevices (teamId projectId command : string) (payload : value)
| SendCommandAwaitReply (teamId deviceId command : string) (payload : value)
    (options : option Options) (now : Z) (uuid : string)
| ResponseDevice (app : App) (response : value)
| StatusDevice (app : App) (status : value)
| LogsDevice (app : App) (log : value)
| TimerFires (a : addr)
| StreamLogs (teamId deviceId : string) (socket : nat)
| SocketCloses (teamId deviceId : string) (socket : nat).

Definition or_unchanged (st : State) (r : result State) : State :=
  match r with
  | Ok st' => st'
  | Throw _ => st
  end.

Definition step (st : State) (e : Event) : State :=
  match e with
  | SendCommand teamId deviceId command payload =>
      sendCommand teamId deviceId command payload st
  | SendCommandToProjectDevices teamId projectId command payload =>
      sendCommandToProjectDevices teamId projectId command payload st
  | SendCommandAwaitReply teamId deviceId command payload options now uuid =>
      (sendCommandAwaitReply teamId deviceId command payload options now uuid st).2
  | ResponseDevice app response => or_unchanged st (handleCommandResponse app response st)
  | StatusDevice app status => or_unchanged st (r ← handleStatus app status st; Ok r.1)
  | LogsDevice app log => or_unchanged st (forwardLog app log st)
  | TimerFires a => timer_fire a st
  | StreamLogs teamId deviceId socket => or_unchanged st (streamLogs teamId deviceId socket st)
  | SocketCloses teamId deviceId socket => socket_close teamId deviceId socket st
  end.

Definition run (events : list Event) (st : State) : State := foldl step st events.

(** The states a handler can be in. *)
Definition reachable (st : State) : Prop := exists events, st = run events init.

(** ** forge/comms/aclManager.js *)
Module AclManager.

(** [s.split(sep)] for a one-character separator. *)
Fixpoint split_on (sep : ascii) (s : string) : list string :=
  match s with
  | EmptyString => [EmptyString]
  | String c r =>
      if Ascii.eqb c sep then EmptyString :: split_on sep r
      else match split_on sep r with
           | h :: t => String c h :: t
           | [] => [String c EmptyString]
           end
  end.

(** [array[i]]: [undefined] past the end. *)
Definition at_index (l : list value) (i : nat) : value := default VUndefined (l !! i).

(** [a && b] *)
Definition js_and (a b : value) : value := if truthy a then b else a.

(** The standard verify functions.  [requestParts] is the match array of
    the rule's pattern, [ids] the colon-delimited parts of the
    username. *)
Definition checkTeamAndObjectIds (requestParts ids : list value) : value :=
  VBool (strict_eq (at_index requestParts 1) (at_index ids 1)
         && strict_eq (at_index requestParts 2) (at_index ids 2)).

Definition checkTeamId (requestParts ids : list value) : value :=
  VBool (strict_eq (at_index requestParts 1) (at_index ids 1)).

Definition checkDeviceIsAssigned (app : App) (requestParts ids : list value) : value :=
  if negb (strict_eq (at_index requestParts 1) (at_index ids 1)) then VBool false
  else
    let assignedProject := getDeviceProjectId app (at_index ids 2) in
    VBool (truthy assignedProject).

Definition checkDeviceAssignedToProject (app : App) (requestParts ids : list value)
  : value :=
  if negb (strict_eq (at_index requestParts 1) (at_index ids 1)) then VBool false
  else
    let assignedProject := getDeviceProjectId app (at_index ids 2) in
    js_and assignedProject (VBool (strict_eq assignedProject (at_index requestParts 2))).

Definition checkDeviceCanAccessProject (app : App) (requestParts ids : list value)
  : value :=
  if negb (strict_eq (at_index requestParts 1) (at_index ids 1)) then VBool false
  else
    let assignedProject := getDeviceProjectId app (at_index ids 2) in
    if negb (truthy assignedProject) then VBool false
    else if strict_eq assignedProject (at_index requestParts 2) then VBool true
    else
      let projectTeamId := getProjectTeamId app (at_index requestParts 2) in
      js_and projectTeamId
        (VBool (strict_eq (encodeHashid app projectTeamId) (at_index requestParts 1))).

(** [verifyFunctions[name]], for a name that is not a member of
    Object.prototype. *)
Definition verifyFunctions (app : App) (name : string)
  : option (list value -> list value -> value) :=
  if String.eqb name "checkTeamAndObjectIds" then Some checkTeamAndObjectIds
  else if String.eqb name "checkTeamId" then Some checkTeamId
  else if String.eqb name "checkDeviceIsAssigned" then Some (checkDeviceIsAssigned app)
  else if String.eqb name "checkDeviceAssignedToProject"
       then Some (checkDeviceAssignedToProject app)
  else if String.eqb name "checkDeviceCanAccessProject"
       then Some (checkDeviceCanAccessProject app)
  else None.

(** An access rule.  [topic] is [rule.topic.exec]: the match array, or
    [None] for no match.  [verify] is the name of a verify function,
    [None] when the rule has none. *)
Module ACL.
Record t := {
  topic : string -> option (list value);
  verify : option string;
  shared : bool
}.
End ACL.

Inductive Scope := forge_platform | project | device.
Inductive Action := sub | pub.

#[export] Instance Scope_eq_dec : EqDecision Scope.
Proof. solve_decision. Defined.
#[export] Instance Action_eq_dec : EqDecision Action.
Proof. solve_decision. Defined.

(** Does the text contain a line terminator (LF, CR, U+2028, U+2029):
    the characters [.] does not match. *)
Fixpoint has_line_terminator (s : string) : bool :=
  match s with
  | EmptyString => false
  | String c r =>
      if Ascii.eqb c "010"%char || Ascii.eqb c "013"%char then true
      else
        match r with
        | String c1 (String c2 _) =>
            if Ascii.eqb c "226"%char && Ascii.eqb c1 "128"%char
               && (Ascii.eqb c2 "168"%char || Ascii.eqb c2 "169"%char)
            then true
            else has_line_terminator r
        | _ => has_line_terminator r
        end
  end.

(** The text before the first [sep] and the text after it. *)
Fixpoint split_first (sep : ascii) (s : string) : option (string * string) :=
  match s with
  | EmptyString => None
  | String c r =>
      if Ascii.eqb c sep then Some (EmptyString, r)
      else '(h, t) ← split_first sep r; Some (String c h, t)
  end.

(** The text after the prefix [p]. *)
Fixpoint strip_prefix (p s : string) : option string :=
  match p with
  | EmptyString => Some s
  | String a p' =>
      match s with
      | String b s' => if Ascii.eqb a b then strip_prefix p' s' else None
      | EmptyString => None
      end
  end.

(** Does [c] occur in [s]. *)
Fixpoint occurs (c : ascii) (s : string) : bool :=
  match s with
  | EmptyString => false
  | String b r => Ascii.eqb b c || occurs c r
  end.

(** [SHARED_SUB.exec(topic)]: the pattern is the literal [$share/], a
    group of one or more characters other than [/], a [/], and a group
    of any characters [.] up to the end of the input.  The result is the
    pair of the two groups. *)
Definition SHARED_SUB_exec (topic : string) : option (string * string) :=
  rest ← strip_prefix "$share/" topic;
  '(shareGroup, inner) ← split_first "/" rest;
  if String.eqb shareGroup "" then None
  else if has_line_terminator inner then None
  else Some (shareGroup, inner).

(** The patterns of the core rules,
    [/^ff\/v1\/[^/]+\/<owner>\/[^/]+\/<message>$/], with the two
    segments as groups when [groups] is set. *)
Definition topic_pattern (owner message : string) (groups : bool) (topic : string)
  : option (list value) :=
  match split_on "/" topic with
  | [ff; v1; team; o; object; m] =>
      if String.eqb ff "ff" && String.eqb v1 "v1" && negb (String.eqb team "")
         && String.eqb o owner && negb (String.eqb object "") && String.eqb m message
      then Some (VStr topic :: if groups then [VStr team; VStr object] else [])
      else None
  | _ => None
  end.

Definition plain (owner message : string) : ACL.t :=
  {| ACL.topic := topic_pattern owner message false; ACL.verify := None;
     ACL.shared := false |}.

Definition checked (owner message verify : string) : ACL.t :=
  {| ACL.topic := topic_pattern owner message true; ACL.verify := Some verify;
     ACL.shared := false |}.

(** The rule sets, as they are before any [addACL]. *)
Definition ACLS (scope : Scope) (action : Action) : list ACL.t :=
  match scope, action with
  | forge_platform, sub =>
      [plain "l" "status"; plain "d" "status"; plain "d" "logs"; plain "d" "response"]
  | forge_platform, pub =>
      [plain "l" "command"; plain "d" "command"; plain "p" "command"]
  | project, sub => [checked "l" "command" "checkTeamAndObjectIds"]
  | project, pub => [checked "l" "status" "checkTeamAndObjectIds"]
  | device, sub =>
      [checked "d" "command" "checkTeamAndObjectIds";
       checked "p" "command" "checkDeviceAssignedToProject"]
  | device, pub =>
      [checked "d" "status" "checkTeamAndObjectIds";
       checked "d" "logs" "checkTeamAndObjectIds";
       checked "d" "response" "checkTeamAndObjectIds"]
  end.

Definition addACL (scope : Scope) (action : Action) (acl : ACL.t)
    (acls : Scope -> Action -> list ACL.t) : Scope -> Action -> list ACL.t :=
  fun s a =>
    if decide (s = scope /\ a = action) then (acls s a ++ [acl])%list else acls s a.

(** The class of a username: [username === 'forge_platform'], then
    [/^project:/], then [/^device:/]. *)
Definition scope_of (username : string) : option Scope :=
  if String.eqb username "forge_platform" then Some forge_platform
  else if String.prefix "project:" username then Some project
  else if String.prefix "device:" username then Some device
  else None.

(** What the first matching rule decides. *)
Definition verdict (app : App) (acl : ACL.t) (isSharedSub : bool)
    (m usernameParts : list value) : value :=
  if isSharedSub && negb (ACL.shared acl) then VBool false
  else
    match ACL.verify acl with
    | Some name =>
        if negb (String.eqb name "") then
          match verifyFunctions app name with
          | Some f => f m usernameParts
          | None => VBool true
          end
        else VBool true
    | None => VBool true
    end.

(** The [for] loop: it ends at the first rule whose pattern matches. *)
Fixpoint scan (app : App) (aclList : list ACL.t) (isSharedSub : bool)
    (topic : string) (usernameParts : list value) : value :=
  match aclList with
  | [] => VBool false
  | acl :: rest =>
      match ACL.topic acl topic with
      | Some m => verdict app acl isSharedSub m usernameParts
      | None => scan app rest isSharedSub topic usernameParts
      end
  end.

Definition verify (app : App) (acls : Scope -> Action -> list ACL.t)
    (username topic : string) (accessLevel : value) : value :=
  let aclType := if strict_eq accessLevel (VNum 2) then pub else sub in
  match scope_of username with
  | None => VBool false
  | Some scope =>
      let aclList := acls scope aclType in
      if (0 <? List.length aclList)%nat then
        let usernameParts := map VStr (split_on ":" username) in
        match aclType, SHARED_SUB_exec topic with
        | sub, Some (shareGroup, inner) =>
            if negb (strict_eq (VStr shareGroup) (at_index usernameParts 2))
            then VBool false
            else scan app aclList true inner usernameParts
        | _, _ => scan app aclList false topic usernameParts
        end
      else VBool false
  end.

End AclManager.

(** ** Sample data *)

Definition sample_device : Device :=
  {| hashid := "dev1"; Team_hashid := "team1"; Project_id := VStr "proj1";
     targetSnapshot_hashid := VStr "snap1"; settingsHash := VStr "5e77";
     mode := VStr "autonomous"; state := VStr "running";
     agentVersion := VStr "1.0.0"; lastSeenAt := At 0;
     activeSnapshotId := VNum 7; currentSnapshot := VUndefined |}.

(** A platform with one device, [dev1] of team [team1], assigned to
    project [proj1], and one snapshot, [snap1]. *)
Definition sample_app : App :=
  {| comms := true;
     license_active := false;
     JSON_parse := Json.parse;
     Device_byId := fun id => if strict_eq id (VStr "dev1") then Some sample_device else None;
     ProjectSnapshot_decodeHashid := fun v => if strict_eq v (VStr "snap1") then [7%Z] else [];
     ProjectSnapshot_byId := fun v => strict_eq v (VStr "snap1");
     getDeviceProjectId := fun v => if strict_eq v (VStr "dev1") then VStr "proj1" else VNull;
     getProjectTeamId := fun v => if strict_eq v (VStr "proj1") then VNum 1 else VNull;
     encodeHashid := fun v => if strict_eq v (VNum 1) then VStr "team1" else VStr "" |}.

(** The same platform before [app.comms] is set. *)
Definition sample_app_without_comms : App :=
  {| comms := false;
     license_active := license_active sample_app;
     JSON_parse := JSON_parse sample_app;
     Device_byId := Device_byId sample_app;
     ProjectSnapshot_decodeHashid := ProjectSnapshot_decodeHashid sample_app;
     ProjectSnapshot_byId := ProjectSnapshot_byId sample_app;
     getDeviceProjectId := getDeviceProjectId sample_app;
     getProjectTeamId := getProjectTeamId sample_app;
     encodeHashid := encodeHashid sample_app |}.

(** The core rule sets after an extension has registered a rule that
    lets the devices of a project share the subscription to the
    broadcast topic. *)
Definition shared_acls : AclManager.Scope -> AclManager.Action -> list AclManager.ACL.t :=
  AclManager.addACL AclManager.device AclManager.sub
    {| AclManager.ACL.topic := AclManager.topic_pattern "p" "command" true;
       AclManager.ACL.verify := Some "checkDeviceAssignedToProject";
       AclManager.ACL.shared := true |}
    (AclManager.addACL AclManager.device AclManager.sub
       {| AclManager.ACL.topic := AclManager.topic_pattern "s" "command" true;
          AclManager.ACL.verify := None;
          AclManager.ACL.shared := true |}
       AclManager.ACLS).

(** The event the comms client emits for a message on
    [ff/v1/<team>/d/<id>/response]. *)
Definition response_event (id : string) (message : value) : value :=
  VObj [("id", VStr id); ("message", VStr (Json.stringify message))].

Definition reply (command uuid : string) (payload : value) : value :=
  VObj [("command", VStr command); ("correlationData", VStr uuid); ("payload", payload)].

Definition status_event (id : string) (status : value) : value :=
  VObj [("id", VStr id); ("status", VStr (Json.stringify status))].

Definition log_event (id line : string) : value :=
  VObj [("id", VStr id); ("logs", VStr line)].

(** ** Predicates on the state of the handler *)

Definition settled (m : ResponseMonitor) : bool := resolved m || rejected m.

(** What the flags of a monitor say about its promise. *)
Definition flags_agree (m : ResponseMonitor) (p : option Promise) : Prop :=
  match p with
  | Some Pending => resolved m = false /\ rejected m = false
  | Some (Fulfilled _) => resolved m = true /\ rejected m = false
  | Some (Rejected _) => resolved m = false /\ rejected m = true
  | None => False
  end.

(** The invariant of the in-flight bookkeeping. *)
Record consistent (st : State) : Prop := {
  (** a registered monitor is filed under its own token and is not settled *)
  in_flight_fresh : forall k a, inFlightCommands st !! k = Some a ->
    exists m, monitors st !! a = Some m /\ correlationData m = k
              /\ resolved m = false /\ rejected m = false;
  (** a set timer belongs to a monitor that is not settled *)
  timer_fresh : forall a d, timers st !! a = Some d ->
    exists m, monitors st !! a = Some m /\ resolved m = false /\ rejected m = false;
  (** flags and promise go together *)
  flags_promise : forall a m, monitors st !! a = Some m -> flags_agree m (promises st !! a);
  (** the timer of a monitor that is not settled is still set *)
  unsettled_timer : forall a m, monitors st !! a = Some m ->
    resolved m = false -> rejected m = false -> is_Some (timers st !! a)
}.

(** The log relay keeps at most 10 entries per session, none of them
    [null] or [undefined]. *)
Definition caches_bounded (st : State) : Prop :=
  forall k info, deviceLogClients st !! k = Some info ->
    (List.length (cache info) <= 10)%nat
    /\ Forall (fun entry => nullish entry = false) (cache info).

(** The part of the state the command protocol works on. *)
Definition core (st : State) :=
  (inFlightCommands st, monitors st, promises st, timers st).

(** From [st] to [st']: every monitor is still there under its command
    and token, a settled one is as it was, with its promise, and a timer
    that is set was set before, with the same delay. *)
Definition evolves (st st' : State) : Prop :=
  forall a m, monitors st !! a = Some m ->
    exists m', monitors st' !! a = Some m'
      /\ command m' = command m
      /\ correlationData m' = correlationData m
      /\ (settled m = true -> m' = m /\ promises st' !! a = promises st !! a)
      /\ (forall d, timers st' !! a = Some d -> timers st !! a = Some d).

(** The shapes a run of [handleCommandResponse] can take: it throws, it
    returns without touching the state, or it resolves the monitor filed
    under the message's token and deletes [response.correlationData]. *)
Inductive response_outcome (app : App) (response : value) (st : State)
  : result State -> Prop :=
| response_throws e : response_outcome app response st (Throw e)
| response_dropped : response_outcome app response st (Ok st)
| response_resolves text message cd c payload a m rcd :
    get_prop response "message" = Ok (VStr text) ->
    JSON_parse app text = Some message ->
    get_prop message "correlationData" = Ok cd ->
    get_prop message "command" = Ok c ->
    get_prop message "payload" = Ok payload ->
    truthy payload = true ->
    inFlightCommands st !! to_str cd = Some a ->
    monitors st !! a = Some m ->
    strict_eq (VStr (command m)) c = true ->
    response_outcome app response st
      (Ok (with_inFlightCommands (delete rcd) (monitor_resolve a payload st))).

(** The key under which [handleCommandResponse] looks for a monitor,
    when the response gets that far: the correlation token its message
    carries. *)
Definition response_token (app : App) (response : value) : option string :=
  match get_prop response "message" with
  | Ok (VStr text) =>
      match JSON_parse app text with
      | Some message =>
          match get_prop message "correlationData" with
          | Ok cd => Some (to_str cd)
          | Throw _ => None
          end
      | None => None
      end
  | _ => None
  end.

(** The events that are neither a response carrying the token [uuid]
    nor the firing of the timer of the monitor at [a]. *)
Definition leaves_pending (a : addr) (uuid : string) (e : Event) : Prop :=
  match e with
  | ResponseDevice app response => response_token app response <> Some uuid
  | TimerFires a' => a' <> a
  | _ => True
  end.

(** Case analysis on an event, naming its parts. *)
Ltac event_cases e :=
  destruct e as [t d c p | t d c p | t d c p o n u | app response | app status
                | app log | a | t d socket | t d socket].

(** ** forge/comms/devices.js: the editor commands *)

(** [sendCommandAwaitReply(teamId, deviceId, 'startEditor', { token })],
    with the options left out. *)
Definition enableEditor (teamId deviceId : string) (token : value) (now : Z)
    (uuid : string) (st : State) : addr * State :=
  sendCommandAwaitReply teamId deviceId "startEditor" (VObj [("token", token)])
    None now uuid st.

(** ** The Device controller: exportConfig *)

(** The first half of [exportConfig], up to the [await]: nothing is sent
    when [app.comms] is not set (the function then returns null).  The
    object [{ timeout: 10000 }] is the fourth argument of
    [sendCommandAwaitReply], its payload; the options are left out. *)
Definition exportConfig_send (app : App) (device : Device) (now : Z) (uuid : string)
    (st : State) : option (addr * State) :=
  if comms app
  then Some (sendCommandAwaitReply (Team_hashid device) (hashid device) "upload"
               (VObj [("timeout", VNum 10000)]) None now uuid st)
  else None.

(** The second half: what the promise of [exportConfig] becomes when the
    awaited promise is settled ([config] when it is truthy, else null;
    a rejection is passed on). *)
Definition exportConfig_return (awaited : Promise) : Promise :=
  match awaited with
  | Fulfilled config => Fulfilled (if truthy config then config else VNull)
  | Rejected message => Rejected message
  | Pending => Pending
  end.

(** ** The Device controller: platform environment variables *)
Module EnvVar.
(** An entry [{ name, value, platform }]; [platform] is false when the
    property is missing. *)
Record t := {
  name : string;
  value : JS.value;
  platform : bool
}.
End EnvVar.

(** The argument is [None] when it is missing or not an array. *)
Definition removePlatformSpecificEnvVars (envVars : option (list EnvVar.t))
  : list EnvVar.t :=
  match envVars with
  | None => []
  | Some envVars => filter (fun e => String.prefix "FF_" (EnvVar.name e) = false) envVars
  end.

(** The local function [makeVar]. *)
Definition makeVar (name : string) (v : value) : EnvVar.t :=
  {| EnvVar.name := name; EnvVar.value := js_or v (VStr ""); EnvVar.platform := true |}.

(** [deviceName], [deviceType] and [snapshotName] are [device.name],
    [device.type] and [device.targetSnapshot?.name], which the Device
    record above does not carry. *)
Definition insertPlatformSpecificEnvVars (device : Device)
    (deviceName deviceType snapshotName : value) (envVars : option (list EnvVar.t))
  : list EnvVar.t :=
  [makeVar "FF_DEVICE_ID" (js_or (VStr (hashid device)) (VStr ""));
   makeVar "FF_DEVICE_NAME" (js_or deviceName (VStr ""));
   makeVar "FF_DEVICE_TYPE" (js_or deviceType (VStr ""));
   makeVar "FF_SNAPSHOT_ID" (js_or (targetSnapshot_hashid device) (VStr ""));
   makeVar "FF_SNAPSHOT_NAME" (js_or snapshotName (VStr ""))]
  ++ removePlatformSpecificEnvVars envVars.

(** ** The AccessToken controller: the scope of a provisioning token *)

(** [(project && typeof project === 'object') ? project.id : project] *)
Definition project_id_of (project : value) : value :=
  match project with
  | VObj props => default VUndefined (assoc "id" props)
  | VArr _ => VUndefined
  | _ => project
  end.

(** The scope [createTokenForTeamDeviceProvisioning] stores. *)
Definition provisioning_scope (name : value) (project : value) : list string :=
  let scope := ["device:provision"; "name:" ++ to_str name] in
  let projectId := project_id_of project in
  if truthy projectId then (scope ++ [String.append "project:" (to_str projectId)])%list else scope.

(** The scope [updateTokenForTeamDeviceProvisioning] stores for a token
    whose scope is [scope] ([None] when [token.scope] is falsy). *)
Definition updated_provisioning_scope (scope : option (list string)) (project : value)
  : list string :=
  let scope := default [] scope in
  let projectId := project_id_of project in
  let scope := filter (fun s => String.prefix "project:" s = false) scope in
  if truthy projectId then (scope ++ [String.append "project:" (to_str projectId)])%list else scope.

(** ** forge/comms/commsClient.js: the message listener *)

(** The event the listener of ['message'] emits, if any: its name and
    its argument.  [message] is [message.toString()]. *)
Definition on_message (topic message : string) : option (string * value) :=
  let topicParts := map VStr (AclManager.split_on "/" topic) in
  let ownerType := AclManager.at_index topicParts 3 in
  let ownerId := AclManager.at_index topicParts 4 in
  let messageType := AclManager.at_index topicParts 5 in
  if strict_eq ownerType (VStr "p") then
    Some ("status/project", VObj [("id", ownerId); ("status", VStr message)])
  else if strict_eq ownerType (VStr "d") then
    if strict_eq messageType (VStr "status") then
      Some ("status/device", VObj [("id", ownerId); ("status", VStr message)])
    else if strict_eq messageType (VStr "logs") then
      Some ("logs/device", VObj [("id", ownerId); ("logs", VStr message)])
    else if strict_eq messageType (VStr "response") then
      Some ("response/device", VObj [("id", ownerId); ("message", VStr message)])
    else None
  else None.

(** A broker message as the DeviceCommsHandler sees it, through the
    three listeners its constructor registers on the client. *)
Definition deliver (app : App) (topic message : string) (st : State) : State :=
  match on_message topic message with
  | Some (name, event) =>
      if String.eqb name "status/device" then step st (StatusDevice app event)
      else if String.eqb name "logs/device" then step st (LogsDevice app event)
      else if String.eqb name "response/device" then step st (ResponseDevice app event)
      else st
  | None => st
  end.

(** ** More predicates *)

(** The outcomes a promise of [sendCommandAwaitReply] can have. *)
Definition outcome_sound (p : Promise) : Prop :=
  match p with
  | Pending => True
  | Fulfilled payload => truthy payload = true
  | Rejected message => message = "Command timed out"
  end.

(** The topic [ff/v1/<team>/<owner>/<object>/<message>]. *)
Definition topic_of (team owner object message : string) : string :=
  "ff/v1/" ++ team ++ "/" ++ owner ++ "/" ++ object ++ "/" ++ message.

(** A team or object id as it appears in a topic and in a username: not
    empty, without [/] and without [:]. *)
Definition id_ok (s : string) : Prop :=
  s <> "" /\ AclManager.occurs "/" s = false /\ AclManager.occurs ":" s = false.

(** ** Steps that leave the command protocol alone *)

Lemma consistent_init : consistent init.
Proof.
  split; intros *; simpl; rewrite lookup_empty; discriminate.
Qed.

Lemma consistent_core st st' : core st' = core st -> consistent st -> consistent st'.
Proof.
  unfold core. intros [= Hm Hh Hp Ht] [H1 H2 H3 H4].
  split; intros *; rewrite ?Hm, ?Hh, ?Hp, ?Ht; eauto.
Qed.

Lemma core_sendCommand teamId deviceId command payload st :
  core (sendCommand teamId deviceId command payload st) = core st.
Proof. reflexivity. Qed.

Lemma core_sendDeviceUpdateCommand app device st :
  core (sendDeviceUpdateCommand app device st) = core st.
Proof. unfold sendDeviceUpdateCommand. destruct (comms app); reflexivity. Qed.

Lemma core_replay socket entries : forall st st',
  replay socket entries st = Ok st' -> core st' = core st.
Proof.
  induction entries as [|entry rest IH]; intros st st'; simpl.
  - intros [= <-]. reflexivity.
  - destruct (get_prop entry "logs") as [logs|]; simpl; [|discriminate].
    intros H. apply IH in H. exact H.
Qed.

Lemma core_foldl_send (logs : value) (l : list nat) : forall st,
  core (foldl (fun st s => socket_send s logs st) st l) = core st.
Proof.
  induction l as [|s l IH]; intros st; simpl; [reflexivity|].
  rewrite IH. reflexivity.
Qed.

Lemma core_streamLogs teamId deviceId socket st st' :
  streamLogs teamId deviceId socket st = Ok st' -> core st' = core st.
Proof.
  unfold streamLogs. intros H. apply core_replay in H. rewrite H.
  destruct (deviceLogClients st !! deviceId); reflexivity.
Qed.

Lemma core_socket_close teamId deviceId socket st :
  core (socket_close teamId deviceId socket st) = core st.
Proof.
  unfold socket_close. destruct (deviceLogClients st !! deviceId); [|reflexivity].
  destruct (_ =? _)%nat; reflexivity.
Qed.

Lemma core_forwardLog app log st st' :
  forwardLog app log st = Ok st' -> core st' = core st.
Proof.
  unfold forwardLog. destruct (get_prop log "id") as [id|]; simpl; [|discriminate].
  destruct (deviceLogClients st !! to_str id).
  - destruct (get_prop log "logs") as [logs|]; simpl; [|discriminate].
    intros [= <-]. rewrite core_foldl_send. reflexivity.
  - destruct (Device_byId app id); intros [= <-]; reflexivity.
Qed.

Lemma core_handleStatus app status st st' saved :
  handleStatus app status st = Ok (st', saved) -> core st' = core st.
Proof.
  unfold handleStatus.
  destruct (get_prop status "id") as [id|]; simpl; [|discriminate].
  destruct (truthy id); simpl; [|intros [= <- _]; reflexivity].
  destruct (get_prop status "status") as [text|]; simpl; [|discriminate].
  destruct (truthy text); simpl; [|intros [= <- _]; reflexivity].
  destruct (Device_byId app id) as [device|]; [|intros [= <- _]; reflexivity].
  destruct (handleStatus_try app device text st) as [[st1 d1]|] eqn:Htry;
    [|intros [= <- _]; reflexivity].
  intros [= <- _]. revert Htry. unfold handleStatus_try.
  destruct (JSON_parse_value app text) as [payload|]; simpl; [|discriminate].
  destruct (updateState app device payload) as [device'|]; simpl; [|discriminate].
  destruct (get_prop payload "state") as [s|]; simpl; [|discriminate].
  destruct (differs payload "project" _) as [p|]; simpl; [|discriminate].
  destruct (differs payload "snapshot" _) as [n|]; simpl; [|discriminate].
  destruct (differs payload "settings" _) as [g|]; simpl; [|discriminate].
  destruct (if g then true else _); intros [= <- _];
    [apply core_sendDeviceUpdateCommand | reflexivity].
Qed.

(** ** The invariant is kept *)

Lemma flags_agree_pending m p :
  flags_agree m p -> resolved m = false -> rejected m = false -> p = Some Pending.
Proof.
  destruct p as [[| |]|]; simpl; intros H ? ?; try (destruct H; congruence).
Qed.

Lemma consistent_delete_key k st :
  consistent st -> consistent (with_inFlightCommands (delete k) st).
Proof.
  intros [H1 H2 H3 H4]. split; simpl; eauto.
  intros k' a. rewrite lookup_delete. case_decide; [discriminate|]. eauto.
Qed.

(** Settling the monitor at [a], through either closure, keeps the
    bookkeeping consistent, provided the monitor was not settled. *)
Lemma consistent_settle a m m' outcome st :
  consistent st ->
  monitors st !! a = Some m ->
  resolved m = false -> rejected m = false ->
  correlationData m' = correlationData m ->
  flags_agree m' (Some outcome) ->
  settled m' = true ->
  consistent
    (with_inFlightCommands (delete (correlationData m))
       (with_promises (alter (settle outcome) a)
          (with_timers (delete a) (with_monitors (insert a m') st)))).
Proof.
  intros [H1 H2 H3 H4] Hm Hr Hj Hcd Hflags Hset. split; simpl.
  - intros k a'. rewrite lookup_delete. case_decide as Hk; [discriminate|].
    intros Hin. destruct (H1 _ _ Hin) as (m0 & Hm0 & Hk0 & ? & ?).
    assert (a' <> a) by (intros ->; congruence).
    exists m0. rewrite lookup_insert_ne by congruence. auto.
  - intros a' d. rewrite lookup_delete. case_decide as Ha; [discriminate|].
    intros Hin. destruct (H2 _ _ Hin) as (m0 & Hm0 & ? & ?).
    exists m0. rewrite lookup_insert_ne by congruence. auto.
  - intros a' m0. rewrite lookup_insert. case_decide as Ha.
    + subst a'. intros [= <-]. rewrite lookup_alter_eq.
      rewrite (flags_agree_pending m _ (H3 _ _ Hm) Hr Hj). exact Hflags.
    + rewrite lookup_alter_ne by congruence. eauto.
  - intros a' m0. rewrite lookup_insert. case_decide as Ha.
    + intros [= <-] Hr' Hj'. unfold settled in Hset. rewrite Hr', Hj' in Hset.
      discriminate.
    + rewrite lookup_delete_ne by congruence. eauto.
Qed.

Lemma consistent_resolve a m payload st :
  consistent st -> monitors st !! a = Some m ->
  resolved m = false -> rejected m = false ->
  consistent (monitor_resolve a payload st).
Proof.
  intros Hc Hm Hr Hj. unfold monitor_resolve. rewrite Hm.
  apply (consistent_settle a m (set_resolved m) (Fulfilled payload)); auto.
  simpl. auto.
Qed.

Lemma consistent_reject a m err st :
  consistent st -> monitors st !! a = Some m ->
  resolved m = false -> rejected m = false ->
  consistent (monitor_reject a err st).
Proof.
  intros Hc Hm Hr Hj. unfold monitor_reject. rewrite Hm.
  apply (consistent_settle a m (set_rejected m) (Rejected err)); auto.
  - simpl. auto.
  - unfold settled. simpl. apply orb_true_r.
Qed.

(** A timer that fires on a monitor that is not settled rejects it. *)
Lemma timer_fire_rejects a d m st :
  timers st !! a = Some d -> monitors st !! a = Some m ->
  resolved m = false -> rejected m = false ->
  timer_fire a st = monitor_reject a "Command timed out" st.
Proof.
  intros Ht Hm Hr Hj. unfold timer_fire, timer_callback, monitor_reject.
  rewrite Ht. simpl. rewrite Hm, Hr, Hj.
  unfold with_inFlightCommands, with_promises, with_timers, with_monitors. simpl.
  rewrite delete_delete_eq. reflexivity.
Qed.

Lemma consistent_timer_fire a st : consistent st -> consistent (timer_fire a st).
Proof.
  intros Hc. destruct (timers st !! a) as [d|] eqn:Ht.
  - destruct (timer_fresh _ Hc _ _ Ht) as (m & Hm & Hr & Hj).
    rewrite (timer_fire_rejects a d m) by assumption.
    eapply consistent_reject; eauto.
  - unfold timer_fire. rewrite Ht. exact Hc.
Qed.

Lemma fresh_monitor st : monitors st !! fresh (dom (monitors st)) = None.
Proof. apply not_elem_of_dom, is_fresh. Qed.

Lemma consistent_sendCommandAwaitReply teamId deviceId command payload options now uuid st :
  consistent st ->
  consistent (sendCommandAwaitReply teamId deviceId command payload options now uuid st).2.
Proof.
  intros [H1 H2 H3 H4]. pose proof (fresh_monitor st) as Hfresh.
  unfold sendCommandAwaitReply. simpl.
  set (a := fresh (dom (monitors st))) in *.
  split; simpl.
  - intros k a'. rewrite lookup_insert. case_decide as Hk.
    + intros [= <-]. rewrite lookup_insert_eq. eexists. split; [reflexivity|]. auto.
    + intros Hin. destruct (H1 _ _ Hin) as (m0 & Hm0 & ?).
      exists m0. rewrite lookup_insert_ne by congruence. auto.
  - intros a' d. rewrite lookup_insert. case_decide as Ha.
    + subst a'. intros _. rewrite lookup_insert_eq. eexists. split; [reflexivity|]. auto.
    + intros Hin. destruct (H2 _ _ Hin) as (m0 & Hm0 & ?).
      exists m0. rewrite lookup_insert_ne by congruence. auto.
  - intros a' m0. rewrite lookup_insert. case_decide as Ha.
    + subst a'. intros [= <-]. rewrite lookup_insert_eq. simpl. auto.
    + rewrite lookup_insert_ne by congruence. eauto.
  - intros a' m0. rewrite lookup_insert. case_decide as Ha.
    + subst a'. intros _ _ _. rewrite lookup_insert_eq. eauto.
    + rewrite lookup_insert_ne by congruence. eauto.
Qed.

Lemma handleCommandResponse_outcome app response st :
  response_outcome app response st (handleCommandResponse app response st).
Proof.
  unfold handleCommandResponse.
  destruct (get_prop response "id") as [id|]; simpl; [|constructor].
  destruct (truthy id); simpl; [|constructor].
  destruct (get_prop response "message") as [msg|] eqn:Hmsg; simpl; [|constructor].
  destruct msg as [| | | |text| |]; try constructor.
  unfold JSON_parse_value. change (to_str (VStr text)) with text.
  destruct (JSON_parse app text) as [message|] eqn:Hparse; simpl; [|constructor].
  destruct (get_prop message "command") as [c|] eqn:Hc; simpl; [|constructor].
  destruct (truthy c); simpl; [|constructor].
  destruct (get_prop message "correlationData") as [cd|] eqn:Hcd; simpl; [|constructor].
  destruct (truthy cd); simpl; [|constructor].
  destruct (get_prop message "payload") as [payload|] eqn:Hp; simpl; [|constructor].
  destruct (truthy payload) eqn:Htp; simpl; [|constructor].
  destruct (Device_byId app id); [|constructor].
  destruct (inFlightCommands st !! to_str cd) as [a|] eqn:Ha; [|constructor].
  destruct (monitors st !! a) as [m|] eqn:Hm; [|constructor].
  destruct (strict_eq (VStr (command m)) c) eqn:Heq; [|constructor].
  destruct (get_prop response "correlationData") as [rcd|]; simpl; [|constructor].
  eapply response_resolves; eauto.
Qed.

Lemma consistent_handleCommandResponse app response st st' :
  consistent st -> handleCommandResponse app response st = Ok st' -> consistent st'.
Proof.
  intros Hc Hrun.
  destruct (handleCommandResponse_outcome app response st)
    as [e | | text message cd c payload a m rcd Hmsg Hparse Hcd Hcmd Hp Htp Hin Hm Heq];
    try discriminate;
    injection Hrun as <-; [exact Hc|].
  apply consistent_delete_key.
  destruct (in_flight_fresh _ Hc _ _ Hin) as (m0 & Hm0 & _ & Hr & Hj).
  eapply consistent_resolve; eauto.
Qed.

Lemma consistent_step st e : consistent st -> consistent (step st e).
Proof.
  intros Hc.
  event_cases e; simpl.
  - eapply consistent_core; [apply core_sendCommand | exact Hc].
  - apply (consistent_core st); [reflexivity | exact Hc].
  - apply consistent_sendCommandAwaitReply, Hc.
  - destruct (handleCommandResponse app response st) eqn:H; simpl; [|exact Hc].
    eapply consistent_handleCommandResponse; eauto.
  - destruct (handleStatus app status st) as [[st' saved]|] eqn:H; simpl; [|exact Hc].
    eapply consistent_core; [eapply core_handleStatus; eauto | exact Hc].
  - destruct (forwardLog app log st) eqn:H; simpl; [|exact Hc].
    eapply consistent_core; [eapply core_forwardLog; eauto | exact Hc].
  - apply consistent_timer_fire, Hc.
  - destruct (streamLogs t d socket st) eqn:H; simpl; [|exact Hc].
    eapply consistent_core; [eapply core_streamLogs; eauto | exact Hc].
  - eapply consistent_core; [apply core_socket_close | exact Hc].
Qed.

Lemma consistent_run events : forall st, consistent st -> consistent (run events st).
Proof.
  induction events as [|e events IH]; intros st Hc; simpl; [exact Hc|].
  apply IH, consistent_step, Hc.
Qed.

Lemma consistent_reachable st : reachable st -> consistent st.
Proof. intros [events ->]. apply consistent_run, consistent_init. Qed.

Lemma reachable_run events st : reachable st -> reachable (run events st).
Proof.
  intros [events0 ->]. exists (events0 ++ events)%list.
  unfold run. rewrite foldl_app. reflexivity.
Qed.

(** ** How monitors change along a run *)

Lemma evolves_refl st : evolves st st.
Proof. intros a m Hm. exists m. repeat split; auto. Qed.

Lemma evolves_trans st1 st2 st3 : evolves st1 st2 -> evolves st2 st3 -> evolves st1 st3.
Proof.
  intros H12 H23 a m Hm.
  destruct (H12 _ _ Hm) as (m2 & Hm2 & Hc2 & Hk2 & Hs2 & Ht2).
  destruct (H23 _ _ Hm2) as (m3 & Hm3 & Hc3 & Hk3 & Hs3 & Ht3).
  exists m3. split; [exact Hm3|]. split; [congruence|]. split; [congruence|].
  split; [|auto].
  intros Hs. destruct (Hs2 Hs) as [-> Hp]. destruct (Hs3 Hs) as [-> Hp'].
  split; congruence.
Qed.

Lemma evolves_same st st' :
  monitors st' = monitors st -> promises st' = promises st ->
  (forall a d, timers st' !! a = Some d -> timers st !! a = Some d) ->
  evolves st st'.
Proof. intros Hh Hp Ht a m Ha. exists m. rewrite Hh, Hp. repeat split; auto. Qed.

Lemma evolves_core st st' : core st' = core st -> evolves st st'.
Proof.
  unfold core. intros [= Hm Hh Hp Ht]. apply evolves_same; try assumption.
  intros a d. rewrite Ht. auto.
Qed.

Lemma evolves_settle a m m' outcome st :
  monitors st !! a = Some m ->
  settled m = false ->
  command m' = command m ->
  correlationData m' = correlationData m ->
  evolves st
    (with_inFlightCommands (delete (correlationData m))
       (with_promises (alter (settle outcome) a)
          (with_timers (delete a) (with_monitors (insert a m') st)))).
Proof.
  intros Hm Hs Hc Hk a0 m0 Hm0. simpl.
  assert (forall d, delete a (timers st) !! a0 = Some d -> timers st !! a0 = Some d) as Ht.
  { intros d. rewrite lookup_delete. case_decide; [discriminate|auto]. }
  destruct (decide (a0 = a)) as [->|Hne].
  - rewrite lookup_insert_eq. exists m'.
    assert (m0 = m) as -> by congruence.
    split; [reflexivity|]. split; [exact Hc|]. split; [exact Hk|].
    split; [congruence | exact Ht].
  - rewrite lookup_insert_ne, lookup_alter_ne by congruence.
    exists m0. repeat split; auto.
Qed.

Lemma evolves_resolve a m payload st :
  monitors st !! a = Some m -> settled m = false ->
  evolves st (monitor_resolve a payload st).
Proof.
  intros Hm Hs. unfold monitor_resolve. rewrite Hm.
  apply (evolves_settle a m (set_resolved m)); auto.
Qed.

Lemma evolves_reject a m err st :
  monitors st !! a = Some m -> settled m = false ->
  evolves st (monitor_reject a err st).
Proof.
  intros Hm Hs. unfold monitor_reject. rewrite Hm.
  apply (evolves_settle a m (set_rejected m)); auto.
Qed.

Lemma evolves_timer_fire a st : consistent st -> evolves st (timer_fire a st).
Proof.
  intros Hc. destruct (timers st !! a) as [d|] eqn:Ht.
  - destruct (timer_fresh _ Hc _ _ Ht) as (m & Hm & Hr & Hj).
    rewrite (timer_fire_rejects a d m) by assumption.
    eapply evolves_reject; eauto. unfold settled. rewrite Hr, Hj. reflexivity.
  - unfold timer_fire. rewrite Ht. apply evolves_refl.
Qed.

Lemma evolves_sendCommandAwaitReply teamId deviceId command payload options now uuid st :
  evolves st (sendCommandAwaitReply teamId deviceId command payload options now uuid st).2.
Proof.
  intros a m Hm. pose proof (fresh_monitor st) as Hfresh. simpl.
  assert (fresh (dom (monitors st)) <> a) by congruence.
  rewrite !lookup_insert_ne by assumption. exists m. repeat split; auto.
Qed.

Lemma evolves_handleCommandResponse app response st st' :
  consistent st -> handleCommandResponse app response st = Ok st' -> evolves st st'.
Proof.
  intros Hc Hrun.
  destruct (handleCommandResponse_outcome app response st)
    as [e | | text message cd c payload a m rcd Hmsg Hparse Hcd Hcmd Hp Htp Hin Hm Heq];
    try discriminate;
    injection Hrun as <-; [apply evolves_refl|].
  destruct (in_flight_fresh _ Hc _ _ Hin) as (m0 & Hm0 & _ & Hr & Hj).
  apply (evolves_trans _ (monitor_resolve a payload st));
    [|apply evolves_same; auto].
  eapply evolves_resolve; eauto. unfold settled. rewrite Hr, Hj. reflexivity.
Qed.

Lemma evolves_step st e : consistent st -> evolves st (step st e).
Proof.
  intros Hc.
  event_cases e; simpl.
  - apply evolves_core; reflexivity.
  - apply evolves_core; reflexivity.
  - apply evolves_sendCommandAwaitReply.
  - destruct (handleCommandResponse app response st) eqn:H; simpl; [|apply evolves_refl].
    eapply evolves_handleCommandResponse; eauto.
  - destruct (handleStatus app status st) as [[st' saved]|] eqn:H; simpl;
      [|apply evolves_refl].
    apply evolves_core. eapply core_handleStatus; eauto.
  - destruct (forwardLog app log st) eqn:H; simpl; [|apply evolves_refl].
    apply evolves_core. eapply core_forwardLog; eauto.
  - apply evolves_timer_fire, Hc.
  - destruct (streamLogs t d socket st) eqn:H; simpl; [|apply evolves_refl].
    apply evolves_core. eapply core_streamLogs; eauto.
  - apply evolves_core, core_socket_close.
Qed.

Lemma evolves_run events : forall st, consistent st -> evolves st (run events st).
Proof.
  induction events as [|e events IH]; intros st Hc; simpl; [apply evolves_refl|].
  eapply evolves_trans; [apply evolves_step, Hc|].
  apply IH, consistent_step, Hc.
Qed.

(** ** The request/reply round trip *)

(** Just after [sendCommandAwaitReply]: the new monitor is registered,
    its promise is pending and its timer is set. *)
Lemma sendCommandAwaitReply_registers teamId deviceId command payload options now uuid st :
  let sent := sendCommandAwaitReply teamId deviceId command payload options now uuid st in
  monitors sent.2 !! sent.1
    = Some (newResponseMonitor command deviceId teamId (sanitise_timeout options) now uuid)
  /\ inFlightCommands sent.2 !! uuid = Some sent.1
  /\ promises sent.2 !! sent.1 = Some Pending
  /\ timers sent.2 !! sent.1 = Some (sanitise_timeout options).
Proof. simpl. rewrite !lookup_insert_eq. auto. Qed.

(** A well-formed reply for a registered monitor resolves it. *)
Lemma handleCommandResponse_resolve app response st id device text message c uuid payload a m :
  get_prop response "id" = Ok id -> truthy id = true ->
  Device_byId app id = Some device ->
  get_prop response "message" = Ok (VStr text) ->
  JSON_parse app text = Some message ->
  get_prop message "command" = Ok (VStr c) -> truthy (VStr c) = true ->
  get_prop message "correlationData" = Ok (VStr uuid) -> truthy (VStr uuid) = true ->
  get_prop message "payload" = Ok payload -> truthy payload = true ->
  inFlightCommands st !! uuid = Some a ->
  monitors st !! a = Some m ->
  command m = c ->
  exists rcd, handleCommandResponse app response st
              = Ok (with_inFlightCommands (delete rcd) (monitor_resolve a payload st)).
Proof.
  intros Hid Htid Hdev Hmsg Hparse Hc Htc Hcd Htcd Hp Htp Hin Hm Hcmd.
  unfold handleCommandResponse, JSON_parse_value.
  rewrite Hid. simpl. rewrite Htid. simpl. rewrite Hmsg. simpl.
  change (to_str (VStr text)) with text. rewrite Hparse. simpl.
  rewrite Hc. simpl. rewrite Htc. simpl. rewrite Hcd. simpl. rewrite Htcd. simpl.
  rewrite Hp. simpl. rewrite Htp. simpl. rewrite Hdev.
  change (to_str (VStr uuid)) with uuid. rewrite Hin, Hm, Hcmd.
  unfold strict_eq. rewrite String.eqb_refl.
  destruct response; try discriminate; simpl; eauto.
Qed.

(** A reply whose token has no registered monitor is dropped. *)
Lemma handleCommandResponse_absent app response st text message uuid :
  get_prop response "message" = Ok (VStr text) ->
  JSON_parse app text = Some message ->
  get_prop message "correlationData" = Ok (VStr uuid) ->
  inFlightCommands st !! uuid = None ->
  handleCommandResponse app response st = Ok st.
Proof.
  intros Hmsg Hparse Hcd Hin.
  unfold handleCommandResponse, JSON_parse_value.
  destruct (get_prop response "id") as [id|] eqn:Hid;
    [|destruct response; discriminate].
  simpl. destruct (truthy id); simpl; [|reflexivity].
  rewrite Hmsg. simpl. change (to_str (VStr text)) with text. rewrite Hparse. simpl.
  destruct (get_prop message "command") as [c|] eqn:Hc;
    [|destruct message; discriminate].
  simpl. destruct (truthy c); simpl; [|reflexivity].
  rewrite Hcd. simpl. destruct (truthy (VStr uuid)); simpl; [|reflexivity].
  destruct (get_prop message "payload") as [payload|] eqn:Hp;
    [|destruct message; discriminate].
  simpl. destruct (truthy payload); simpl; [|reflexivity].
  destruct (Device_byId app id); [|reflexivity].
  change (to_str (VStr uuid)) with uuid. rewrite Hin. reflexivity.
Qed.

(** The monitor of a call is still there after any run, under the
    command and the token of the call, and its timer, if set, has the
    delay of the call. *)
Lemma monitor_after_run st0 teamId deviceId cmd payload options now uuid events :
  consistent st0 ->
  let sent := sendCommandAwaitReply teamId deviceId cmd payload options now uuid st0 in
  let st := run events sent.2 in
  consistent st
  /\ exists m, monitors st !! sent.1 = Some m
       /\ command m = cmd /\ correlationData m = uuid
       /\ forall d, timers st !! sent.1 = Some d -> d = sanitise_timeout options.
Proof.
  intros Hc0 sent st.
  assert (consistent sent.2) as Hc1 by (apply consistent_sendCommandAwaitReply, Hc0).
  assert (consistent st) as Hc by (apply consistent_run, Hc1).
  split; [exact Hc|].
  destruct (sendCommandAwaitReply_registers teamId deviceId cmd payload options now uuid st0)
    as (Hm1 & _ & _ & Ht1).
  destruct (evolves_run events _ Hc1 _ _ Hm1) as (m & Hm & Hcmd & Hcd & _ & Ht).
  exists m. split; [exact Hm|]. split; [exact Hcmd|]. split; [exact Hcd|].
  intros d Hd. apply Ht in Hd. unfold sent in Hd. congruence.
Qed.

(** A monitor that is still registered after a run is not settled. *)
Lemma in_flight_after_run st0 teamId deviceId cmd payload options now uuid events :
  consistent st0 ->
  let sent := sendCommandAwaitReply teamId deviceId cmd payload options now uuid st0 in
  let st := run events sent.2 in
  consistent st
  /\ forall k, inFlightCommands st !! k = Some sent.1 ->
       k = uuid
       /\ exists m, monitors st !! sent.1 = Some m
            /\ command m = cmd /\ correlationData m = uuid
            /\ resolved m = false /\ rejected m = false
            /\ promises st !! sent.1 = Some Pending.
Proof.
  intros Hc0 sent st.
  destruct (monitor_after_run st0 teamId deviceId cmd payload options now uuid events Hc0)
    as (Hc & m' & Hm' & Hcmd & Hcd & _).
  fold sent st in Hc, Hm'.
  split; [exact Hc|]. intros k Hin.
  destruct (in_flight_fresh _ Hc _ _ Hin) as (m & Hm & Hk & Hr & Hj).
  assert (m' = m) as -> by congruence.
  split; [congruence|].
  exists m. repeat split; auto.
  eapply flags_agree_pending; eauto. apply (flags_promise _ Hc), Hm.
Qed.

(** When the timer of a monitor that is not settled fires, the promise
    is rejected with the timeout error and the monitor is unregistered. *)
Lemma timer_fire_unsettled a m st :
  consistent st -> monitors st !! a = Some m ->
  resolved m = false -> rejected m = false ->
  let st' := timer_fire a st in
  consistent st'
  /\ promises st' !! a = Some (Rejected "Command timed out")
  /\ monitors st' !! a = Some (set_rejected m)
  /\ timers st' !! a = None
  /\ inFlightCommands st' !! correlationData m = None.
Proof.
  intros Hc Hm Hr Hj st'.
  destruct (unsettled_timer _ Hc _ _ Hm Hr Hj) as [d Ht].
  split; [apply consistent_timer_fire, Hc|].
  subst st'. rewrite (timer_fire_rejects a d m) by assumption.
  unfold monitor_reject. rewrite Hm. simpl.
  rewrite lookup_alter_eq, (flags_agree_pending m _ (flags_promise _ Hc _ _ Hm) Hr Hj).
  rewrite !lookup_insert_eq, !lookup_delete_eq. auto.
Qed.

(** C1 (as amended).  After a [sendCommandAwaitReply] call and any
    further events that leave its monitor registered, a device-response
    event that passes the handler's validity checks (its id is truthy
    and resolves to a known device; the command, correlationData and
    payload of its parsed message are truthy) and carries the token and
    the command name of the monitor resolves the promise of the call
    with the message's payload and removes the monitor from the
    in-flight mapping; a later response with the same token finds no
    monitor and is dropped, leaving the state, and so the promise, as
    they are. *)
Theorem reply_resolves_and_unregisters
    st0 teamId deviceId cmd payload options now uuid events
    app response id device text message reply_payload :
  reachable st0 ->
  let sent := sendCommandAwaitReply teamId deviceId cmd payload options now uuid st0 in
  let st := run events sent.2 in
  inFlightCommands st !! uuid = Some sent.1 ->
  get_prop response "id" = Ok id -> truthy id = true ->
  Device_byId app id = Some device ->
  get_prop response "message" = Ok (VStr text) ->
  JSON_parse app text = Some message ->
  get_prop message "command" = Ok (VStr cmd) -> truthy (VStr cmd) = true ->
  get_prop message "correlationData" = Ok (VStr uuid) -> truthy (VStr uuid) = true ->
  get_prop message "payload" = Ok reply_payload -> truthy reply_payload = true ->
  exists st',
    handleCommandResponse app response st = Ok st'
    /\ promises st' !! sent.1 = Some (Fulfilled reply_payload)
    /\ (exists m, monitors st' !! sent.1 = Some m /\ resolved m = true /\ rejected m = false)
    /\ inFlightCommands st' !! uuid = None
    /\ (forall k, inFlightCommands st' !! k <> Some sent.1)
    /\ forall app' response' text' message',
         get_prop response' "message" = Ok (VStr text') ->
         JSON_parse app' text' = Some message' ->
         get_prop message' "correlationData" = Ok (VStr uuid) ->
         handleCommandResponse app' response' st' = Ok st'.
Proof.
  intros Hreach sent st Hin Hid Htid Hdev Hmsg Hparse Hc Htc Hcd Htcd Hp Htp.
  destruct (in_flight_after_run st0 teamId deviceId cmd payload options now uuid events
              (consistent_reachable _ Hreach)) as [Hcons Hflight].
  fold sent st in Hcons, Hflight.
  destruct (Hflight _ Hin) as (_ & m & Hm & Hcmd & Hk & Hr & Hj & Hpend).
  clearbody st sent. clear Hflight.
  destruct (handleCommandResponse_resolve app response st id device text message cmd uuid
              reply_payload sent.1 m) as [rcd Hrun]; auto.
  eexists. split; [exact Hrun|].
  assert (consistent (with_inFlightCommands (delete rcd)
                        (monitor_resolve sent.1 reply_payload st))) as Hcons'.
  { eapply consistent_handleCommandResponse; eauto. }
  assert (monitors (with_inFlightCommands (delete rcd)
                      (monitor_resolve sent.1 reply_payload st)) !! sent.1
          = Some (set_resolved m)) as Hm'.
  { unfold monitor_resolve. rewrite Hm. simpl. apply lookup_insert_eq. }
  assert (forall k, inFlightCommands (with_inFlightCommands (delete rcd)
                      (monitor_resolve sent.1 reply_payload st)) !! k <> Some sent.1) as Hgone.
  { intros k Hk'. destruct (in_flight_fresh _ Hcons' _ _ Hk') as (m0 & Hm0 & _ & Hr0 & _).
    rewrite Hm' in Hm0. injection Hm0 as <-. discriminate. }
  split; [|split; [|split; [|split]]].
  - unfold monitor_resolve. rewrite Hm. simpl.
    rewrite lookup_alter_eq, Hpend. reflexivity.
  - exists (set_resolved m). simpl. auto.
  - unfold monitor_resolve. rewrite Hm. simpl. rewrite Hk.
    rewrite lookup_delete. case_decide; [reflexivity|]. apply lookup_delete_eq.
  - exact Hgone.
  - intros app' response' text' message' Hmsg' Hparse' Hcd'.
    eapply handleCommandResponse_absent; eauto.
    unfold monitor_resolve. rewrite Hm. simpl. rewrite Hk.
    rewrite lookup_delete. case_decide; [reflexivity|]. apply lookup_delete_eq.
Qed.

(** C1, as stated, fails: a reply that carries the token and the command
    name of the registered monitor is dropped, and the promise stays
    pending, when the id of the event resolves to no device (first
    part), and when the payload of the message is [false] (second
    part). *)
Lemma matching_reply_not_resolved :
  let sent := sendCommandAwaitReply "team1" "dev9" "startEditor"
                (VObj [("token", VStr "s3cr3t")]) None 1000 "c0ffee" init in
  let message := reply "startEditor" "c0ffee" (VBool true) in
  let response := response_event "dev9" message in
  let sent' := sendCommandAwaitReply "team1" "dev1" "startEditor"
                 (VObj [("token", VStr "s3cr3t")]) None 1000 "c0ffee" init in
  let message' := reply "startEditor" "c0ffee" (VBool false) in
  let response' := response_event "dev1" message' in
  (get_prop response "message" = Ok (VStr (Json.stringify message))
   /\ Json.parse (Json.stringify message) = Some message
   /\ get_prop message "correlationData" = Ok (VStr "c0ffee")
   /\ get_prop message "command" = Ok (VStr "startEditor")
   /\ inFlightCommands sent.2 !! "c0ffee" = Some sent.1
   /\ Device_byId sample_app (VStr "dev9") = None
   /\ handleCommandResponse sample_app response sent.2 = Ok sent.2
   /\ promises sent.2 !! sent.1 = Some Pending)
  /\
  (get_prop response' "message" = Ok (VStr (Json.stringify message'))
   /\ Json.parse (Json.stringify message') = Some message'
   /\ get_prop message' "correlationData" = Ok (VStr "c0ffee")
   /\ get_prop message' "command" = Ok (VStr "startEditor")
   /\ inFlightCommands sent'.2 !! "c0ffee" = Some sent'.1
   /\ Device_byId sample_app (VStr "dev1") = Some sample_device
   /\ handleCommandResponse sample_app response' sent'.2 = Ok sent'.2
   /\ promises sent'.2 !! sent'.1 = Some Pending).
Proof. vm_compute. repeat split; reflexivity. Qed.

Lemma reply_resolves_and_unregisters_witness :
  let sent := sendCommandAwaitReply "team1" "dev1" "startEditor"
                (VObj [("token", VStr "s3cr3t")]) None 1000 "c0ffee" init in
  let st := run [LogsDevice sample_app (log_event "dev1" "started")] sent.2 in
  let response := response_event "dev1" (reply "startEditor" "c0ffee" (VBool true)) in
  exists st',
    handleCommandResponse sample_app response st = Ok st'
    /\ promises st' !! sent.1 = Some (Fulfilled (VBool true))
    /\ (exists m, monitors st' !! sent.1 = Some m /\ resolved m = true /\ rejected m = false)
    /\ inFlightCommands st' !! "c0ffee" = None
    /\ (forall k, inFlightCommands st' !! k <> Some sent.1)
    /\ forall app' response' text' message',
         get_prop response' "message" = Ok (VStr text') ->
         JSON_parse app' text' = Some message' ->
         get_prop message' "correlationData" = Ok (VStr "c0ffee") ->
         handleCommandResponse app' response' st' = Ok st'.
Proof.
  apply (reply_resolves_and_unregisters init "team1" "dev1" "startEditor"
           (VObj [("token", VStr "s3cr3t")]) None 1000 "c0ffee"
           [LogsDevice sample_app (log_event "dev1" "started")]
           sample_app
           (response_event "dev1" (reply "startEditor" "c0ffee" (VBool true)))
           (VStr "dev1") sample_device
           (Json.stringify (reply "startEditor" "c0ffee" (VBool true)))
           (reply "startEditor" "c0ffee" (VBool true)) (VBool true));
    try (vm_compute; reflexivity).
  exists []. reflexivity.
Defined.

(** ** A call that nothing answers *)

(** An event that is neither a response with the token of a monitor nor
    the firing of its timer leaves that monitor as it is. *)
Lemma leaves_pending_step st e x m :
  consistent st ->
  monitors st !! x = Some m ->
  leaves_pending x (correlationData m) e ->
  monitors (step st e) !! x = Some m.
Proof.
  intros Hc Hm Hquiet. event_cases e; simpl in *; try exact Hm.
  - rewrite lookup_insert_ne; [exact Hm|].
    pose proof (fresh_monitor st). congruence.
  - destruct (handleCommandResponse_outcome app response st)
      as [e | | text message cd c0 payload a0 m0 rcd Hmsg Hparse Hcd Hcmd Hp Htp Hin Hm0 Heq];
      simpl; try exact Hm.
    destruct (in_flight_fresh _ Hc _ _ Hin) as (m1 & Hm1 & Hk & _).
    assert (a0 <> x) as Hne.
    { intros ->. apply Hquiet. unfold response_token. rewrite Hmsg, Hparse, Hcd.
      congruence. }
    unfold monitor_resolve. rewrite Hm0. simpl.
    rewrite lookup_insert_ne by exact Hne. exact Hm.
  - destruct (handleStatus app status st) as [[st' saved]|] eqn:H; simpl; [|exact Hm].
    apply core_handleStatus in H. injection H as _ -> _ _. exact Hm.
  - destruct (forwardLog app log st) eqn:H; simpl; [|exact Hm].
    apply core_forwardLog in H. injection H as _ -> _ _. exact Hm.
  - destruct (timers st !! a) as [d|] eqn:Ht.
    + destruct (timer_fresh _ Hc _ _ Ht) as (m' & Hm' & Hr & Hj).
      rewrite (timer_fire_rejects a d m') by assumption.
      unfold monitor_reject. rewrite Hm'. simpl.
      rewrite lookup_insert_ne by exact Hquiet. exact Hm.
    + unfold timer_fire. rewrite Ht. exact Hm.
  - destruct (streamLogs t d socket st) eqn:H; simpl; [|exact Hm].
    apply core_streamLogs in H. injection H as _ -> _ _. exact Hm.
  - pose proof (core_socket_close t d socket st) as H. injection H as _ -> _ _. exact Hm.
Qed.

Lemma leaves_pending_run events : forall st a m,
  consistent st ->
  monitors st !! a = Some m ->
  Forall (leaves_pending a (correlationData m)) events ->
  monitors (run events st) !! a = Some m.
Proof.
  induction events as [|e events IH]; intros st a m Hc Hm Hquiet; simpl; [exact Hm|].
  apply Forall_cons in Hquiet as [He Hrest].
  apply IH; [apply consistent_step, Hc | | exact Hrest].
  apply leaves_pending_step; assumption.
Qed.

(** C2.  A [sendCommandAwaitReply] call sets a timer whose delay is
    [options.timeout] when that is a positive number and 5000
    otherwise.  If the events that follow hold no response with the
    token of the call and not the firing of that timer, the promise is
    still pending and the timer still set with that delay; when the
    timer then fires, the promise is rejected with the timeout error and
    the monitor is removed from the in-flight mapping, and a response
    with the token of the call that is handled afterwards finds no
    monitor and is dropped without effect. *)
Theorem timeout_rejects_and_unregisters
    st0 teamId deviceId cmd payload options now uuid events :
  reachable st0 ->
  let sent := sendCommandAwaitReply teamId deviceId cmd payload options now uuid st0 in
  let st := run events sent.2 in
  Forall (leaves_pending sent.1 uuid) events ->
  sanitise_timeout options
    = match options with
      | Some {| timeout := VNum t |} => if (0 <? t)%Z then t else 5000%Z
      | _ => 5000%Z
      end
  /\ timers sent.2 !! sent.1 = Some (sanitise_timeout options)
  /\ promises st !! sent.1 = Some Pending
  /\ timers st !! sent.1 = Some (sanitise_timeout options)
  /\ let st' := timer_fire sent.1 st in
     promises st' !! sent.1 = Some (Rejected "Command timed out")
     /\ (exists m, monitors st' !! sent.1 = Some m /\ rejected m = true /\ resolved m = false)
     /\ timers st' !! sent.1 = None
     /\ inFlightCommands st' !! uuid = None
     /\ (forall k, inFlightCommands st' !! k <> Some sent.1)
     /\ forall app response text message,
          get_prop response "message" = Ok (VStr text) ->
          JSON_parse app text = Some message ->
          get_prop message "correlationData" = Ok (VStr uuid) ->
          handleCommandResponse app response st' = Ok st'.
Proof.
  intros Hreach sent st Hquiet.
  pose proof (consistent_reachable _ Hreach) as Hc0.
  destruct (monitor_after_run st0 teamId deviceId cmd payload options now uuid events Hc0)
    as (Hc & _ & _ & _ & _ & Hdelay).
  destruct (sendCommandAwaitReply_registers teamId deviceId cmd payload options now uuid st0)
    as (Hm0 & _ & _ & Ht0).
  pose proof (leaves_pending_run events sent.2 sent.1 _
                (consistent_sendCommandAwaitReply _ _ _ _ _ _ _ _ Hc0) Hm0 Hquiet) as Hm.
  fold sent st in Hc, Hm, Hdelay, Ht0.
  set (m := newResponseMonitor cmd deviceId teamId (sanitise_timeout options) now uuid) in *.
  clearbody st sent.
  assert (resolved m = false) as Hr by reflexivity.
  assert (rejected m = false) as Hj by reflexivity.
  assert (correlationData m = uuid) as Hcd by reflexivity.
  clearbody m.
  destruct (unsettled_timer _ Hc _ _ Hm Hr Hj) as [d Ht].
  rewrite (Hdelay _ Ht) in Ht.
  split; [reflexivity|]. split; [exact Ht0|].
  split; [exact (flags_agree_pending m _ (flags_promise _ Hc _ _ Hm) Hr Hj)|].
  split; [exact Ht|].
  destruct (timer_fire_unsettled sent.1 m st Hc Hm Hr Hj) as (Hc' & Hp' & Hm' & Ht' & Hin').
  rewrite Hcd in Hin'.
  split; [exact Hp'|]. split; [exists (set_rejected m); auto|].
  split; [exact Ht'|]. split; [exact Hin'|]. split.
  - intros k Hk. destruct (in_flight_fresh _ Hc' _ _ Hk) as (m0 & Hm0' & _ & _ & Hj0).
    rewrite Hm' in Hm0'. injection Hm0' as <-. discriminate.
  - intros app response text message Hmsg Hparse Hcdm.
    eapply handleCommandResponse_absent; eauto.
Qed.

Lemma timeout_rejects_and_unregisters_witness :
  let sent := sendCommandAwaitReply "team1" "dev1" "upload" (VObj [])
                (Some {| timeout := VNum 10000 |}) 1000 "c0ffee" init in
  let events :=
    [StatusDevice sample_app (status_event "dev1" (VObj [("state", VStr "running")]));
     ResponseDevice sample_app
       (response_event "dev1" (reply "upload" "decaf" (VObj [("flows", VArr [])])))] in
  let st := run events sent.2 in
  timers st !! sent.1 = Some 10000%Z
  /\ promises (timer_fire sent.1 st) !! sent.1 = Some (Rejected "Command timed out")
  /\ inFlightCommands (timer_fire sent.1 st) !! "c0ffee" = None.
Proof.
  destruct (timeout_rejects_and_unregisters init "team1" "dev1" "upload" (VObj [])
              (Some {| timeout := VNum 10000 |}) 1000 "c0ffee"
              [StatusDevice sample_app
                 (status_event "dev1" (VObj [("state", VStr "running")]));
               ResponseDevice sample_app
                 (response_event "dev1"
                    (reply "upload" "decaf" (VObj [("flows", VArr [])])))])
    as (_ & _ & _ & Ht & Hp & _ & _ & Hin & _).
  - exists []. reflexivity.
  - repeat constructor. vm_compute. discriminate.
  - split; [exact Ht|]. split; [exact Hp | exact Hin].
Defined.

(** C4.  In every state the handler can reach, no monitor has both its
    resolved and its rejected flag set.  The timer callback does nothing
    when a flag is set and rejects otherwise.  Once a monitor is settled
    (either flag set) its timer is no longer set, it is not in the
    in-flight mapping, and whatever happens afterwards it keeps its
    flags and its promise keeps its outcome: the other path never runs
    for it. *)
Theorem flags_mutually_exclusive st a m :
  reachable st ->
  monitors st !! a = Some m ->
  resolved m && rejected m = false
  /\ (settled m = true -> timer_callback a st = st)
  /\ (settled m = false -> timer_callback a st = monitor_reject a "Command timed out" st)
  /\ (settled m = true ->
        timers st !! a = None
        /\ (forall k, inFlightCommands st !! k <> Some a)
        /\ forall events,
             monitors (run events st) !! a = Some m
             /\ promises (run events st) !! a = promises st !! a).
Proof.
  intros Hreach Hm. pose proof (consistent_reachable _ Hreach) as Hc.
  split; [|split; [|split]].
  - pose proof (flags_promise _ Hc _ _ Hm) as Hflags.
    destruct (promises st !! a) as [[| |]|]; simpl in Hflags;
      try contradiction; destruct Hflags as [-> ->]; reflexivity.
  - unfold settled, timer_callback. rewrite Hm.
    destruct (resolved m); [reflexivity|]. destruct (rejected m); [reflexivity|].
    discriminate.
  - unfold settled, timer_callback. rewrite Hm.
    destruct (resolved m); [discriminate|]. destruct (rejected m); [discriminate|].
    reflexivity.
  - intros Hs. split; [|split].
    + destruct (timers st !! a) as [d|] eqn:Ht; [|reflexivity].
      destruct (timer_fresh _ Hc _ _ Ht) as (m0 & Hm0 & Hr & Hj).
      assert (m0 = m) as -> by congruence.
      unfold settled in Hs. rewrite Hr, Hj in Hs. discriminate.
    + intros k Hk. destruct (in_flight_fresh _ Hc _ _ Hk) as (m0 & Hm0 & _ & Hr & Hj).
      assert (m0 = m) as -> by congruence.
      unfold settled in Hs. rewrite Hr, Hj in Hs. discriminate.
    + intros events.
      destruct (evolves_run events _ Hc _ _ Hm) as (m' & Hm' & _ & _ & Hkeep & _).
      destruct (Hkeep Hs) as [-> Hp]. auto.
Qed.

Lemma flags_mutually_exclusive_witness :
  let sent := sendCommandAwaitReply "team1" "dev1" "startEditor"
                (VObj [("token", VStr "s3cr3t")]) None 1000 "c0ffee" init in
  let st := run [ResponseDevice sample_app
                   (response_event "dev1" (reply "startEditor" "c0ffee" (VBool true)))]
                sent.2 in
  exists m,
    monitors st !! sent.1 = Some m
    /\ resolved m = true
    /\ resolved m && rejected m = false
    /\ monitors (run [TimerFires sent.1] st) !! sent.1 = Some m.
Proof.
  intros sent st.
  assert (reachable st) as Hreach.
  { exists [SendCommandAwaitReply "team1" "dev1" "startEditor"
              (VObj [("token", VStr "s3cr3t")]) None 1000 "c0ffee";
            ResponseDevice sample_app
              (response_event "dev1" (reply "startEditor" "c0ffee" (VBool true)))].
    reflexivity. }
  eexists. split; [vm_compute; reflexivity|].
  split; [reflexivity|].
  eassert (monitors st !! sent.1 = Some _) as Hm by (vm_compute; reflexivity).
  destruct (flags_mutually_exclusive st sent.1 _ Hreach Hm) as (Hex & _ & _ & Hafter).
  split; [exact Hex|].
  destruct (Hafter eq_refl) as (_ & _ & Hrun).
  exact (proj1 (Hrun [TimerFires sent.1])).
Defined.

(** A reply whose payload is falsy is dropped, whatever else it holds. *)
Lemma handleCommandResponse_falsy_payload app response st text message payload :
  get_prop response "message" = Ok (VStr text) ->
  JSON_parse app text = Some message ->
  get_prop message "payload" = Ok payload ->
  truthy payload = false ->
  handleCommandResponse app response st = Ok st.
Proof.
  intros Hmsg Hparse Hp Htp.
  unfold handleCommandResponse, JSON_parse_value.
  destruct (get_prop response "id") as [id|] eqn:Hid;
    [|destruct response; discriminate].
  simpl. destruct (truthy id); simpl; [|reflexivity].
  rewrite Hmsg. simpl. change (to_str (VStr text)) with text. rewrite Hparse. simpl.
  destruct (get_prop message "command") as [c|] eqn:Hc;
    [|destruct message; discriminate].
  simpl. destruct (truthy c); simpl; [|reflexivity].
  destruct (get_prop message "correlationData") as [cd|] eqn:Hcd;
    [|destruct message; discriminate].
  simpl. destruct (truthy cd); simpl; [|reflexivity].
  rewrite Hp. simpl. rewrite Htp. reflexivity.
Qed.

(** C10.  [false], [0], the empty string and [null] are falsy.  A
    device-response event whose message parses, carries the token and
    the command name of a registered monitor, and has a falsy payload is
    dropped: the state is unchanged, so the monitor stays registered,
    its promise stays pending and its timer stays set; the call then
    ends by the timer firing, with the timeout error. *)
Theorem falsy_payload_reply_dropped
    st0 teamId deviceId cmd payload options now uuid events
    app response text message reply_payload :
  reachable st0 ->
  let sent := sendCommandAwaitReply teamId deviceId cmd payload options now uuid st0 in
  let st := run events sent.2 in
  inFlightCommands st !! uuid = Some sent.1 ->
  get_prop response "message" = Ok (VStr text) ->
  JSON_parse app text = Some message ->
  get_prop message "correlationData" = Ok (VStr uuid) ->
  get_prop message "command" = Ok (VStr cmd) ->
  get_prop message "payload" = Ok reply_payload ->
  truthy reply_payload = false ->
  Forall (fun v => truthy v = false) [VBool false; VNum 0; VStr ""; VNull]
  /\ handleCommandResponse app response st = Ok st
  /\ promises st !! sent.1 = Some Pending
  /\ timers st !! sent.1 = Some (sanitise_timeout options)
  /\ promises (timer_fire sent.1 st) !! sent.1 = Some (Rejected "Command timed out").
Proof.
  intros Hreach sent st Hin Hmsg Hparse Hcd Hc Hp Htp.
  split; [repeat constructor|].
  split; [eapply handleCommandResponse_falsy_payload; eauto|].
  destruct (in_flight_after_run st0 teamId deviceId cmd payload options now uuid events
              (consistent_reachable _ Hreach)) as [Hcons Hflight].
  destruct (monitor_after_run st0 teamId deviceId cmd payload options now uuid events
              (consistent_reachable _ Hreach)) as (_ & _ & _ & _ & _ & Hdelay).
  fold sent st in Hcons, Hflight, Hdelay.
  destruct (Hflight _ Hin) as (_ & m & Hm & _ & _ & Hr & Hj & Hpend).
  clearbody st sent. clear Hflight.
  destruct (unsettled_timer _ Hcons _ _ Hm Hr Hj) as [d Ht].
  rewrite (Hdelay _ Ht) in Ht.
  split; [exact Hpend|]. split; [exact Ht|].
  apply (timer_fire_unsettled sent.1 m st Hcons Hm Hr Hj).
Qed.

Lemma falsy_payload_reply_dropped_witness :
  let sent := sendCommandAwaitReply "team1" "dev1" "startEditor"
                (VObj [("token", VStr "s3cr3t")]) None 1000 "c0ffee" init in
  let response := response_event "dev1" (reply "startEditor" "c0ffee" (VBool false)) in
  handleCommandResponse sample_app response sent.2 = Ok sent.2
  /\ promises sent.2 !! sent.1 = Some Pending
  /\ promises (timer_fire sent.1 sent.2) !! sent.1 = Some (Rejected "Command timed out").
Proof.
  destruct (falsy_payload_reply_dropped init "team1" "dev1" "startEditor"
              (VObj [("token", VStr "s3cr3t")]) None 1000 "c0ffee" []
              sample_app
              (response_event "dev1" (reply "startEditor" "c0ffee" (VBool false)))
              (Json.stringify (reply "startEditor" "c0ffee" (VBool false)))
              (reply "startEditor" "c0ffee" (VBool false)) (VBool false))
    as (_ & Hrun & Hpend & _ & Hfire); try (vm_compute; reflexivity).
  - exists []. reflexivity.
  - split; [exact Hrun|]. split; [exact Hpend | exact Hfire].
Defined.

(** When the text of the message is not JSON, the handler throws. *)
Lemma handleCommandResponse_unparsable app response st id text :
  get_prop response "id" = Ok id -> truthy id = true ->
  get_prop response "message" = Ok (VStr text) ->
  JSON_parse app text = None ->
  handleCommandResponse app response st = Throw SyntaxError.
Proof.
  intros Hid Htid Hmsg Hparse. unfold handleCommandResponse, JSON_parse_value.
  rewrite Hid. simpl. rewrite Htid. simpl. rewrite Hmsg. simpl.
  change (to_str (VStr text)) with text. rewrite Hparse. reflexivity.
Qed.

(** A message that parses to an object without one of [command],
    [correlationData], [payload] is dropped. *)
Lemma handleCommandResponse_missing_field app response st text props :
  get_prop response "message" = Ok (VStr text) ->
  JSON_parse app text = Some (VObj props) ->
  assoc "command" props = None \/ assoc "correlationData" props = None
    \/ assoc "payload" props = None ->
  handleCommandResponse app response st = Ok st.
Proof.
  intros Hmsg Hparse Hmissing. unfold handleCommandResponse, JSON_parse_value.
  destruct (get_prop response "id") as [id|] eqn:Hid;
    [|destruct response; discriminate].
  simpl. destruct (truthy id); simpl; [|reflexivity].
  rewrite Hmsg. simpl. change (to_str (VStr text)) with text. rewrite Hparse. simpl.
  destruct (assoc "command" props) as [c|] eqn:Hc; simpl; [|reflexivity].
  destruct (truthy c); simpl; [|reflexivity].
  destruct (assoc "correlationData" props) as [cd|] eqn:Hcd; simpl; [|reflexivity].
  destruct (truthy cd); simpl; [|reflexivity].
  destruct (assoc "payload" props) as [p|] eqn:Hp; simpl; [|reflexivity].
  destruct Hmissing as [?|[?|?]]; discriminate.
Qed.

(** C3, at the inputs where the code departs from it.  A device-response
    event whose message is not JSON makes [handleCommandResponse] throw
    a SyntaxError, and one whose message is the JSON text [null] makes
    it throw a TypeError: the error leaves the handler.  The in-flight
    state is not touched (the run ends before it is read), and a message
    that parses to an object without a payload is dropped silently.  The
    sibling handler [handleStatus] catches the same parse failure. *)
Theorem unparsable_response_throws :
  let sent := sendCommandAwaitReply "team1" "dev1" "startEditor"
                (VObj [("token", VStr "s3cr3t")]) None 1000 "c0ffee" init in
  handleCommandResponse sample_app
    (VObj [("id", VStr "dev1"); ("message", VStr "not json")]) sent.2
  = Throw SyntaxError
  /\ handleCommandResponse sample_app
       (VObj [("id", VStr "dev1"); ("message", VStr "null")]) sent.2
     = Throw TypeError
  /\ handleCommandResponse sample_app
       (response_event "dev1"
          (VObj [("command", VStr "startEditor"); ("correlationData", VStr "c0ffee")]))
       sent.2
     = Ok sent.2
  /\ handleStatus sample_app
       (VObj [("id", VStr "dev1"); ("status", VStr "not json")]) sent.2
     = Ok (sent.2, None).
Proof. vm_compute. repeat split; reflexivity. Qed.

(** ** The log relay *)

Lemma cache_push_length log c :
  (List.length c <= 10)%nat -> (List.length (cache_push log c) <= 10)%nat.
Proof.
  intros Hc. unfold cache_push.
  destruct (10 <? List.length (c ++ [log]))%nat eqn:Hlt.
  - destruct c as [|x c]; simpl in *; [lia|]. rewrite length_app. simpl. lia.
  - apply Nat.ltb_ge in Hlt. exact Hlt.
Qed.

Lemma get_prop_nullish v k x : get_prop v k = Ok x -> nullish v = false.
Proof. destruct v; simpl; intros H; try reflexivity; discriminate. Qed.

Lemma get_prop_total v k : nullish v = false -> exists x, get_prop v k = Ok x.
Proof. destruct v; simpl; intros H; try discriminate; eauto. Qed.

Lemma cache_push_nullish log c :
  nullish log = false ->
  Forall (fun entry => nullish entry = false) c ->
  Forall (fun entry => nullish entry = false) (cache_push log c).
Proof.
  intros Hlog Hc. unfold cache_push. cbv zeta.
  assert (Forall (fun entry => nullish entry = false) (c ++ [log])) as Hall
    by (apply Forall_app; split; [exact Hc | repeat constructor; exact Hlog]).
  destruct (10 <? _)%nat; [|exact Hall].
  destruct (c ++ [log])%list; [exact Hall|]. simpl.
  apply Forall_cons in Hall as [_ Hall]. exact Hall.
Qed.

(** Pushing with the cache full drops the oldest entry; otherwise
    nothing is dropped. *)
Lemma cache_push_drop log c :
  (List.length c <= 10)%nat ->
  cache_push log c = drop (List.length (c ++ [log]) - 10) (c ++ [log]).
Proof.
  intros Hc. unfold cache_push. cbv zeta. rewrite length_app. simpl.
  destruct (10 <? List.length c + 1)%nat eqn:Hlt.
  - apply Nat.ltb_lt in Hlt. replace (List.length c + 1 - 10)%nat with 1%nat by lia.
    destruct (c ++ [log])%list; reflexivity.
  - apply Nat.ltb_ge in Hlt. replace (List.length c + 1 - 10)%nat with 0%nat by lia.
    reflexivity.
Qed.

Lemma foldl_cache_push logs : forall c,
  (List.length c <= 10)%nat ->
  foldl (fun c log => cache_push log c) c logs
  = drop (List.length (c ++ logs) - 10) (c ++ logs).
Proof.
  induction logs as [|log logs IH]; intros c Hc; simpl.
  - rewrite app_nil_r. replace (List.length c - 10)%nat with 0%nat by lia. reflexivity.
  - rewrite IH by (apply cache_push_length, Hc).
    rewrite cache_push_drop by exact Hc.
    rewrite length_app, length_drop, !length_app. simpl.
    replace (c ++ log :: logs)%list with ((c ++ [log]) ++ logs)%list
      by (rewrite <- app_assoc; reflexivity).
    assert (List.length c + 1 - 10 <= List.length (c ++ [log]))%nat as Hle
      by (rewrite length_app; simpl; lia).
    rewrite <- (drop_app_le (c ++ [log]) logs _ Hle), drop_drop.
    f_equal. rewrite ?length_app. simpl. lia.
Qed.

Lemma logs_monitor_resolve a payload st :
  deviceLogClients (monitor_resolve a payload st) = deviceLogClients st.
Proof. unfold monitor_resolve. destruct (monitors st !! a); reflexivity. Qed.

Lemma logs_timer_fire a st : deviceLogClients (timer_fire a st) = deviceLogClients st.
Proof.
  unfold timer_fire, timer_callback, monitor_reject.
  destruct (timers st !! a); [|reflexivity]. simpl.
  destruct (monitors st !! a) as [m|]; [|reflexivity].
  destruct (resolved m); [reflexivity|]. destruct (rejected m); reflexivity.
Qed.

Lemma logs_handleCommandResponse app response st st' :
  handleCommandResponse app response st = Ok st' ->
  deviceLogClients st' = deviceLogClients st.
Proof.
  intros Hrun.
  destruct (handleCommandResponse_outcome app response st)
    as [e | | text message cd c payload a m rcd Hmsg Hparse Hcd Hcmd Hp Htp Hin Hm Heq];
    try discriminate;
    injection Hrun as <-; [reflexivity|].
  simpl. apply logs_monitor_resolve.
Qed.

Lemma logs_sendDeviceUpdateCommand app device st :
  deviceLogClients (sendDeviceUpdateCommand app device st) = deviceLogClients st.
Proof. unfold sendDeviceUpdateCommand. destruct (comms app); reflexivity. Qed.

Lemma logs_handleStatus app status st st' saved :
  handleStatus app status st = Ok (st', saved) ->
  deviceLogClients st' = deviceLogClients st.
Proof.
  unfold handleStatus.
  destruct (get_prop status "id") as [id|]; simpl; [|discriminate].
  destruct (truthy id); simpl; [|intros [= <- _]; reflexivity].
  destruct (get_prop status "status") as [text|]; simpl; [|discriminate].
  destruct (truthy text); simpl; [|intros [= <- _]; reflexivity].
  destruct (Device_byId app id) as [device|]; [|intros [= <- _]; reflexivity].
  destruct (handleStatus_try app device text st) as [[st1 d1]|] eqn:Htry;
    [|intros [= <- _]; reflexivity].
  intros [= <- _]. revert Htry. unfold handleStatus_try.
  destruct (JSON_parse_value app text) as [payload|]; simpl; [|discriminate].
  destruct (updateState app device payload) as [device'|]; simpl; [|discriminate].
  destruct (get_prop payload "state") as [s|]; simpl; [|discriminate].
  destruct (differs payload "project" _) as [p|]; simpl; [|discriminate].
  destruct (differs payload "snapshot" _) as [n|]; simpl; [|discriminate].
  destruct (differs payload "settings" _) as [g|]; simpl; [|discriminate].
  destruct (if g then true else _); intros [= <- _];
    [apply logs_sendDeviceUpdateCommand | reflexivity].
Qed.

Lemma logs_replay socket entries : forall st st',
  replay socket entries st = Ok st' -> deviceLogClients st' = deviceLogClients st.
Proof.
  induction entries as [|entry rest IH]; intros st st'; simpl.
  - intros [= <-]. reflexivity.
  - destruct (get_prop entry "logs") as [logs|]; simpl; [|discriminate].
    intros H. apply IH in H. exact H.
Qed.

Lemma logs_foldl_send (logs : value) (l : list nat) : forall st,
  deviceLogClients (foldl (fun st s => socket_send s logs st) st l) = deviceLogClients st.
Proof.
  induction l as [|s l IH]; intros st; simpl; [reflexivity|].
  rewrite IH. reflexivity.
Qed.

(** What [forwardLog] does to the session of the device the entry is
    for. *)
Lemma forwardLog_session app log st id info :
  get_prop log "id" = Ok id ->
  deviceLogClients st !! to_str id = Some info ->
  exists st', forwardLog app log st = Ok st'
    /\ deviceLogClients st'
       = <[to_str id := {| cache := cache_push log (cache info); sockets := sockets info |}]>
           (deviceLogClients st).
Proof.
  intros Hid Hinfo. unfold forwardLog. rewrite Hid. simpl. rewrite Hinfo.
  destruct (get_prop log "logs") as [logs|] eqn:Hlogs; [|destruct log; discriminate].
  simpl. eexists. split; [reflexivity|]. rewrite logs_foldl_send. reflexivity.
Qed.

Lemma caches_bounded_step st e : caches_bounded st -> caches_bounded (step st e).
Proof.
  intros Hb.
  event_cases e; simpl; try exact Hb.
  - destruct (handleCommandResponse app response st) eqn:H; simpl; [|exact Hb].
    unfold caches_bounded. rewrite (logs_handleCommandResponse _ _ _ _ H). exact Hb.
  - destruct (handleStatus app status st) as [[st' saved]|] eqn:H; simpl; [|exact Hb].
    unfold caches_bounded. rewrite (logs_handleStatus _ _ _ _ _ H). exact Hb.
  - destruct (forwardLog app log st) as [st'|] eqn:H; simpl; [|exact Hb].
    revert H. unfold forwardLog.
    destruct (get_prop log "id") as [id|] eqn:Hid; simpl; [|discriminate].
    destruct (deviceLogClients st !! to_str id) as [info|] eqn:Hinfo.
    + destruct (get_prop log "logs") as [logs|]; simpl; [|discriminate].
      intros [= <-]. unfold caches_bounded. rewrite logs_foldl_send. simpl.
      intros k info'. rewrite lookup_insert. case_decide.
      * intros [= <-]. simpl. destruct (Hb _ _ Hinfo) as [Hlen Hall]. split.
        -- apply cache_push_length, Hlen.
        -- apply cache_push_nullish; [eapply get_prop_nullish; eauto | exact Hall].
      * apply Hb.
    + destruct (Device_byId app id); intros [= <-]; exact Hb.
  - unfold caches_bounded. rewrite logs_timer_fire. exact Hb.
  - destruct (streamLogs t d socket st) as [st'|] eqn:H; simpl; [|exact Hb].
    unfold streamLogs in H. apply logs_replay in H.
    unfold caches_bounded. rewrite H. simpl.
    intros k info. rewrite lookup_alter. case_decide as Hk.
    + subst k. destruct (deviceLogClients st !! d) as [info0|] eqn:Hd; simpl.
      * rewrite Hd. simpl. intros [= <-]. simpl. eapply Hb; eauto.
      * rewrite lookup_insert_eq. simpl. intros [= <-]. simpl. split; [lia|constructor].
    + destruct (deviceLogClients st !! d) as [info0|] eqn:Hd; simpl; [apply Hb|].
      rewrite lookup_insert_ne by congruence. apply Hb.
  - unfold socket_close.
    destruct (deviceLogClients st !! d) as [info|] eqn:Hd; [|exact Hb].
    destruct (_ =? _)%nat; unfold caches_bounded; simpl; intros k info'.
    + rewrite lookup_delete. case_decide; [discriminate|]. apply Hb.
    + rewrite lookup_insert. case_decide.
      * intros [= <-]. simpl. eapply Hb; eauto.
      * apply Hb.
Qed.

Lemma caches_bounded_reachable st : reachable st -> caches_bounded st.
Proof.
  intros [events ->].
  assert (forall st, caches_bounded st -> caches_bounded (run events st)) as Hrun.
  { induction events as [|e events IH]; intros st Hb; simpl; [exact Hb|].
    apply IH, caches_bounded_step, Hb. }
  apply Hrun. intros k info. simpl. rewrite lookup_empty. discriminate.
Qed.

(** The replay loop reads [logs] of the cached entries; none of them is
    [null], so it does not throw, and [streamLogs] returns. *)
Lemma replay_returns socket entries : forall st,
  Forall (fun entry => nullish entry = false) entries ->
  exists st', replay socket entries st = Ok st'.
Proof.
  induction entries as [|entry rest IH]; intros st Hall; simpl; [eauto|].
  apply Forall_cons in Hall as [Hentry Hrest].
  destruct (get_prop_total entry "logs" Hentry) as [logs ->]. simpl.
  apply IH, Hrest.
Qed.

Lemma streamLogs_returns teamId deviceId socket st :
  reachable st -> exists st', streamLogs teamId deviceId socket st = Ok st'.
Proof.
  intros Hreach. pose proof (caches_bounded_reachable _ Hreach) as Hb.
  unfold streamLogs. apply replay_returns.
  destruct (deviceLogClients st !! deviceId) as [info|] eqn:Hd; simpl.
  - rewrite lookup_alter_eq, Hd. simpl. eapply Hb; eauto.
  - rewrite lookup_alter_eq, lookup_insert_eq. simpl. constructor.
Qed.

(** A run of log events for one device, on its session. *)
Lemma forwardLog_run app d logs : forall st info,
  deviceLogClients st !! d = Some info ->
  Forall (fun log => exists id, get_prop log "id" = Ok id /\ to_str id = d) logs ->
  deviceLogClients (run (map (LogsDevice app) logs) st) !! d
  = Some {| cache := foldl (fun c log => cache_push log c) (cache info) logs;
            sockets := sockets info |}.
Proof.
  induction logs as [|log logs IH]; intros st info Hinfo Hlogs; simpl.
  - rewrite Hinfo. destruct info; reflexivity.
  - apply Forall_cons in Hlogs as [(id & Hid & Hd) Hrest].
    assert (deviceLogClients st !! to_str id = Some info) as Hinfo' by (rewrite Hd; exact Hinfo).
    destruct (forwardLog_session app log st id info Hid Hinfo') as (st' & Hrun & Hst').
    rewrite Hrun. simpl.
    rewrite (IH st' {| cache := cache_push log (cache info); sockets := sockets info |});
      [reflexivity| |exact Hrest].
    rewrite Hst', Hd. apply lookup_insert_eq.
Qed.

(** C7.  In every state the handler can reach, the cache of a log
    session holds at most 10 entries.  After further log events for the
    device of the session, the cache is the last 10 of the old entries
    followed by the new ones, in arrival order (the oldest are evicted
    first), and the viewers are as before.  In particular, after 11 log
    events on an empty cache the cache holds the 2nd to the 11th event,
    the 2nd being the oldest. *)
Theorem log_cache_bounded_fifo app st d info logs :
  reachable st ->
  deviceLogClients st !! d = Some info ->
  Forall (fun log => exists id, get_prop log "id" = Ok id /\ to_str id = d) logs ->
  (List.length (cache info) <= 10)%nat
  /\ exists info',
       deviceLogClients (run (map (LogsDevice app) logs) st) !! d = Some info'
       /\ cache info'
          = drop (List.length (cache info ++ logs) - 10) (cache info ++ logs)
       /\ (List.length (cache info') <= 10)%nat
       /\ sockets info' = sockets info
       /\ forall l0 l1 l2 l3 l4 l5 l6 l7 l8 l9 l10,
            cache info = [] ->
            logs = [l0; l1; l2; l3; l4; l5; l6; l7; l8; l9; l10] ->
            cache info' = [l1; l2; l3; l4; l5; l6; l7; l8; l9; l10]
            /\ head (cache info') = Some l1.
Proof.
  intros Hreach Hinfo Hlogs.
  pose proof (proj1 (caches_bounded_reachable _ Hreach _ _ Hinfo)) as Hlen.
  split; [exact Hlen|].
  eexists. split; [apply forwardLog_run; eauto|]. simpl.
  rewrite foldl_cache_push by exact Hlen.
  split; [reflexivity|]. split; [rewrite length_drop; lia|]. split; [reflexivity|].
  intros l0 l1 l2 l3 l4 l5 l6 l7 l8 l9 l10 -> ->. simpl. auto.
Qed.

Lemma log_cache_bounded_fifo_witness :
  let st := run [StreamLogs "team1" "dev1" 1] init in
  let line n := log_event "dev1" ("line " ++ pretty n) in
  let logs := map line (seq 0 11) in
  exists info',
    deviceLogClients (run (map (LogsDevice sample_app) logs) st) !! "dev1" = Some info'
    /\ cache info' = map line (seq 1 10)
    /\ head (cache info') = Some (line 1%nat).
Proof.
  intros st line logs.
  assert (reachable st) as Hreach by (exists [StreamLogs "team1" "dev1" 1]; reflexivity).
  eassert (deviceLogClients st !! "dev1" = Some _) as Hinfo by (vm_compute; reflexivity).
  destruct (log_cache_bounded_fifo sample_app st "dev1" _ logs Hreach Hinfo)
    as (_ & info' & Hrun & _ & _ & _ & Hfifo).
  - repeat constructor; eexists; (split; [reflexivity|]); reflexivity.
  - exists info'. split; [exact Hrun|].
    apply (Hfifo (line 0%nat) (line 1%nat) (line 2%nat) (line 3%nat) (line 4%nat)
             (line 5%nat) (line 6%nat) (line 7%nat) (line 8%nat) (line 9%nat)
             (line 10%nat)); reflexivity.
Defined.

(** ** The status reconciler *)

(** [updateState] changes nothing but the reported state, the agent
    version, the last-seen time and the active snapshot. *)
Lemma updateState_frame app device payload device' :
  updateState app device payload = Ok device' ->
  hashid device' = hashid device
  /\ Team_hashid device' = Team_hashid device
  /\ Project_id device' = Project_id device
  /\ targetSnapshot_hashid device' = targetSnapshot_hashid device
  /\ settingsHash device' = settingsHash device
  /\ mode device' = mode device.
Proof.
  unfold updateState.
  destruct (get_prop payload "state") as [s|]; simpl; [|discriminate].
  destruct (get_prop payload "agentVersion") as [v|]; simpl; [|discriminate].
  destruct (get_prop payload "snapshot") as [snapshot|]; simpl; [|discriminate].
  destruct (truthy s), (truthy v), (truthy snapshot); simpl;
    repeat match goal with
           | |- context [if ?b then _ else _] => destruct b
           end;
    intros [= <-]; simpl; auto 10.
Qed.

(** On a payload that is not [null], [updateState] does not throw. *)
Lemma updateState_total app device payload k x :
  get_prop payload k = Ok x ->
  exists device', updateState app device payload = Ok device'.
Proof.
  intros Hk. unfold updateState.
  destruct payload; try discriminate; simpl;
    repeat match goal with
           | |- context [if ?b then _ else _] => destruct b
           end; eauto.
Qed.

(** C9.  When the status payload carries a snapshot reference (a truthy
    [snapshot]) that decodes to no id, or whose snapshot no longer
    exists, [updateState] leaves [activeSnapshotId] as it is, while the
    state and the agent version are set from the payload when it gives
    them and the last-seen time is stamped; nothing else changes. *)
Theorem vanished_snapshot_keeps_active app device payload snapshot :
  get_prop payload "snapshot" = Ok snapshot ->
  truthy snapshot = true ->
  ProjectSnapshot_decodeHashid app snapshot = []
    \/ ProjectSnapshot_byId app snapshot = false ->
  exists s v,
    get_prop payload "state" = Ok s
    /\ get_prop payload "agentVersion" = Ok v
    /\ updateState app device payload
       = Ok {| hashid := hashid device;
               Team_hashid := Team_hashid device;
               Project_id := Project_id device;
               targetSnapshot_hashid := targetSnapshot_hashid device;
               settingsHash := settingsHash device;
               mode := mode device;
               state := if truthy s then s else state device;
               agentVersion := if truthy v then v else agentVersion device;
               lastSeenAt := CURRENT_TIMESTAMP;
               activeSnapshotId := activeSnapshotId device;
               currentSnapshot := currentSnapshot device |}.
Proof.
  intros Hsnap Htruthy Hgone.
  destruct (get_prop payload "state") as [s|] eqn:Hs; [|destruct payload; discriminate].
  destruct (get_prop payload "agentVersion") as [v|] eqn:Hv;
    [|destruct payload; discriminate].
  exists s, v. split; [reflexivity|]. split; [reflexivity|].
  unfold updateState. rewrite Hs. simpl. rewrite Hv. simpl. rewrite Hsnap. simpl.
  rewrite Htruthy. simpl.
  assert ((if (0 <? List.length (ProjectSnapshot_decodeHashid app snapshot))%nat
           then ProjectSnapshot_byId app snapshot else false) = false) as Hno.
  { destruct Hgone as [-> | ->]; [reflexivity|]. destruct (_ <? _)%nat; reflexivity. }
  destruct (0 <? List.length (ProjectSnapshot_decodeHashid app snapshot))%nat;
    [rewrite Hno|];
    destruct (truthy s), (truthy v); reflexivity.
Qed.

Lemma vanished_snapshot_keeps_active_witness :
  updateState sample_app sample_device
    (VObj [("state", VStr "stopped"); ("snapshot", VStr "gone")])
  = Ok {| hashid := "dev1"; Team_hashid := "team1"; Project_id := VStr "proj1";
          targetSnapshot_hashid := VStr "snap1"; settingsHash := VStr "5e77";
          mode := VStr "autonomous"; state := VStr "stopped";
          agentVersion := VStr "1.0.0"; lastSeenAt := CURRENT_TIMESTAMP;
          activeSnapshotId := VNum 7; currentSnapshot := VUndefined |}.
Proof.
  destruct (vanished_snapshot_keeps_active sample_app sample_device
              (VObj [("state", VStr "stopped"); ("snapshot", VStr "gone")])
              (VStr "gone")) as (s & v & Hs & Hv & Hrun).
  - reflexivity.
  - reflexivity.
  - left. reflexivity.
  - injection Hs as <-. injection Hv as <-. exact Hrun.
Defined.

(** The message of the "update" command. *)
Lemma update_body app device :
  command_body "update" (update_payload app device)
  = VObj [("command", VStr "update");
          ("project", js_or (Project_id device) VNull);
          ("snapshot", js_or (targetSnapshot_hashid device) VNull);
          ("settings", js_or (settingsHash device) VNull);
          ("mode", mode device);
          ("licensed", VBool (license_active app))].
Proof. reflexivity. Qed.

(** The three drift checks of an object payload do not throw. *)
Lemma differs_total payload k0 x k actual :
  get_prop payload k0 = Ok x -> exists b, differs payload k actual = Ok b.
Proof.
  intros Hk. unfold differs.
  destruct payload; try discriminate; simpl; eauto.
  destruct (bool_decide _); simpl; eauto.
Qed.

(** C8 (as amended).  With [app.comms] set, a status event whose id is
    that of a known device and whose status parses to a payload with
    state "unknown" makes [handleStatus] publish exactly one message: the
    "update" command on the command topic of the device, carrying the
    project, target snapshot and settings hash of the device (null when
    missing), its mode and the licence flag. *)
Theorem unknown_state_sends_one_update app status st id text device payload :
  comms app = true ->
  get_prop status "id" = Ok id -> truthy id = true ->
  get_prop status "status" = Ok text -> truthy text = true ->
  Device_byId app id = Some device ->
  JSON_parse app (to_str text) = Some payload ->
  get_prop payload "state" = Ok (VStr "unknown") ->
  exists st' saved,
    handleStatus app status st = Ok (st', Some saved)
    /\ published st'
       = (published st ++
          [{| topic := "ff/v1/" ++ Team_hashid device ++ "/d/" ++ hashid device ++ "/command";
              body := VObj [("command", VStr "update");
                            ("project", js_or (Project_id device) VNull);
                            ("snapshot", js_or (targetSnapshot_hashid device) VNull);
                            ("settings", js_or (settingsHash device) VNull);
                            ("mode", mode device);
                            ("licensed", VBool (license_active app))] |}])%list.
Proof.
  intros Hcomms Hid Htid Htext Httext Hdev Hparse Hstate.
  destruct (updateState_total app device payload _ _ Hstate) as [device' Hupd].
  destruct (updateState_frame _ _ _ _ Hupd) as (Hh & Ht & Hp & Hn & Hg & Hm).
  destruct (differs_total payload _ _ "project" (Project_id device') Hstate) as [p Hdp].
  destruct (differs_total payload _ _ "snapshot" (targetSnapshot_hashid device') Hstate)
    as [n Hdn].
  destruct (differs_total payload _ _ "settings" (settingsHash device') Hstate)
    as [g Hdg].
  exists (sendDeviceUpdateCommand app device' st), device'. split.
  - unfold handleStatus. rewrite Hid. simpl. rewrite Htid. simpl.
    rewrite Htext. simpl. rewrite Httext. simpl. rewrite Hdev.
    unfold handleStatus_try, JSON_parse_value. rewrite Hparse. simpl.
    rewrite Hupd. simpl. rewrite Hstate. simpl. rewrite Hdp. simpl.
    rewrite Hdn. simpl. rewrite Hdg. simpl.
    change (strict_eq (VStr "unknown") (VStr "unknown")) with true.
    destruct p, n, g; reflexivity.
  - unfold sendDeviceUpdateCommand. rewrite Hcomms. unfold sendCommand. simpl.
    rewrite update_body, Hh, Ht, Hp, Hn, Hg, Hm. reflexivity.
Qed.

(** C8, as stated, fails: while [app.comms] is not set, the status event
    of a known device with state "unknown" is applied to the device but
    no command is published. *)
Lemma unknown_state_without_comms_sends_nothing :
  let status := status_event "dev1" (VObj [("state", VStr "unknown")]) in
  Device_byId sample_app_without_comms (VStr "dev1") = Some sample_device
  /\ JSON_parse sample_app_without_comms (Json.stringify (VObj [("state", VStr "unknown")]))
     = Some (VObj [("state", VStr "unknown")])
  /\ exists saved,
       handleStatus sample_app_without_comms status init = Ok (init, Some saved)
       /\ state saved = VStr "unknown"
       /\ published init = [].
Proof. vm_compute. repeat split. eexists. repeat split. Qed.

Lemma unknown_state_sends_one_update_witness :
  let status := status_event "dev1" (VObj [("state", VStr "unknown")]) in
  exists st' saved,
    handleStatus sample_app status init = Ok (st', Some saved)
    /\ published st'
       = [{| topic := "ff/v1/team1/d/dev1/command";
             body := VObj [("command", VStr "update");
                           ("project", VStr "proj1");
                           ("snapshot", VStr "snap1");
                           ("settings", VStr "5e77");
                           ("mode", VStr "autonomous");
                           ("licensed", VBool false)] |}].
Proof.
  apply (unknown_state_sends_one_update sample_app
           (status_event "dev1" (VObj [("state", VStr "unknown")])) init
           (VStr "dev1") (VStr (Json.stringify (VObj [("state", VStr "unknown")])))
           sample_device (VObj [("state", VStr "unknown")]));
    vm_compute; reflexivity.
Defined.

(** ** The access control evaluator *)
Section Acl.
Import AclManager.

Variable app : App.
Variable acls : Scope -> Action -> list ACL.t.

(** The envelope [$share/<group>/<topic>], with a group that is not
    empty and has no [/], and a topic on one line, is what
    [SHARED_SUB] matches; the groups are the share group and the inner
    topic. *)
Lemma SHARED_SUB_exec_envelope shareGroup inner :
  shareGroup <> "" -> occurs "/" shareGroup = false ->
  has_line_terminator inner = false ->
  SHARED_SUB_exec ("$share/" ++ shareGroup ++ "/" ++ inner) = Some (shareGroup, inner).
Proof.
  intros Hne Hslash Hline. unfold SHARED_SUB_exec.
  change (strip_prefix "$share/" ("$share/" ++ shareGroup ++ "/" ++ inner))
    with (Some (shareGroup ++ "/" ++ inner)).
  assert (split_first "/" (shareGroup ++ "/" ++ inner) = Some (shareGroup, inner)) as Hsplit.
  { clear Hne. induction shareGroup as [|c g IH].
    - reflexivity.
    - simpl in Hslash. apply orb_false_iff in Hslash as [Hc Hg].
      change (String c g ++ "/" ++ inner) with (String c (g ++ "/" ++ inner)).
      simpl. rewrite Hc, (IH Hg). reflexivity. }
  simpl. rewrite Hsplit. simpl. destruct (String.eqb_spec shareGroup ""); [contradiction|].
  rewrite Hline. reflexivity.
Qed.

Lemma strict_eq_VStr_ne g v : v <> VStr g -> strict_eq (VStr g) v = false.
Proof.
  intros Hne. destruct v; try reflexivity. unfold strict_eq.
  destruct (String.eqb_spec g s); [subst; contradiction | reflexivity].
Qed.

Lemma strict_eq_VStr_refl g : strict_eq (VStr g) (VStr g) = true.
Proof. unfold strict_eq. apply String.eqb_refl. Qed.

(** C5.  For a username of a known class and a subscribe request (an
    access level other than 2) on a topic wrapped in the
    shared-subscription envelope, [verify] returns false when the share
    group is not the third colon-delimited part of the username,
    whatever the rule sets hold and whatever the inner topic is. *)
Theorem shared_group_mismatch_denied username topic accessLevel scope shareGroup inner :
  scope_of username = Some scope ->
  strict_eq accessLevel (VNum 2) = false ->
  SHARED_SUB_exec topic = Some (shareGroup, inner) ->
  at_index (map VStr (split_on ":" username)) 2 <> VStr shareGroup ->
  verify app acls username topic accessLevel = VBool false.
Proof.
  intros Hscope Hsub Henv Hgroup. unfold verify.
  rewrite Hscope, Hsub, Henv. destruct (_ <? _)%nat; [|reflexivity].
  rewrite strict_eq_VStr_ne by exact Hgroup. reflexivity.
Qed.

(** The loop stops at the first rule that matches. *)
Lemma scan_first_match before acl after isSharedSub topic usernameParts m :
  Forall (fun r => ACL.topic r topic = None) before ->
  ACL.topic acl topic = Some m ->
  scan app (before ++ acl :: after) isSharedSub topic usernameParts
  = verdict app acl isSharedSub m usernameParts.
Proof.
  intros Hbefore Hm. induction Hbefore as [|r before Hr _ IH]; simpl.
  - rewrite Hm. reflexivity.
  - rewrite Hr. exact IH.
Qed.

Lemma scan_no_match aclList isSharedSub topic usernameParts :
  Forall (fun r => ACL.topic r topic = None) aclList ->
  scan app aclList isSharedSub topic usernameParts = VBool false.
Proof.
  intros Hnone. induction Hnone as [|r l Hr _ IH]; simpl; [reflexivity|].
  rewrite Hr. exact IH.
Qed.

Lemma verifyFunctions_empty : verifyFunctions app "" = None.
Proof. reflexivity. Qed.

(** C6.  When [verify] reaches the scan of the rules (the class of the
    username is known, and either the request is a subscription to an
    envelope whose share group is the third part of the username, the
    scan then running on the inner topic as a shared subscription, or
    it is no such subscription, the scan then running on the topic
    itself), the first rule in the list whose pattern matches decides:
    false for a shared subscription when the rule is not flagged
    shared; otherwise the result of the verify function the rule names,
    applied to the match array and the parts of the username; otherwise,
    when the rule names no verify function, true.  The rules after it
    play no part.  When no rule matches, the result is false. *)
Theorem first_matching_rule_decides username topic accessLevel scope isSharedSub inner :
  scope_of username = Some scope ->
  let aclType := if strict_eq accessLevel (VNum 2) then pub else sub in
  let aclList := acls scope aclType in
  let usernameParts := map VStr (split_on ":" username) in
  (aclType = sub
   /\ (exists shareGroup,
         SHARED_SUB_exec topic = Some (shareGroup, inner)
         /\ at_index usernameParts 2 = VStr shareGroup)
   /\ isSharedSub = true)
  \/ ((aclType = pub \/ SHARED_SUB_exec topic = None)
      /\ inner = topic /\ isSharedSub = false) ->
  (forall before acl after m,
     aclList = (before ++ acl :: after)%list ->
     Forall (fun r => ACL.topic r inner = None) before ->
     ACL.topic acl inner = Some m ->
     (isSharedSub = true -> ACL.shared acl = false ->
      verify app acls username topic accessLevel = VBool false)
     /\ (forall name f,
           isSharedSub = false \/ ACL.shared acl = true ->
           ACL.verify acl = Some name -> verifyFunctions app name = Some f ->
           verify app acls username topic accessLevel = f m usernameParts)
     /\ (isSharedSub = false \/ ACL.shared acl = true ->
         ACL.verify acl = None
           \/ (exists name, ACL.verify acl = Some name /\ verifyFunctions app name = None) ->
         verify app acls username topic accessLevel = VBool true))
  /\ (Forall (fun r => ACL.topic r inner = None) aclList ->
      verify app acls username topic accessLevel = VBool false).
Proof.
  intros Hscope aclType aclList usernameParts Hreach.
  assert (aclList <> [] ->
          verify app acls username topic accessLevel
          = scan app aclList isSharedSub inner usernameParts) as Hverify.
  { intros Hne. unfold verify. rewrite Hscope. fold aclType aclList usernameParts.
    destruct aclList as [|r l] eqn:Hl; [contradiction|]. simpl (0 <? _)%nat. cbv iota.
    destruct Hreach as [(Hsub & (g & Henv & Hg) & ->) | ([Hpub | Hplain] & -> & ->)].
    - rewrite Hsub, Henv, Hg, strict_eq_VStr_refl. reflexivity.
    - rewrite Hpub. reflexivity.
    - rewrite Hplain. destruct aclType; reflexivity. }
  split.
  - intros before acl after m Hlist Hbefore Hm.
    assert (verify app acls username topic accessLevel
            = verdict app acl isSharedSub m usernameParts) as ->.
    { rewrite Hverify by (rewrite Hlist; destruct before; discriminate).
      rewrite Hlist. apply scan_first_match; assumption. }
    unfold verdict. split; [|split].
    + intros -> ->. reflexivity.
    + intros name f Hok Hname Hf.
      assert (isSharedSub && negb (ACL.shared acl) = false) as ->
        by (destruct Hok as [-> | ->]; [reflexivity | apply andb_false_r]).
      rewrite Hname.
      destruct (String.eqb_spec name "") as [-> | _];
        [rewrite verifyFunctions_empty in Hf; discriminate|].
      simpl. rewrite Hf. reflexivity.
    + intros Hok Hnone.
      assert (isSharedSub && negb (ACL.shared acl) = false) as ->
        by (destruct Hok as [-> | ->]; [reflexivity | apply andb_false_r]).
      destruct Hnone as [-> | (name & -> & Hf)]; [reflexivity|].
      destruct (negb _); [rewrite Hf|]; reflexivity.
  - intros Hnone. destruct aclList as [|r l] eqn:Hl.
    + unfold verify. rewrite Hscope. fold aclType aclList. rewrite Hl. reflexivity.
    + rewrite Hverify by discriminate. apply scan_no_match, Hnone.
Qed.

End Acl.

Lemma shared_group_mismatch_denied_witness :
  AclManager.verify sample_app shared_acls "device:team1:dev1"
    "$share/dev2/ff/v1/team1/s/proj1/command" (VNum 1) = VBool false
  /\ AclManager.verify sample_app shared_acls "device:team1:dev1"
       "$share/dev1/ff/v1/team1/s/proj1/command" (VNum 1) = VBool true.
Proof.
  split.
  - apply (shared_group_mismatch_denied sample_app shared_acls "device:team1:dev1"
             "$share/dev2/ff/v1/team1/s/proj1/command" (VNum 1) AclManager.device
             "dev2" "ff/v1/team1/s/proj1/command").
    + reflexivity.
    + reflexivity.
    + reflexivity.
    + vm_compute. discriminate.
  - vm_compute. reflexivity.
Defined.

Lemma first_matching_rule_decides_witness :
  AclManager.verify sample_app shared_acls "device:team1:dev1"
    "ff/v1/team1/p/proj1/command" (VNum 1)
  = AclManager.checkDeviceAssignedToProject sample_app
      [VStr "ff/v1/team1/p/proj1/command"; VStr "team1"; VStr "proj1"]
      [VStr "device"; VStr "team1"; VStr "dev1"]
  /\ AclManager.verify sample_app shared_acls "device:team1:dev1"
       "$share/dev1/ff/v1/team1/p/proj1/command" (VNum 1)
     = VBool false.
Proof.
  split.
  - destruct (first_matching_rule_decides sample_app shared_acls "device:team1:dev1"
                "ff/v1/team1/p/proj1/command" (VNum 1) AclManager.device false
                "ff/v1/team1/p/proj1/command" eq_refl) as [Hfirst _].
    { right. split; [right; reflexivity|]. split; reflexivity. }
    destruct (Hfirst [AclManager.checked "d" "command" "checkTeamAndObjectIds"]
                (AclManager.checked "p" "command" "checkDeviceAssignedToProject")
                [ {| AclManager.ACL.topic := AclManager.topic_pattern "s" "command" true;
                     AclManager.ACL.verify := None;
                     AclManager.ACL.shared := true |};
                  {| AclManager.ACL.topic := AclManager.topic_pattern "p" "command" true;
                     AclManager.ACL.verify := Some "checkDeviceAssignedToProject";
                     AclManager.ACL.shared := true |} ]
                [VStr "ff/v1/team1/p/proj1/command"; VStr "team1"; VStr "proj1"])
      as (_ & Hpred & _).
    + reflexivity.
    + repeat constructor.
    + reflexivity.
    + apply (Hpred "checkDeviceAssignedToProject"
               (AclManager.checkDeviceAssignedToProject sample_app));
        [left; reflexivity | reflexivity | reflexivity].
  - destruct (first_matching_rule_decides sample_app shared_acls "device:team1:dev1"
                "$share/dev1/ff/v1/team1/p/proj1/command" (VNum 1) AclManager.device true
                "ff/v1/team1/p/proj1/command" eq_refl) as [Hfirst _].
    { left. split; [reflexivity|]. split; [|reflexivity].
      exists "dev1". split; reflexivity. }
    destruct (Hfirst [AclManager.checked "d" "command" "checkTeamAndObjectIds"]
                (AclManager.checked "p" "command" "checkDeviceAssignedToProject")
                [ {| AclManager.ACL.topic := AclManager.topic_pattern "s" "command" true;
                     AclManager.ACL.verify := None;
                     AclManager.ACL.shared := true |};
                  {| AclManager.ACL.topic := AclManager.topic_pattern "p" "command" true;
                     AclManager.ACL.verify := Some "checkDeviceAssignedToProject";
                     AclManager.ACL.shared := true |} ]
                [VStr "ff/v1/team1/p/proj1/command"; VStr "team1"; VStr "proj1"])
      as (Hdeny & _ & _).
    + reflexivity.
    + repeat constructor.
    + reflexivity.
    + apply Hdeny; reflexivity.
Defined.

(** ** What a promise can become *)

Lemma outcome_sound_settle (outcome : Promise) (a : addr) (ps : gmap addr Promise) :
  outcome_sound outcome ->
  (forall a' p, ps !! a' = Some p -> outcome_sound p) ->
  forall a' p, alter (settle outcome) a ps !! a' = Some p -> outcome_sound p.
Proof.
  intros Ho Hps a' p. rewrite lookup_alter. case_decide as Ha; [|apply Hps].
  subst a'. destruct (ps !! a) as [p0|] eqn:Hp0; simpl; [|discriminate].
  intros [= <-]. destruct p0; simpl; try exact Ho; exact (Hps _ _ Hp0).
Qed.

Lemma outcome_sound_step st e :
  (forall x q, promises st !! x = Some q -> outcome_sound q) ->
  forall x q, promises (step st e) !! x = Some q -> outcome_sound q.
Proof.
  intros Hs. event_cases e; simpl; try exact Hs.
  - intros x q. rewrite lookup_insert. case_decide; [intros [= <-]; exact I | apply Hs].
  - destruct (handleCommandResponse_outcome app response st)
      as [e | | text message cd c0 payload a0 m0 rcd Hmsg Hparse Hcd Hcmd Hp Htp Hin Hm0 Heq];
      simpl; try exact Hs.
    unfold monitor_resolve. rewrite Hm0. simpl.
    apply outcome_sound_settle; [exact Htp | exact Hs].
  - destruct (handleStatus app status st) as [[st' saved]|] eqn:H; simpl; [|exact Hs].
    apply core_handleStatus in H. injection H as _ _ -> _. exact Hs.
  - destruct (forwardLog app log st) eqn:H; simpl; [|exact Hs].
    apply core_forwardLog in H. injection H as _ _ -> _. exact Hs.
  - unfold timer_fire. destruct (timers st !! a); [|exact Hs].
    unfold timer_callback. simpl.
    destruct (monitors st !! a) as [m|] eqn:Hm; [|exact Hs].
    destruct (resolved m); [exact Hs|]. destruct (rejected m); [exact Hs|].
    unfold monitor_reject. simpl. rewrite Hm. simpl.
    apply outcome_sound_settle; [reflexivity | exact Hs].
  - destruct (streamLogs t d socket st) eqn:H; simpl; [|exact Hs].
    apply core_streamLogs in H. injection H as _ _ -> _. exact Hs.
  - pose proof (core_socket_close t d socket st) as H. injection H as _ _ -> _. exact Hs.
Qed.

Lemma outcome_sound_reachable st a p :
  reachable st -> promises st !! a = Some p -> outcome_sound p.
Proof.
  intros [events ->]. revert a p.
  assert (forall st, (forall a p, promises st !! a = Some p -> outcome_sound p) ->
                     forall a p, promises (run events st) !! a = Some p -> outcome_sound p)
    as Hrun.
  { induction events as [|e events IH]; intros st Hs; simpl; [exact Hs|].
    apply IH, outcome_sound_step, Hs. }
  apply Hrun. intros a p. simpl. rewrite lookup_empty. discriminate.
Qed.

(** X1.  Whatever happens to the handler, a promise made by
    [sendCommandAwaitReply] is pending, fulfilled with a truthy payload,
    or rejected with the error "Command timed out": it is never
    fulfilled with a falsy value and never rejected with another
    error. *)
Theorem promise_outcomes st a p :
  reachable st ->
  promises st !! a = Some p ->
  p = Pending
  \/ (exists payload, p = Fulfilled payload /\ truthy payload = true)
  \/ p = Rejected "Command timed out".
Proof.
  intros Hreach Hp. pose proof (outcome_sound_reachable _ _ _ Hreach Hp) as Hs.
  destruct p as [|payload|message]; simpl in Hs; eauto. subst. auto.
Qed.

Lemma promise_outcomes_witness :
  let sent := enableEditor "team1" "dev1" (VStr "s3cr3t") 1000 "c0ffee" init in
  let st := run [ResponseDevice sample_app
                   (response_event "dev1" (reply "startEditor" "c0ffee" (VBool false)));
                 TimerFires sent.1] sent.2 in
  promises st !! sent.1 = Some (Rejected "Command timed out").
Proof.
  intros sent st.
  assert (reachable st) as Hreach.
  { exists [SendCommandAwaitReply "team1" "dev1" "startEditor"
              (VObj [("token", VStr "s3cr3t")]) None 1000 "c0ffee";
            ResponseDevice sample_app
              (response_event "dev1" (reply "startEditor" "c0ffee" (VBool false)));
            TimerFires sent.1].
    reflexivity. }
  eassert (promises st !! sent.1 = Some _) as Hp by (vm_compute; reflexivity).
  destruct (promise_outcomes st sent.1 _ Hreach Hp) as [H | [(v & H & _) | H]];
    try discriminate H.
  exact Hp.
Defined.

(** X2.  [exportConfig] hands [{ timeout: 10000 }] to
    [sendCommandAwaitReply] as the payload of the "upload" command, not
    as its options: the message published to the device carries it as
    [payload], and the timer of the call is set to the default 5000.
    When [app.comms] is not set nothing is sent.  And since a reply is
    only ever fulfilled with a truthy payload, [exportConfig] passes the
    outcome of the call on as it is. *)
Theorem exportConfig_sends_timeout_as_payload app device now uuid st :
  reachable st ->
  if comms app then
    exists a st',
      exportConfig_send app device now uuid st = Some (a, st')
      /\ timers st' !! a = Some 5000%Z
      /\ published st'
         = (published st ++
            [{| topic := "ff/v1/" ++ Team_hashid device ++ "/d/" ++ hashid device
                           ++ "/command";
                body := VObj [("command", VStr "upload");
                              ("deviceId", VStr (hashid device));
                              ("teamId", VStr (Team_hashid device));
                              ("correlationData", VStr uuid);
                              ("createdAt", VNum now);
                              ("expiresAt",
                               VNum (if (now + 5000 =? 0)%Z then 5000 else now + 5000));
                              ("payload", VObj [("timeout", VNum 10000)]);
                              ("responseTopic",
                               VStr ("ff/v1/" ++ Team_hashid device ++ "/d/"
                                       ++ hashid device ++ "/response"))] |}])%list
      /\ forall events p,
           promises (run events st') !! a = Some p -> exportConfig_return p = p
  else exportConfig_send app device now uuid st = None.
Proof.
  intros Hreach. unfold exportConfig_send. destruct (comms app); [|reflexivity].
  eexists _, _. split; [reflexivity|]. split; [|split].
  - simpl. apply lookup_insert_eq.
  - reflexivity.
  - intros events p Hp.
    assert (reachable (run events
              (sendCommandAwaitReply (Team_hashid device) (hashid device) "upload"
                 (VObj [("timeout", VNum 10000)]) None now uuid st).2)) as Hreach'.
    { apply reachable_run. destruct Hreach as [events0 ->].
      exists (events0 ++ [SendCommandAwaitReply (Team_hashid device) (hashid device)
                            "upload" (VObj [("timeout", VNum 10000)]) None now uuid])%list.
      unfold run. rewrite foldl_app. reflexivity. }
    pose proof (outcome_sound_reachable _ _ _ Hreach' Hp) as Hs.
    destruct p as [|payload|message]; simpl in *; [reflexivity| |reflexivity].
    rewrite Hs. reflexivity.
Qed.

Lemma exportConfig_sends_timeout_as_payload_witness :
  exists a st',
    exportConfig_send sample_app sample_device 1000 "c0ffee" init = Some (a, st')
    /\ timers st' !! a = Some 5000%Z.
Proof.
  destruct (exportConfig_sends_timeout_as_payload sample_app sample_device 1000 "c0ffee" init)
    as (a & st' & Hsend & Ht & _).
  - exists []. reflexivity.
  - exists a, st'. split; [exact Hsend | exact Ht].
Defined.

(** ** One call does not disturb another *)

(** What a run of [handleCommandResponse] that returns has done. *)
Lemma handleCommandResponse_effect app response st st' :
  handleCommandResponse app response st = Ok st' ->
  st' = st
  \/ exists uuid x m payload rcd,
       response_token app response = Some uuid
       /\ inFlightCommands st !! uuid = Some x
       /\ monitors st !! x = Some m
       /\ get_prop response "correlationData" = Ok rcd
       /\ truthy payload = true
       /\ st' = with_inFlightCommands (delete (to_str rcd)) (monitor_resolve x payload st).
Proof.
  unfold handleCommandResponse, response_token.
  destruct (get_prop response "id") as [id|]; simpl; [|discriminate].
  destruct (truthy id); simpl; [|intros [= <-]; auto].
  destruct (get_prop response "message") as [msg|]; simpl; [|discriminate].
  destruct msg as [| | | |text| |]; try (intros [= <-]; auto).
  unfold JSON_parse_value. change (to_str (VStr text)) with text.
  destruct (JSON_parse app text) as [message|]; simpl; [|discriminate].
  destruct (get_prop message "command") as [c|]; simpl; [|discriminate].
  destruct (truthy c); simpl; [|intros [= <-]; auto].
  destruct (get_prop message "correlationData") as [cd|]; simpl; [|discriminate].
  destruct (truthy cd); simpl; [|intros [= <-]; auto].
  destruct (get_prop message "payload") as [payload|]; simpl; [|discriminate].
  destruct (truthy payload) eqn:Htp; simpl; [|intros [= <-]; auto].
  destruct (Device_byId app id); [|intros [= <-]; auto].
  destruct (inFlightCommands st !! to_str cd) as [x|] eqn:Hx; [|intros [= <-]; auto].
  destruct (monitors st !! x) as [m|] eqn:Hm; [|intros [= <-]; auto].
  destruct (strict_eq (VStr (command m)) c); [|intros [= <-]; auto].
  destruct (get_prop response "correlationData") as [rcd|]; simpl; [|discriminate].
  intros [= <-]. right. exists (to_str cd), x, m, payload, rcd. auto 10.
Qed.

(** X3.  A response that is handled touches at most the call filed
    under the token it carries and the entry filed under the text of
    [response.correlationData] (a property the events of the client do
    not have, so that text is "undefined"): every other registered call
    stays registered, with its monitor, its promise and its timer as
    they were. *)
Theorem reply_leaves_other_calls app response st st' rcd k x :
  reachable st ->
  handleCommandResponse app response st = Ok st' ->
  get_prop response "correlationData" = Ok rcd ->
  inFlightCommands st !! k = Some x ->
  response_token app response <> Some k ->
  k <> to_str rcd ->
  inFlightCommands st' !! k = Some x
  /\ monitors st' !! x = monitors st !! x
  /\ promises st' !! x = promises st !! x
  /\ timers st' !! x = timers st !! x.
Proof.
  intros Hreach Hrun Hrcd Hk Htoken Hother.
  pose proof (consistent_reachable _ Hreach) as Hc.
  destruct (handleCommandResponse_effect _ _ _ _ Hrun)
    as [-> | (uuid & y & m & payload & rcd' & Htok & Hy & Hm & Hrcd' & _ & ->)]; [auto|].
  assert (rcd' = rcd) as -> by congruence.
  destruct (in_flight_fresh _ Hc _ _ Hy) as (m' & Hm' & Hcd & _).
  assert (m' = m) as -> by congruence.
  assert (uuid <> k) as Hne by congruence.
  assert (y <> x) as Hyx.
  { intros ->. destruct (in_flight_fresh _ Hc _ _ Hk) as (m0 & Hm0 & Hcd0 & _). congruence. }
  unfold monitor_resolve. rewrite Hm. simpl.
  rewrite lookup_delete_ne by congruence. rewrite lookup_delete_ne by congruence.
  rewrite lookup_insert_ne, lookup_alter_ne, lookup_delete_ne by exact Hyx. auto.
Qed.

Lemma reply_leaves_other_calls_witness :
  let first := sendCommandAwaitReply "team1" "dev1" "upload" (VObj []) None 1000 "c0ffee" init in
  let second := sendCommandAwaitReply "team1" "dev1" "startEditor"
                  (VObj [("token", VStr "s3cr3t")]) None 1001 "decaf" first.2 in
  let response := response_event "dev1" (reply "upload" "c0ffee" (VObj [("flows", VArr [])])) in
  exists st',
    handleCommandResponse sample_app response second.2 = Ok st'
    /\ promises st' !! first.1 = Some (Fulfilled (VObj [("flows", VArr [])]))
    /\ inFlightCommands st' !! "decaf" = Some second.1
    /\ promises st' !! second.1 = Some Pending.
Proof.
  intros first second response.
  set (st' := or_unchanged second.2 (handleCommandResponse sample_app response second.2)).
  assert (handleCommandResponse sample_app response second.2 = Ok st') as Hrun
    by (vm_compute; reflexivity).
  exists st'. split; [exact Hrun|]. split; [vm_compute; reflexivity|].
  destruct (reply_leaves_other_calls sample_app response second.2 st' VUndefined "decaf"
              second.1) as (Hk & _ & Hp & _).
  - exists [SendCommandAwaitReply "team1" "dev1" "upload" (VObj []) None 1000 "c0ffee";
            SendCommandAwaitReply "team1" "dev1" "startEditor"
              (VObj [("token", VStr "s3cr3t")]) None 1001 "decaf"].
    reflexivity.
  - exact Hrun.
  - reflexivity.
  - vm_compute. reflexivity.
  - vm_compute. discriminate.
  - vm_compute. discriminate.
  - split; [exact Hk|]. rewrite Hp. vm_compute. reflexivity.
Defined.

(** X4.  The firing of the timer of one call settles that call only:
    the monitor, the promise and the timer of every other call are as
    before, and every call registered under a token other than that of
    the timed-out monitor stays registered. *)
Theorem timeout_leaves_other_calls st x :
  reachable st ->
  (forall y, y <> x ->
     monitors (timer_fire x st) !! y = monitors st !! y
     /\ promises (timer_fire x st) !! y = promises st !! y
     /\ timers (timer_fire x st) !! y = timers st !! y)
  /\ (forall m k y,
        monitors st !! x = Some m ->
        inFlightCommands st !! k = Some y ->
        k <> correlationData m ->
        inFlightCommands (timer_fire x st) !! k = Some y).
Proof.
  intros Hreach. pose proof (consistent_reachable _ Hreach) as Hc.
  destruct (timers st !! x) as [d|] eqn:Ht.
  - destruct (timer_fresh _ Hc _ _ Ht) as (m & Hm & Hr & Hj).
    rewrite (timer_fire_rejects x d m) by assumption.
    unfold monitor_reject. rewrite Hm. simpl. split.
    + intros y Hy.
      rewrite lookup_insert_ne, lookup_alter_ne, lookup_delete_ne by congruence. auto.
    + intros m0 k y Hm0 Hk Hne. assert (m0 = m) as -> by congruence.
      rewrite lookup_delete_ne by congruence. exact Hk.
  - unfold timer_fire. rewrite Ht. auto.
Qed.

Lemma timeout_leaves_other_calls_witness :
  let first := sendCommandAwaitReply "team1" "dev1" "upload" (VObj []) None 1000 "c0ffee" init in
  let second := sendCommandAwaitReply "team1" "dev1" "startEditor"
                  (VObj [("token", VStr "s3cr3t")]) None 1001 "decaf" first.2 in
  promises (timer_fire first.1 second.2) !! first.1 = Some (Rejected "Command timed out")
  /\ promises (timer_fire first.1 second.2) !! second.1 = Some Pending
  /\ inFlightCommands (timer_fire first.1 second.2) !! "decaf" = Some second.1.
Proof.
  intros first second.
  destruct (timeout_leaves_other_calls second.2 first.1) as [Hother Hkeys].
  - exists [SendCommandAwaitReply "team1" "dev1" "upload" (VObj []) None 1000 "c0ffee";
            SendCommandAwaitReply "team1" "dev1" "startEditor"
              (VObj [("token", VStr "s3cr3t")]) None 1001 "decaf"].
    reflexivity.
  - split; [vm_compute; reflexivity|]. split.
    + destruct (Hother second.1) as (_ & Hp & _); [vm_compute; discriminate|].
      rewrite Hp. vm_compute. reflexivity.
    + eapply Hkeys; [vm_compute; reflexivity | vm_compute; reflexivity |].
      vm_compute. discriminate.
Defined.

(** ** Viewers of the log relay *)

Lemma foldl_send_trace (logs : value) (l : list nat) : forall st,
  socket_sent (foldl (fun st s => socket_send s logs st) st l)
  = (socket_sent st ++ map (fun s => (s, logs)) l)%list
  /\ published (foldl (fun st s => socket_send s logs st) st l) = published st.
Proof.
  induction l as [|s l IH]; intros st; simpl.
  - rewrite app_nil_r. auto.
  - destruct (IH (socket_send s logs st)) as [-> ->]. simpl.
    rewrite <- app_assoc. auto.
Qed.

Lemma replay_trace socket entries : forall lines st,
  Forall2 (fun entry line => get_prop entry "logs" = Ok line) entries lines ->
  exists st', replay socket entries st = Ok st'
    /\ socket_sent st' = (socket_sent st ++ map (fun line => (socket, line)) lines)%list
    /\ published st' = published st
    /\ deviceLogClients st' = deviceLogClients st.
Proof.
  induction entries as [|entry rest IH]; intros lines st Hlines.
  - apply Forall2_nil_inv_l in Hlines as ->. exists st. simpl.
    rewrite app_nil_r. auto.
  - apply Forall2_cons_inv_l in Hlines as (line & lines' & Hline & Hrest & ->).
    simpl. rewrite Hline. simpl.
    destruct (IH lines' (socket_send socket line st) Hrest) as (st' & Hrun & Hs & Hp & Hd).
    exists st'. split; [exact Hrun|]. rewrite Hs, Hp, Hd. simpl.
    rewrite <- app_assoc. auto.
Qed.

Lemma readable_lines entries :
  Forall (fun entry => nullish entry = false) entries ->
  exists lines, Forall2 (fun entry line => get_prop entry "logs" = Ok line) entries lines.
Proof.
  induction 1 as [|entry rest Hentry _ (lines & IH)].
  - exists []. constructor.
  - destruct (get_prop_total entry "logs" Hentry) as [line Hline].
    exists (line :: lines). constructor; assumption.
Qed.

(** X5.  A viewer that attaches to a device whose session has taken
    further log events is sent the [logs] of the cached entries, that
    is of the last 10 events, in arrival order, and nothing else; no
    command is published for it (the device is already logging), and
    the cache is not changed. *)
Theorem late_viewer_gets_cached_lines app st teamId d info logs socket :
  reachable st ->
  deviceLogClients st !! d = Some info ->
  Forall (fun log => exists id, get_prop log "id" = Ok id /\ to_str id = d) logs ->
  let st1 := run (map (LogsDevice app) logs) st in
  let cached := drop (List.length (cache info ++ logs) - 10) (cache info ++ logs) in
  exists st2 lines,
    streamLogs teamId d socket st1 = Ok st2
    /\ Forall2 (fun entry line => get_prop entry "logs" = Ok line) cached lines
    /\ socket_sent st2 = (socket_sent st1 ++ map (fun line => (socket, line)) lines)%list
    /\ published st2 = published st1
    /\ deviceLogClients st2 !! d
       = Some {| cache := cached; sockets := set_add socket (sockets info) |}.
Proof.
  intros Hreach Hinfo Hlogs st1 cached.
  destruct (caches_bounded_reachable _ Hreach _ _ Hinfo) as [Hlen _].
  assert (deviceLogClients st1 !! d = Some {| cache := cached; sockets := sockets info |})
    as Hinfo1.
  { subst st1 cached. rewrite (forwardLog_run app d logs st info Hinfo Hlogs).
    rewrite foldl_cache_push by exact Hlen. reflexivity. }
  assert (reachable st1) as Hreach1 by (apply reachable_run, Hreach).
  destruct (caches_bounded_reachable _ Hreach1 _ _ Hinfo1) as [_ Hread]. simpl in Hread.
  destruct (readable_lines _ Hread) as [lines Hlines].
  clearbody st1 cached.
  unfold streamLogs. rewrite Hinfo1. simpl. rewrite lookup_alter_eq, Hinfo1. simpl.
  destruct (replay_trace socket cached lines
              (with_deviceLogClients
                 (alter (fun info0 => {| cache := cache info0;
                                         sockets := set_add socket (sockets info0) |}) d)
                 st1) Hlines) as (st2 & Hrun & Hs & Hp & Hd).
  exists st2, lines. split; [exact Hrun|]. split; [exact Hlines|].
  split; [exact Hs|]. split; [exact Hp|].
  rewrite Hd. simpl. rewrite lookup_alter_eq, Hinfo1. reflexivity.
Qed.

Lemma late_viewer_gets_cached_lines_witness :
  let st := run [StreamLogs "team1" "dev1" 1] init in
  let logs := [log_event "dev1" "one"; log_event "dev1" "two"; log_event "dev1" "three"] in
  let st1 := run (map (LogsDevice sample_app) logs) st in
  exists st2,
    streamLogs "team1" "dev1" 2 st1 = Ok st2
    /\ socket_sent st2
       = (socket_sent st1 ++ [(2, VStr "one"); (2, VStr "two"); (2, VStr "three")])%list
    /\ published st2 = published st1.
Proof.
  intros st logs st1.
  assert (reachable st) as Hreach by (exists [StreamLogs "team1" "dev1" 1]; reflexivity).
  eassert (deviceLogClients st !! "dev1" = Some _) as Hinfo by (vm_compute; reflexivity).
  destruct (late_viewer_gets_cached_lines sample_app st "team1" "dev1" _ logs 2 Hreach Hinfo)
    as (st2 & lines & Hrun & Hlines & Hs & Hp & _).
  - repeat constructor; eexists; (split; [reflexivity|]); reflexivity.
  - exists st2. split; [exact Hrun|]. split; [|exact Hp].
    fold st1 in Hs. rewrite Hs. f_equal.
    simpl in Hlines.
    apply Forall2_cons_inv_l in Hlines as (l1 & r1 & [= <-] & Hlines & ->).
    apply Forall2_cons_inv_l in Hlines as (l2 & r2 & [= <-] & Hlines & ->).
    apply Forall2_cons_inv_l in Hlines as (l3 & r3 & [= <-] & Hlines & ->).
    apply Forall2_nil_inv_l in Hlines as ->. reflexivity.
Defined.

Lemma set_delete_only socket : set_delete socket [socket] = [].
Proof.
  unfold set_delete. rewrite filter_cons, decide_False; [reflexivity|].
  intros Hne. apply Hne. reflexivity.
Qed.

(** X6.  Opening and closing.  The first viewer of a device creates its
    session and publishes one "startLog" command; when that viewer
    closes, the session is removed, one "stopLog" command is published,
    and the sessions are what they were before it came.  When another
    viewer is still attached, a close publishes nothing and keeps the
    session with its cache. *)
Theorem viewer_open_close teamId d socket st :
  let start := {| topic := "ff/v1/" ++ teamId ++ "/d/" ++ d ++ "/command";
                  body := VObj [("command", VStr "startLog")] |} in
  let stop := {| topic := "ff/v1/" ++ teamId ++ "/d/" ++ d ++ "/command";
                 body := VObj [("command", VStr "stopLog")] |} in
  (deviceLogClients st !! d = None ->
   exists st1,
     streamLogs teamId d socket st = Ok st1
     /\ deviceLogClients st1 !! d = Some {| cache := []; sockets := [socket] |}
     /\ published st1 = (published st ++ [start])%list
     /\ deviceLogClients (socket_close teamId d socket st1) = deviceLogClients st
     /\ published (socket_close teamId d socket st1) = (published st ++ [start; stop])%list)
  /\ (forall info other,
        deviceLogClients st !! d = Some info ->
        other ∈ sockets info -> other <> socket ->
        deviceLogClients (socket_close teamId d socket st)
        = <[d := {| cache := cache info; sockets := set_delete socket (sockets info) |}]>
            (deviceLogClients st)
        /\ published (socket_close teamId d socket st) = published st).
Proof.
  intros start stop. split.
  - intros Hnone. eexists. split; [|split; [|split; [|split]]].
    + unfold streamLogs. rewrite Hnone. simpl.
      rewrite lookup_alter_eq, lookup_insert_eq. reflexivity.
    + simpl. rewrite lookup_alter_eq, lookup_insert_eq. reflexivity.
    + reflexivity.
    + unfold socket_close. simpl. rewrite lookup_alter_eq, lookup_insert_eq. simpl.
      change (set_add socket []) with [socket]. rewrite set_delete_only. simpl.
      rewrite delete_alter, delete_insert_eq. rewrite decide_True by reflexivity.
      apply delete_id, Hnone.
    + unfold socket_close. simpl. rewrite lookup_alter_eq, lookup_insert_eq. simpl.
      change (set_add socket []) with [socket]. rewrite set_delete_only. simpl.
      rewrite <- app_assoc. reflexivity.
  - intros info other Hinfo Hother Hne. unfold socket_close. rewrite Hinfo.
    assert (other ∈ set_delete socket (sockets info)) as Hin
      by (unfold set_delete; apply list_elem_of_filter; auto).
    destruct (set_delete socket (sockets info)) as [|x l]; [inversion Hin|].
    simpl. auto.
Qed.

Lemma viewer_open_close_witness :
  exists st1,
    streamLogs "team1" "dev1" 1 init = Ok st1
    /\ deviceLogClients (socket_close "team1" "dev1" 1 st1) = ∅
    /\ published (socket_close "team1" "dev1" 1 st1)
       = [{| topic := "ff/v1/team1/d/dev1/command";
             body := VObj [("command", VStr "startLog")] |};
          {| topic := "ff/v1/team1/d/dev1/command";
             body := VObj [("command", VStr "stopLog")] |}].
Proof.
  destruct (viewer_open_close "team1" "dev1" 1 init) as [Hopen _].
  destruct (Hopen eq_refl) as (st1 & Hrun & _ & _ & Hd & Hp).
  exists st1. split; [exact Hrun|]. split; [exact Hd | exact Hp].
Defined.

(** X7.  A log event for a device with a session is sent, as its [logs]
    text, once to each viewer of the session in the order they
    attached; no command is published.  A log event for a device
    without a session never creates one: when the device is known, one
    "stopLog" command is published on its command topic (under the team
    of the device), and otherwise nothing happens. *)
Theorem log_event_fan_out app log st id :
  get_prop log "id" = Ok id ->
  exists st' line,
    forwardLog app log st = Ok st'
    /\ get_prop log "logs" = Ok line
    /\ match deviceLogClients st !! to_str id with
       | Some info =>
           socket_sent st'
           = (socket_sent st ++ map (fun s => (s, line)) (sockets info))%list
           /\ published st' = published st
       | None =>
           deviceLogClients st' = deviceLogClients st
           /\ socket_sent st' = socket_sent st
           /\ published st'
              = match Device_byId app id with
                | Some device =>
                    (published st ++
                     [{| topic := "ff/v1/" ++ Team_hashid device ++ "/d/" ++ to_str id
                                    ++ "/command";
                         body := VObj [("command", VStr "stopLog")] |}])%list
                | None => published st
                end
       end.
Proof.
  intros Hid.
  destruct (get_prop_total log "logs" (get_prop_nullish _ _ _ Hid)) as [line Hline].
  unfold forwardLog. rewrite Hid. simpl.
  destruct (deviceLogClients st !! to_str id) as [info|] eqn:Hinfo.
  - rewrite Hline. simpl. eexists _, line. split; [reflexivity|]. split; [reflexivity|].
    destruct (foldl_send_trace line (sockets info)
                (with_deviceLogClients
                   (insert (to_str id)
                      {| cache := cache_push log (cache info); sockets := sockets info |}) st))
      as [Hs Hp].
    rewrite Hs, Hp. auto.
  - destruct (Device_byId app id) as [device|];
      eexists _, line; (split; [reflexivity|]); (split; [exact Hline|]); auto.
Qed.

Lemma log_event_fan_out_witness :
  let st := run [StreamLogs "team1" "dev1" 1; StreamLogs "team1" "dev1" 2] init in
  exists st',
    forwardLog sample_app (log_event "dev1" "started") st = Ok st'
    /\ socket_sent st' = [(1, VStr "started"); (2, VStr "started")]
    /\ published st' = published st.
Proof.
  intros st.
  destruct (log_event_fan_out sample_app (log_event "dev1" "started") st (VStr "dev1") eq_refl)
    as (st' & line & Hrun & Hline & Hcase).
  injection Hline as <-.
  exists st'. split; [exact Hrun|]. exact Hcase.
Defined.

(** ** Status events *)

Lemma differs_object props k actual :
  differs (VObj props) k actual
  = Ok match assoc k props with
       | Some v => negb (strict_eq v (js_or actual VNull))
       | None => false
       end.
Proof.
  unfold differs. simpl. destruct (assoc k props) as [v|]; reflexivity.
Qed.

(** X8.  With [app.comms] set, a status event of a known device whose
    status parses to an object publishes the "update" command exactly
    when the reported state is "unknown", or the object has a
    [project], [snapshot] or [settings] property that is not strictly
    equal to what the device has (null standing for a missing one); it
    publishes it once however many of these hold, and publishes nothing
    when none holds.  The device is saved in both cases. *)
Theorem update_sent_iff_drift app status st id text device props :
  comms app = true ->
  get_prop status "id" = Ok id -> truthy id = true ->
  get_prop status "status" = Ok text -> truthy text = true ->
  Device_byId app id = Some device ->
  JSON_parse app (to_str text) = Some (VObj props) ->
  let drifted k actual :=
    match assoc k props with
    | Some v => negb (strict_eq v (js_or actual VNull))
    | None => false
    end in
  let needed :=
    strict_eq (default VUndefined (assoc "state" props)) (VStr "unknown")
    || drifted "project" (Project_id device)
    || drifted "snapshot" (targetSnapshot_hashid device)
    || drifted "settings" (settingsHash device) in
  exists st' saved,
    handleStatus app status st = Ok (st', Some saved)
    /\ updateState app device (VObj props) = Ok saved
    /\ core st' = core st
    /\ published st'
       = (published st ++
          if needed then
            [{| topic := "ff/v1/" ++ Team_hashid device ++ "/d/" ++ hashid device
                           ++ "/command";
                body := command_body "update" (update_payload app device) |}]
          else [])%list.
Proof.
  intros Hcomms Hid Htid Htext Httext Hdev Hparse drifted needed.
  destruct (updateState_total app device (VObj props) "state" _ eq_refl) as [saved Hupd].
  destruct (updateState_frame _ _ _ _ Hupd) as (Hh & Ht & Hp & Hn & Hg & Hm).
  assert (handleStatus app status st
          = Ok (if needed then sendDeviceUpdateCommand app saved st else st, Some saved))
    as Hrun.
  { unfold handleStatus. rewrite Hid. simpl. rewrite Htid. simpl.
    rewrite Htext. simpl. rewrite Httext. simpl. rewrite Hdev.
    unfold handleStatus_try, JSON_parse_value. rewrite Hparse. simpl.
    rewrite Hupd. simpl. rewrite !differs_object. simpl.
    rewrite Hp, Hn, Hg. subst needed drifted. simpl.
    destruct (strict_eq _ (VStr "unknown"));
      destruct (match assoc "project" props with Some _ => _ | None => _ end);
      destruct (match assoc "snapshot" props with Some _ => _ | None => _ end);
      destruct (match assoc "settings" props with Some _ => _ | None => _ end);
      reflexivity. }
  eexists _, saved. split; [exact Hrun|]. split; [exact Hupd|].
  clearbody needed. destruct needed.
  - split; [apply core_sendDeviceUpdateCommand|].
    unfold sendDeviceUpdateCommand. rewrite Hcomms. unfold sendCommand. simpl.
    unfold update_payload. rewrite Hh, Ht, Hp, Hn, Hg, Hm. reflexivity.
  - split; [reflexivity|]. rewrite app_nil_r. reflexivity.
Qed.

Lemma update_sent_iff_drift_witness :
  (exists st' saved,
     handleStatus sample_app
       (status_event "dev1" (VObj [("state", VStr "running"); ("project", VStr "proj1");
                                   ("snapshot", VStr "snap1")])) init
     = Ok (st', Some saved)
     /\ published st' = [])
  /\ (exists st' saved,
        handleStatus sample_app
          (status_event "dev1" (VObj [("state", VStr "running"); ("project", VNull);
                                      ("settings", VStr "0ld")])) init
        = Ok (st', Some saved)
        /\ List.length (published st') = 1%nat).
Proof.
  split.
  - destruct (update_sent_iff_drift sample_app
                (status_event "dev1" (VObj [("state", VStr "running");
                                            ("project", VStr "proj1");
                                            ("snapshot", VStr "snap1")])) init
                (VStr "dev1")
                (VStr (Json.stringify (VObj [("state", VStr "running");
                                             ("project", VStr "proj1");
                                             ("snapshot", VStr "snap1")])))
                sample_device
                [("state", VStr "running"); ("project", VStr "proj1");
                 ("snapshot", VStr "snap1")])
      as (st' & saved & Hrun & _ & _ & Hp); try (vm_compute; reflexivity).
    exists st', saved. split; [exact Hrun | exact Hp].
  - destruct (update_sent_iff_drift sample_app
                (status_event "dev1" (VObj [("state", VStr "running"); ("project", VNull);
                                            ("settings", VStr "0ld")])) init
                (VStr "dev1")
                (VStr (Json.stringify (VObj [("state", VStr "running"); ("project", VNull);
                                             ("settings", VStr "0ld")])))
                sample_device
                [("state", VStr "running"); ("project", VNull); ("settings", VStr "0ld")])
      as (st' & saved & Hrun & _ & _ & Hp); try (vm_compute; reflexivity).
    exists st', saved. split; [exact Hrun|]. rewrite Hp. reflexivity.
Defined.

(** X9.  [handleStatus] tolerates what it cannot use: an event without
    an id or without a status, the id of no device, a status that is
    not JSON, and a status that parses to null each end the run without
    an exception, with the state of the handler unchanged and no device
    saved. *)
Theorem unusable_status_ignored app status st id text :
  get_prop status "id" = Ok id ->
  get_prop status "status" = Ok text ->
  truthy id = false \/ truthy text = false \/ Device_byId app id = None
    \/ JSON_parse app (to_str text) = None
    \/ JSON_parse app (to_str text) = Some VNull ->
  handleStatus app status st = Ok (st, None).
Proof.
  intros Hid Htext Hbad. unfold handleStatus. rewrite Hid. simpl.
  destruct (truthy id); simpl; [|reflexivity].
  rewrite Htext. simpl. destruct (truthy text); simpl; [|reflexivity].
  destruct (Device_byId app id) as [device|]; [|reflexivity].
  destruct Hbad as [H | [H | [H | [H | H]]]]; try discriminate;
    unfold handleStatus_try, JSON_parse_value; rewrite H; reflexivity.
Qed.

Lemma unusable_status_ignored_witness :
  handleStatus sample_app (VObj [("id", VStr "dev1"); ("status", VStr "not json")]) init
  = Ok (init, None).
Proof.
  apply (unusable_status_ignored sample_app
           (VObj [("id", VStr "dev1"); ("status", VStr "not json")]) init
           (VStr "dev1") (VStr "not json")); [reflexivity | reflexivity |].
  right. right. right. left. vm_compute. reflexivity.
Defined.

(** X10.  What [updateState] does to the active snapshot in the cases
    other than a vanished reference: a truthy reference that decodes to
    ids and whose snapshot exists makes the decoded ids the active
    snapshot; a payload with no (or a falsy) reference sets the active
    snapshot to null unless [device.currentSnapshot] is exactly null.
    On a payload that is null the function throws. *)
Theorem updateState_active_snapshot app device payload snapshot :
  get_prop payload "snapshot" = Ok snapshot ->
  (exists saved,
     updateState app device payload = Ok saved
     /\ lastSeenAt saved = CURRENT_TIMESTAMP
     /\ activeSnapshotId saved
        = if truthy snapshot then
            if (0 <? List.length (ProjectSnapshot_decodeHashid app snapshot))%nat
               && ProjectSnapshot_byId app snapshot
            then VArr (map VNum (ProjectSnapshot_decodeHashid app snapshot))
            else activeSnapshotId device
          else
            if strict_eq (currentSnapshot device) VNull
            then activeSnapshotId device
            else VNull)
  /\ updateState app device VNull = Throw TypeError.
Proof.
  intros Hsnap. split; [|reflexivity].
  destruct (get_prop payload "state") as [s|] eqn:Hs; [|destruct payload; discriminate].
  destruct (get_prop payload "agentVersion") as [v|] eqn:Hv;
    [|destruct payload; discriminate].
  unfold updateState. rewrite Hs. simpl. rewrite Hv. simpl. rewrite Hsnap. simpl.
  destruct (truthy snapshot); simpl.
  - destruct (0 <? _)%nat; simpl; [destruct (ProjectSnapshot_byId app snapshot)|];
      eexists; (split; [reflexivity|]);
      destruct (truthy s), (truthy v); simpl; auto.
  - destruct (strict_eq (currentSnapshot _) VNull) eqn:Hcur; simpl;
      eexists; (split; [reflexivity|]);
      destruct (truthy s), (truthy v); simpl in *; rewrite ?Hcur; auto.
Qed.

Lemma updateState_active_snapshot_witness :
  exists saved,
    updateState sample_app sample_device (VObj [("state", VStr "running")]) = Ok saved
    /\ activeSnapshotId saved = VNull.
Proof.
  destruct (updateState_active_snapshot sample_app sample_device
              (VObj [("state", VStr "running")]) VUndefined eq_refl)
    as [(saved & Hrun & _ & Hactive) _].
  exists saved. split; [exact Hrun | exact Hactive].
Defined.

(** ** The message of a command *)

Lemma assoc_obj_set k k' v l :
  assoc k (obj_set k' v l) = if String.eqb k k' then Some v else assoc k l.
Proof.
  induction l as [|[k0 v0] l IH]; simpl.
  - destruct (String.eqb k k'); reflexivity.
  - destruct (String.eqb_spec k' k0) as [-> | Hne]; simpl.
    + destruct (String.eqb k k0); reflexivity.
    + rewrite IH. destruct (String.eqb_spec k k0) as [-> | Hne'].
      * destruct (String.eqb_spec k0 k'); [congruence | reflexivity].
      * reflexivity.
Qed.

Lemma assoc_app k l1 l2 :
  assoc k (l1 ++ l2) = match assoc k l1 with Some v => Some v | None => assoc k l2 end.
Proof.
  induction l1 as [|[k0 v0] l1 IH]; simpl; [reflexivity|].
  destruct (String.eqb k k0); [reflexivity | exact IH].
Qed.

Lemma assoc_foldl_obj_set k props : forall acc,
  assoc k (foldl (fun acc kv => obj_set kv.1 kv.2 acc) acc props)
  = match assoc k (reverse props) with Some v => Some v | None => assoc k acc end.
Proof.
  induction props as [|[k0 v0] props IH]; intros acc; simpl; [reflexivity|].
  rewrite IH, reverse_cons, assoc_app, assoc_obj_set. simpl.
  destruct (assoc k (reverse props)); [reflexivity|].
  destruct (String.eqb k k0); reflexivity.
Qed.

(** X11.  [sendCommand] publishes one message on the command topic of
    the device, and the properties of an object payload are merged into
    that message beside [command]: reading a property of the message
    gives the payload's value for it (the last one, should the payload
    list it twice), so a payload property named [command] replaces the
    command name; without one, [command] is the command name. *)
Theorem payload_merged_into_message teamId deviceId cmd props st :
  exists message,
    published (sendCommand teamId deviceId cmd (VObj props) st)
    = (published st ++
       [{| topic := "ff/v1/" ++ teamId ++ "/d/" ++ deviceId ++ "/command";
           body := message |}])%list
    /\ forall k,
         get_prop message k
         = Ok match assoc k (reverse props) with
              | Some v => v
              | None => if String.eqb k "command" then VStr cmd else VUndefined
              end.
Proof.
  eexists. split; [reflexivity|]. intros k. unfold command_body. simpl.
  rewrite assoc_foldl_obj_set. simpl.
  destruct (assoc k (reverse props)); [reflexivity|].
  destruct (String.eqb k "command"); reflexivity.
Qed.

(** ** Splitting topics and usernames *)
Section Splitting.
Import AclManager.

Lemma append_cons c s t : String c s ++ t = String c (s ++ t).
Proof. reflexivity. Qed.

Lemma split_on_not_nil sep s : split_on sep s <> [].
Proof.
  destruct s as [|c r]; simpl; [discriminate|].
  destruct (Ascii.eqb c sep); [discriminate|].
  destruct (split_on sep r); discriminate.
Qed.

Lemma split_on_app sep a b :
  occurs sep a = false ->
  split_on sep (a ++ String sep b) = a :: split_on sep b.
Proof.
  induction a as [|c a IH]; intros Hocc.
  - change ("" ++ String sep b) with (String sep b). simpl.
    rewrite Ascii.eqb_refl. reflexivity.
  - simpl in Hocc. apply orb_false_iff in Hocc as [Hc Ha].
    rewrite append_cons. simpl. rewrite Hc, (IH Ha). reflexivity.
Qed.

Lemma split_on_whole sep a : occurs sep a = false -> split_on sep a = [a].
Proof.
  induction a as [|c a IH]; intros Hocc; [reflexivity|].
  simpl in Hocc. apply orb_false_iff in Hocc as [Hc Ha].
  simpl. rewrite Hc, (IH Ha). reflexivity.
Qed.

Lemma split_on_parts sep s : Forall (fun part => occurs sep part = false) (split_on sep s).
Proof.
  induction s as [|c r IH]; simpl; [repeat constructor|].
  destruct (Ascii.eqb c sep) eqn:Hc; [constructor; [reflexivity | exact IH]|].
  destruct (split_on sep r) as [|h t]; [repeat constructor; simpl; rewrite Hc; reflexivity|].
  apply Forall_cons in IH as [Hh Ht]. constructor; [|exact Ht].
  simpl. rewrite Hc, Hh. reflexivity.
Qed.

(** Joining the parts with the separator gives the text back. *)
Lemma join_split_on sep s : join (String sep "") (split_on sep s) = s.
Proof.
  induction s as [|c r IH]; [reflexivity|]. simpl.
  pose proof (split_on_not_nil sep r) as Hne.
  destruct (Ascii.eqb_spec c sep) as [-> | Hc].
  - destruct (split_on sep r) as [|h t]; [contradiction|].
    change (join (String sep "") ("" :: h :: t))
      with (String sep (join (String sep "") (h :: t))).
    rewrite IH. reflexivity.
  - destruct (split_on sep r) as [|h t]; [contradiction|].
    destruct t as [|h' t].
    + simpl in *. rewrite IH. reflexivity.
    + change (join (String sep "") (String c h :: h' :: t))
        with (String c (join (String sep "") (h :: h' :: t))).
      rewrite IH. reflexivity.
Qed.

Lemma split_topic_of team owner object message :
  occurs "/" team = false -> occurs "/" owner = false ->
  occurs "/" object = false -> occurs "/" message = false ->
  split_on "/" (topic_of team owner object message)
  = ["ff"; "v1"; team; owner; object; message].
Proof.
  intros Ht Hk Ho Hm. unfold topic_of.
  change ("ff/v1/" ++ team ++ "/" ++ owner ++ "/" ++ object ++ "/" ++ message)
    with ("ff" ++ String "/" ("v1" ++ String "/" (team ++ String "/" (owner ++ String "/"
            (object ++ String "/" message))))).
  rewrite !split_on_app by (assumption || reflexivity).
  rewrite split_on_whole by assumption. reflexivity.
Qed.

(** What a core pattern does on a topic of the six-part shape. *)
Lemma topic_pattern_topic_of owner message groups team k object m :
  occurs "/" team = false -> occurs "/" k = false ->
  occurs "/" object = false -> occurs "/" m = false ->
  topic_pattern owner message groups (topic_of team k object m)
  = if negb (String.eqb team "") && String.eqb k owner
       && negb (String.eqb object "") && String.eqb m message
    then Some (VStr (topic_of team k object m)
                 :: if groups then [VStr team; VStr object] else [])
    else None.
Proof.
  intros Ht Hk Ho Hm. unfold topic_pattern.
  rewrite split_topic_of by assumption.
  change (String.eqb "ff" "ff") with true. change (String.eqb "v1" "v1") with true.
  reflexivity.
Qed.

(** A topic a core pattern matches has the six-part shape. *)
Lemma topic_pattern_inv owner message groups topic m :
  topic_pattern owner message groups topic = Some m ->
  exists team object,
    topic = topic_of team owner object message
    /\ team <> "" /\ object <> ""
    /\ occurs "/" team = false /\ occurs "/" object = false
    /\ m = VStr topic :: if groups then [VStr team; VStr object] else [].
Proof.
  unfold topic_pattern. intros Hm.
  pose proof (join_split_on "/" topic) as Hjoin.
  pose proof (split_on_parts "/" topic) as Hparts.
  destruct (split_on "/" topic) as [|ff [|v1 [|team [|o [|object [|msg [|? ?]]]]]]];
    simpl in Hm; try discriminate.
  destruct (String.eqb_spec ff "ff") as [Hff |]; [|discriminate].
  destruct (String.eqb_spec v1 "v1") as [Hv1 |]; [|discriminate].
  destruct (String.eqb_spec team "") as [|Hteam]; [discriminate|].
  destruct (String.eqb_spec o owner) as [Howner |]; [|discriminate].
  destruct (String.eqb_spec object "") as [|Hobject]; [discriminate|].
  destruct (String.eqb_spec msg message) as [Hmsg |]; [|discriminate].
  simpl in Hm. injection Hm as <-. subst ff v1 o msg.
  exists team, object.
  apply Forall_cons in Hparts as [_ Hparts]. apply Forall_cons in Hparts as [_ Hparts].
  apply Forall_cons in Hparts as [Ht Hparts]. apply Forall_cons in Hparts as [_ Hparts].
  apply Forall_cons in Hparts as [Ho _].
  split; [|auto]. rewrite <- Hjoin. reflexivity.
Qed.

Lemma split_username class team object :
  occurs ":" class = false -> occurs ":" team = false -> occurs ":" object = false ->
  split_on ":" (class ++ ":" ++ team ++ ":" ++ object) = [class; team; object].
Proof.
  intros Hc Ht Ho.
  change (class ++ ":" ++ team ++ ":" ++ object)
    with (class ++ String ":" (team ++ String ":" object)).
  rewrite !split_on_app by assumption. rewrite split_on_whole by assumption. reflexivity.
Qed.

End Splitting.

(** ** The core rule sets *)
Section CoreRules.
Import AclManager.

Variable app : App.

Lemma strict_eq_VStr a b : strict_eq (VStr a) (VStr b) = String.eqb a b.
Proof. reflexivity. Qed.

(** Every core rule has a six-part pattern and is not flagged shared. *)
Lemma core_rules_shape scope action :
  Forall (fun acl => ACL.shared acl = false
                     /\ exists owner message groups,
                          ACL.topic acl = topic_pattern owner message groups)
         (ACLS scope action).
Proof.
  destruct scope, action; repeat constructor; simpl; eauto.
Qed.

Lemma scan_shared_unshared aclList topic usernameParts :
  Forall (fun acl => ACL.shared acl = false) aclList ->
  scan app aclList true topic usernameParts = VBool false.
Proof.
  induction 1 as [|acl l Hacl _ IH]; simpl; [reflexivity|].
  destruct (ACL.topic acl topic); [|exact IH].
  unfold verdict. rewrite Hacl. reflexivity.
Qed.

(** No core pattern matches a topic in the shared-subscription
    envelope. *)
Lemma envelope_not_core topic groups owner message g :
  SHARED_SUB_exec topic = Some groups ->
  topic_pattern owner message g topic = None.
Proof.
  intros Henv.
  destruct (topic_pattern owner message g topic) as [m|] eqn:Hm; [|reflexivity].
  apply topic_pattern_inv in Hm as (team & object & -> & _).
  discriminate Henv.
Qed.

(** With the core rule sets, access comes down to the scan of the rules
    of the class on the topic as it is. *)
Lemma verify_core username topic accessLevel scope :
  scope_of username = Some scope ->
  truthy (verify app ACLS username topic accessLevel)
  = truthy (scan app (ACLS scope (if strict_eq accessLevel (VNum 2) then pub else sub))
              false topic (map VStr (split_on ":" username))).
Proof.
  intros Hscope. unfold verify. rewrite Hscope.
  set (aclType := if strict_eq accessLevel (VNum 2) then pub else sub).
  assert ((0 <? List.length (ACLS scope aclType))%nat = true) as ->
    by (destruct scope, aclType; reflexivity).
  destruct aclType; [|reflexivity].
  destruct (SHARED_SUB_exec topic) as [[shareGroup inner]|] eqn:Henv; [|reflexivity].
  assert (scan app (ACLS scope sub) false topic (map VStr (split_on ":" username))
          = VBool false) as ->.
  { apply scan_no_match. eapply Forall_impl; [apply core_rules_shape|].
    intros acl (_ & owner & message & g & ->). eapply envelope_not_core; eauto. }
  destruct (negb _); [reflexivity|].
  rewrite scan_shared_unshared; [reflexivity|].
  eapply Forall_impl; [apply core_rules_shape|]. intros acl [Hacl _]. exact Hacl.
Qed.

(** The verdict of a core rule that checks team and object ids. *)
Lemma checked_verdict owner message topic team object class T O :
  verdict app (checked owner message "checkTeamAndObjectIds") false
    [VStr topic; VStr team; VStr object] [VStr class; VStr T; VStr O]
  = VBool (String.eqb team T && String.eqb object O).
Proof. reflexivity. Qed.

(** The scan of a list of such rules grants only topics of the
    identity's own team and object... *)
Lemma scan_checked_only rules class T O topic :
  truthy (scan app (map (fun rule => checked rule.1 rule.2 "checkTeamAndObjectIds") rules)
            false topic [VStr class; VStr T; VStr O]) = true ->
  exists rule, rule ∈ rules /\ topic = topic_of T rule.1 O rule.2
               /\ T <> "" /\ O <> "" /\ occurs "/" T = false /\ occurs "/" O = false.
Proof.
  induction rules as [|[owner message] rules IH]; simpl; [discriminate|].
  destruct (topic_pattern owner message true topic) as [m|] eqn:Hmatch.
  - apply topic_pattern_inv in Hmatch as (team & object & -> & Ht & Ho & Hst & Hso & ->).
    rewrite checked_verdict. intros Hok.
    change (truthy (VBool (String.eqb team T && String.eqb object O)))
      with (String.eqb team T && String.eqb object O) in Hok.
    apply andb_true_iff in Hok as [HT HO].
    apply String.eqb_eq in HT, HO. subst.
    exists (owner, message). split; [left|]. auto.
  - intros Hok. destruct (IH Hok) as (rule & Hin & Heq).
    exists rule. split; [right; exact Hin | exact Heq].
Qed.

(** ... and all of them. *)
Lemma scan_checked_all rules class T O rule :
  Forall (fun rule => occurs "/" rule.1 = false /\ occurs "/" rule.2 = false) rules ->
  T <> "" -> O <> "" -> occurs "/" T = false -> occurs "/" O = false ->
  rule ∈ rules ->
  scan app (map (fun rule => checked rule.1 rule.2 "checkTeamAndObjectIds") rules)
    false (topic_of T rule.1 O rule.2) [VStr class; VStr T; VStr O]
  = VBool true.
Proof.
  intros Hrules HT HO HsT HsO Hin.
  assert (occurs "/" rule.1 = false /\ occurs "/" rule.2 = false) as [Hr1 Hr2].
  { rewrite Forall_forall in Hrules. apply Hrules, Hin. }
  induction rules as [|[owner message] rules IH]; [inversion Hin|]. simpl.
  rewrite topic_pattern_topic_of by assumption.
  destruct (String.eqb_spec T "") as [|_]; [contradiction|].
  destruct (String.eqb_spec O "") as [|_]; [contradiction|]. simpl.
  destruct (String.eqb_spec rule.1 owner) as [H1|H1]; simpl.
  - destruct (String.eqb_spec rule.2 message) as [H2|H2]; simpl.
    + rewrite checked_verdict, !String.eqb_refl. reflexivity.
    + apply Forall_cons in Hrules as [_ Hrules]. apply IH; [exact Hrules|].
      apply elem_of_cons in Hin as [-> | Hin]; [contradiction H2; reflexivity | exact Hin].
  - apply Forall_cons in Hrules as [_ Hrules]. apply IH; [exact Hrules|].
    apply elem_of_cons in Hin as [-> | Hin]; [contradiction H1; reflexivity | exact Hin].
Qed.

Lemma username_parts class T O :
  occurs ":" class = false -> occurs ":" T = false -> occurs ":" O = false ->
  map VStr (split_on ":" (class ++ ":" ++ T ++ ":" ++ O)) = [VStr class; VStr T; VStr O].
Proof. intros. rewrite split_username by assumption. reflexivity. Qed.

Lemma prefix_append p s : String.prefix p (p ++ s) = true.
Proof.
  induction p as [|c p IH].
  - destruct s; reflexivity.
  - rewrite append_cons. simpl. destruct (ascii_dec c c); [exact IH | contradiction].
Qed.

Lemma scope_of_project rest : scope_of ("project:" ++ rest) = Some project.
Proof.
  unfold scope_of. rewrite prefix_append.
  destruct (String.eqb_spec ("project:" ++ rest) "forge_platform"); [discriminate|].
  reflexivity.
Qed.

Lemma scope_of_device rest : scope_of ("device:" ++ rest) = Some device.
Proof.
  unfold scope_of. rewrite prefix_append.
  destruct (String.eqb_spec ("device:" ++ rest) "forge_platform"); [discriminate|].
  reflexivity.
Qed.

(** What a project runtime may publish on is its own status topic. *)
Lemma project_publish_inv T P topic :
  id_ok T -> id_ok P ->
  truthy (verify app ACLS ("project:" ++ T ++ ":" ++ P) topic (VNum 2)) = true ->
  topic = topic_of T "l" P "status".
Proof.
  intros (HT & HsT & HcT) (HP & HsP & HcP).
  rewrite (verify_core _ _ _ project) by apply scope_of_project.
  change ("project:" ++ T ++ ":" ++ P) with ("project" ++ ":" ++ T ++ ":" ++ P).
  rewrite username_parts by (assumption || reflexivity).
  change (strict_eq (VNum 2) (VNum 2)) with true. cbv iota.
  change (ACLS project pub)
    with (map (fun rule => checked rule.1 rule.2 "checkTeamAndObjectIds")
              [("l", "status")]).
  intros Hok. apply scan_checked_only in Hok as (rule & Hin & -> & _).
  apply list_elem_of_singleton in Hin as ->. reflexivity.
Qed.

(** X12.  With the core rule sets, a project runtime [project:T:P] may
    publish on exactly one topic, its own status topic
    [ff/v1/T/l/P/status], and may subscribe to exactly one, its own
    command topic [ff/v1/T/l/P/command]: no topic of another team or of
    another project is granted. *)
Theorem project_access_own_topics T P topic accessLevel :
  id_ok T -> id_ok P ->
  truthy (verify app ACLS ("project:" ++ T ++ ":" ++ P) topic accessLevel) = true
  <-> topic = topic_of T "l" P (if strict_eq accessLevel (VNum 2) then "status" else "command").
Proof.
  intros (HT & HsT & HcT) (HP & HsP & HcP).
  rewrite (verify_core _ _ _ project) by apply scope_of_project.
  change ("project:" ++ T ++ ":" ++ P) with ("project" ++ ":" ++ T ++ ":" ++ P).
  rewrite username_parts by (assumption || reflexivity).
  destruct (strict_eq accessLevel (VNum 2)).
  - change (ACLS project pub)
      with (map (fun rule => checked rule.1 rule.2 "checkTeamAndObjectIds")
                [("l", "status")]).
    split.
    + intros Hok. apply scan_checked_only in Hok as (rule & Hin & -> & _).
      apply list_elem_of_singleton in Hin as ->. reflexivity.
    + intros ->.
      pose proof (scan_checked_all [("l", "status")] "project" T P ("l", "status")) as Hall.
      cbn [fst snd] in Hall. rewrite Hall; try assumption;
        [reflexivity | repeat constructor | left].
  - change (ACLS project sub)
      with (map (fun rule => checked rule.1 rule.2 "checkTeamAndObjectIds")
                [("l", "command")]).
    split.
    + intros Hok. apply scan_checked_only in Hok as (rule & Hin & -> & _).
      apply list_elem_of_singleton in Hin as ->. reflexivity.
    + intros ->.
      pose proof (scan_checked_all [("l", "command")] "project" T P ("l", "command")) as Hall.
      cbn [fst snd] in Hall. rewrite Hall; try assumption;
        [reflexivity | repeat constructor | left].
Qed.

(** What a device may publish on is one of its own three topics. *)
Lemma device_publish_inv T D topic :
  id_ok T -> id_ok D ->
  truthy (verify app ACLS ("device:" ++ T ++ ":" ++ D) topic (VNum 2)) = true ->
  exists m, m ∈ ["status"; "logs"; "response"] /\ topic = topic_of T "d" D m.
Proof.
  intros (HT & HsT & HcT) (HD & HsD & HcD).
  rewrite (verify_core _ _ _ device) by apply scope_of_device.
  change ("device:" ++ T ++ ":" ++ D) with ("device" ++ ":" ++ T ++ ":" ++ D).
  rewrite username_parts by (assumption || reflexivity).
  change (strict_eq (VNum 2) (VNum 2)) with true. cbv iota.
  change (ACLS device pub)
    with (map (fun rule => checked rule.1 rule.2 "checkTeamAndObjectIds")
              [("d", "status"); ("d", "logs"); ("d", "response")]).
  intros Hok. apply scan_checked_only in Hok as (rule & Hin & -> & _).
  repeat (apply elem_of_cons in Hin as [-> | Hin]);
    [exists "status" | exists "logs" | exists "response" | inversion Hin];
    (split; [set_solver | reflexivity]).
Qed.

(** ... and each of them is granted. *)
Lemma device_publish_granted T D m :
  id_ok T -> id_ok D -> m ∈ ["status"; "logs"; "response"] ->
  truthy (verify app ACLS ("device:" ++ T ++ ":" ++ D) (topic_of T "d" D m) (VNum 2)) = true.
Proof.
  intros (HT & HsT & HcT) (HD & HsD & HcD) Hin.
  rewrite (verify_core _ _ _ device) by apply scope_of_device.
  change ("device:" ++ T ++ ":" ++ D) with ("device" ++ ":" ++ T ++ ":" ++ D).
  rewrite username_parts by (assumption || reflexivity).
  change (strict_eq (VNum 2) (VNum 2)) with true. cbv iota.
  change (ACLS device pub)
    with (map (fun rule => checked rule.1 rule.2 "checkTeamAndObjectIds")
              [("d", "status"); ("d", "logs"); ("d", "response")]).
  pose proof (scan_checked_all [("d", "status"); ("d", "logs"); ("d", "response")]
                "device" T D ("d", m)) as Hall.
  cbn [fst snd] in Hall. rewrite Hall; try assumption; [reflexivity | repeat constructor |].
  repeat (apply elem_of_cons in Hin as [-> | Hin]); [set_solver.. | inversion Hin].
Qed.

(** X13.  With the core rule sets, a device [device:T:D] may publish on
    exactly three topics: its own status, logs and response topics
    [ff/v1/T/d/D/...]. *)
Theorem device_publish_own_topics T D topic :
  id_ok T -> id_ok D ->
  truthy (verify app ACLS ("device:" ++ T ++ ":" ++ D) topic (VNum 2)) = true
  <-> exists m, m ∈ ["status"; "logs"; "response"] /\ topic = topic_of T "d" D m.
Proof.
  intros HidT HidD. split; [apply device_publish_inv; assumption|].
  intros (m & Hin & ->). apply device_publish_granted; assumption.
Qed.

Lemma strict_eq_VStr_inv v s : strict_eq v (VStr s) = true -> v = VStr s.
Proof.
  unfold strict_eq. destruct v; try discriminate.
  intros Heq. apply String.eqb_eq in Heq. congruence.
Qed.

(** The verdict of the core rule for the broadcast topic. *)
Lemma assigned_verdict owner message topic team object class T O :
  verdict app (checked owner message "checkDeviceAssignedToProject") false
    [VStr topic; VStr team; VStr object] [VStr class; VStr T; VStr O]
  = if negb (String.eqb team T) then VBool false
    else js_and (getDeviceProjectId app (VStr O))
           (VBool (strict_eq (getDeviceProjectId app (VStr O)) (VStr object))).
Proof. reflexivity. Qed.

(** The scan of the rules a device subscribes under. *)
Lemma device_sub_scan T D topic :
  T <> "" -> D <> "" -> occurs "/" T = false -> occurs "/" D = false ->
  truthy (scan app (ACLS device sub) false topic [VStr "device"; VStr T; VStr D]) = true
  <-> topic = topic_of T "d" D "command"
      \/ exists P, getDeviceProjectId app (VStr D) = VStr P
                   /\ P <> "" /\ occurs "/" P = false
                   /\ topic = topic_of T "p" P "command".
Proof.
  intros HT HD HsT HsD.
  change (ACLS device sub)
    with [checked "d" "command" "checkTeamAndObjectIds";
          checked "p" "command" "checkDeviceAssignedToProject"].
  simpl. split.
  - destruct (topic_pattern "d" "command" true topic) as [m|] eqn:Hd.
    + apply topic_pattern_inv in Hd as (team & object & -> & _ & _ & _ & _ & ->).
      rewrite checked_verdict. intros Hok.
      change (truthy (VBool (String.eqb team T && String.eqb object D)))
        with (String.eqb team T && String.eqb object D) in Hok.
      apply andb_true_iff in Hok as [Ht Ho]. apply String.eqb_eq in Ht, Ho. subst.
      left. reflexivity.
    + destruct (topic_pattern "p" "command" true topic) as [m|] eqn:Hp; [|discriminate].
      apply topic_pattern_inv in Hp as (team & object & -> & _ & Ho & _ & Hso & ->).
      rewrite assigned_verdict.
      destruct (String.eqb_spec team T) as [-> | _]; [|discriminate]. simpl.
      unfold js_and. destruct (truthy (getDeviceProjectId app (VStr D))) eqn:Hassigned;
        [|rewrite Hassigned; discriminate].
      intros Hok. apply strict_eq_VStr_inv in Hok.
      right. exists object. auto.
  - intros [-> | (P & Hassigned & HP & HsP & ->)].
    + rewrite topic_pattern_topic_of by (assumption || reflexivity).
      destruct (String.eqb_spec T "") as [|_]; [contradiction|].
      destruct (String.eqb_spec D "") as [|_]; [contradiction|]. simpl.
      rewrite checked_verdict, !String.eqb_refl. reflexivity.
    + rewrite !topic_pattern_topic_of by (assumption || reflexivity).
      destruct (String.eqb_spec T "") as [|_]; [contradiction|].
      destruct (String.eqb_spec P "") as [|_]; [contradiction|]. simpl.
      rewrite assigned_verdict, String.eqb_refl, Hassigned. simpl.
      unfold js_and. unfold truthy at 2.
      destruct (String.eqb_spec P "") as [|_]; [contradiction|]. simpl.
      rewrite strict_eq_VStr_refl. reflexivity.
Qed.

(** X14.  With the core rule sets, a device [device:T:D] may subscribe
    to its own command topic [ff/v1/T/d/D/command] and to the broadcast
    topic [ff/v1/T/p/P/command] of the project [P] it is assigned to,
    and to nothing else: not to the broadcast topic of another project,
    of another team, or of any project when it is assigned to none. *)
Theorem device_subscribe_topics T D topic accessLevel :
  id_ok T -> id_ok D -> strict_eq accessLevel (VNum 2) = false ->
  truthy (verify app ACLS ("device:" ++ T ++ ":" ++ D) topic accessLevel) = true
  <-> topic = topic_of T "d" D "command"
      \/ exists P, getDeviceProjectId app (VStr D) = VStr P
                   /\ P <> "" /\ occurs "/" P = false
                   /\ topic = topic_of T "p" P "command".
Proof.
  intros (HT & HsT & HcT) (HD & HsD & HcD) Hacc.
  rewrite (verify_core _ _ _ device) by apply scope_of_device.
  change ("device:" ++ T ++ ":" ++ D) with ("device" ++ ":" ++ T ++ ":" ++ D).
  rewrite username_parts by (assumption || reflexivity).
  rewrite Hacc. apply device_sub_scan; assumption.
Qed.

(** X15.  The core rule sets grant no shared subscription: a topic in
    the envelope [$share/<group>/<topic>] is refused to every identity
    and at every access level, whatever the group and the inner topic
    are. *)
Theorem core_rules_refuse_shared_subscription username topic accessLevel groups :
  SHARED_SUB_exec topic = Some groups ->
  truthy (verify app ACLS username topic accessLevel) = false.
Proof.
  intros Henv. destruct (scope_of username) as [scope|] eqn:Hscope.
  - rewrite (verify_core _ _ _ scope) by exact Hscope.
    rewrite scan_no_match; [reflexivity|].
    eapply Forall_impl; [apply core_rules_shape|].
    intros acl (_ & owner & message & g & ->). eapply envelope_not_core; eauto.
  - unfold verify. rewrite Hscope. reflexivity.
Qed.

(** A scan that grants access ends inside the list: rules after it are
    not consulted. *)
Lemma scan_app_granted aclList more isSharedSub topic usernameParts :
  truthy (scan app aclList isSharedSub topic usernameParts) = true ->
  scan app (aclList ++ more) isSharedSub topic usernameParts
  = scan app aclList isSharedSub topic usernameParts.
Proof.
  induction aclList as [|acl l IH]; simpl; [discriminate|].
  destruct (ACL.topic acl topic); [reflexivity | exact IH].
Qed.

(** X16.  [addACL] never takes access away: a request that is granted
    is granted, with the same result, after any rule has been added to
    any rule set. *)
Theorem addACL_keeps_grants acls scope action acl username topic accessLevel :
  truthy (verify app acls username topic accessLevel) = true ->
  verify app (addACL scope action acl acls) username topic accessLevel
  = verify app acls username topic accessLevel.
Proof.
  unfold verify, addACL.
  destruct (scope_of username) as [s|]; [|reflexivity].
  set (aclType := if strict_eq accessLevel (VNum 2) then pub else sub).
  destruct (decide (s = scope /\ aclType = action)) as [_|_]; [|reflexivity].
  destruct (acls s aclType) as [|r l] eqn:Hlist; [discriminate|].
  change ((0 <? List.length (r :: l))%nat) with true.
  assert ((0 <? List.length ((r :: l) ++ [acl]))%nat = true) as -> by reflexivity.
  cbv iota.
  destruct aclType.
  - destruct (SHARED_SUB_exec topic) as [[shareGroup inner]|].
    + destruct (negb _); [discriminate|]. apply scan_app_granted.
    + apply scan_app_granted.
  - apply scan_app_granted.
Qed.

End CoreRules.

Lemma project_access_own_topics_witness :
  id_ok "team1" /\ id_ok "proj1"
  /\ truthy (AclManager.verify sample_app AclManager.ACLS "project:team1:proj1"
               "ff/v1/team1/l/proj1/status" (VNum 2)) = true.
Proof.
  assert (id_ok "team1") as HT by (repeat split; (discriminate || reflexivity)).
  assert (id_ok "proj1") as HP by (repeat split; (discriminate || reflexivity)).
  split; [exact HT|]. split; [exact HP|].
  apply (project_access_own_topics sample_app "team1" "proj1"
           "ff/v1/team1/l/proj1/status" (VNum 2) HT HP).
  reflexivity.
Defined.

Lemma device_publish_own_topics_witness :
  id_ok "team1" /\ id_ok "dev1"
  /\ truthy (AclManager.verify sample_app AclManager.ACLS "device:team1:dev1"
               "ff/v1/team1/d/dev1/logs" (VNum 2)) = true.
Proof.
  assert (id_ok "team1") as HT by (repeat split; (discriminate || reflexivity)).
  assert (id_ok "dev1") as HD by (repeat split; (discriminate || reflexivity)).
  split; [exact HT|]. split; [exact HD|].
  apply (device_publish_own_topics sample_app "team1" "dev1"
           "ff/v1/team1/d/dev1/logs" HT HD).
  exists "logs". split; [set_solver | reflexivity].
Defined.

Lemma device_subscribe_topics_witness :
  id_ok "team1" /\ id_ok "dev1"
  /\ truthy (AclManager.verify sample_app AclManager.ACLS "device:team1:dev1"
               "ff/v1/team1/p/proj1/command" (VNum 1)) = true.
Proof.
  assert (id_ok "team1") as HT by (repeat split; (discriminate || reflexivity)).
  assert (id_ok "dev1") as HD by (repeat split; (discriminate || reflexivity)).
  split; [exact HT|]. split; [exact HD|].
  apply (device_subscribe_topics sample_app "team1" "dev1"
           "ff/v1/team1/p/proj1/command" (VNum 1) HT HD); [reflexivity|].
  right. exists "proj1". repeat split; (discriminate || reflexivity).
Defined.

Lemma core_rules_refuse_shared_subscription_witness :
  AclManager.SHARED_SUB_exec "$share/dev1/ff/v1/team1/d/dev1/command"
  = Some ("dev1", "ff/v1/team1/d/dev1/command")
  /\ truthy (AclManager.verify sample_app AclManager.ACLS "device:team1:dev1"
               "$share/dev1/ff/v1/team1/d/dev1/command" (VNum 1)) = false.
Proof.
  split; [reflexivity|].
  apply (core_rules_refuse_shared_subscription sample_app "device:team1:dev1"
           "$share/dev1/ff/v1/team1/d/dev1/command" (VNum 1)
           ("dev1", "ff/v1/team1/d/dev1/command")).
  reflexivity.
Defined.

Lemma addACL_keeps_grants_witness :
  let acl := {| AclManager.ACL.topic := AclManager.topic_pattern "d" "command" true;
                AclManager.ACL.verify := Some "checkTeamId";
                AclManager.ACL.shared := true |} in
  truthy (AclManager.verify sample_app AclManager.ACLS "device:team1:dev1"
            "ff/v1/team1/d/dev1/command" (VNum 1)) = true
  /\ AclManager.verify sample_app
       (AclManager.addACL AclManager.device AclManager.sub acl AclManager.ACLS)
       "device:team1:dev1" "ff/v1/team1/d/dev1/command" (VNum 1)
     = AclManager.verify sample_app AclManager.ACLS "device:team1:dev1"
         "ff/v1/team1/d/dev1/command" (VNum 1).
Proof.
  intros acl. split; [reflexivity|].
  apply (addACL_keeps_grants sample_app AclManager.ACLS AclManager.device AclManager.sub acl
           "device:team1:dev1" "ff/v1/team1/d/dev1/command" (VNum 1)).
  reflexivity.
Defined.

(** ** Topics: what is sent, who may read it, what comes back *)
Section Routing.
Import AclManager.

Variable app : App.

Lemma topic_of_inj t o b m t' o' b' m' :
  occurs "/" t = false -> occurs "/" o = false ->
  occurs "/" b = false -> occurs "/" m = false ->
  occurs "/" t' = false -> occurs "/" o' = false ->
  occurs "/" b' = false -> occurs "/" m' = false ->
  topic_of t o b m = topic_of t' o' b' m' ->
  t = t' /\ o = o' /\ b = b' /\ m = m'.
Proof.
  intros Ht Ho Hb Hm Ht' Ho' Hb' Hm' Heq.
  apply (f_equal (split_on "/")) in Heq.
  rewrite !split_topic_of in Heq by assumption.
  injection Heq as -> -> -> ->. auto.
Qed.

(** The listener on a topic of the six-part shape. *)
Lemma on_message_topic_of team owner object m message :
  occurs "/" team = false -> occurs "/" owner = false ->
  occurs "/" object = false -> occurs "/" m = false ->
  on_message (topic_of team owner object m) message
  = if String.eqb owner "p" then
      Some ("status/project", VObj [("id", VStr object); ("status", VStr message)])
    else if String.eqb owner "d" then
      if String.eqb m "status" then
        Some ("status/device", VObj [("id", VStr object); ("status", VStr message)])
      else if String.eqb m "logs" then
        Some ("logs/device", VObj [("id", VStr object); ("logs", VStr message)])
      else if String.eqb m "response" then
        Some ("response/device", VObj [("id", VStr object); ("message", VStr message)])
      else None
    else None.
Proof.
  intros Ht Ho Hb Hm. unfold on_message.
  rewrite split_topic_of by assumption. reflexivity.
Qed.

(** X17.  A command for device [D] of team [T] is published on a topic
    that, of all devices, only [device:T:D] may subscribe to. *)
Theorem command_topic_private T D cmd payload st T' D' accessLevel :
  id_ok T -> id_ok D -> id_ok T' -> id_ok D' ->
  strict_eq accessLevel (VNum 2) = false ->
  exists p,
    published (sendCommand T D cmd payload st) = (published st ++ [p])%list
    /\ (truthy (verify app ACLS ("device:" ++ T' ++ ":" ++ D') (topic p) accessLevel) = true
        <-> T' = T /\ D' = D).
Proof.
  intros (HT & HsT & HcT) (HD & HsD & HcD) (HT' & HsT' & HcT') (HD' & HsD' & HcD') Hacc.
  eexists. split; [reflexivity|].
  change (topic _) with (topic_of T "d" D "command").
  rewrite (verify_core _ _ _ _ device) by apply scope_of_device.
  change ("device:" ++ T' ++ ":" ++ D') with ("device" ++ ":" ++ T' ++ ":" ++ D').
  rewrite username_parts by (assumption || reflexivity).
  rewrite Hacc, device_sub_scan by assumption.
  split.
  - intros [Heq | (P & _ & _ & HsP & Heq)];
      apply topic_of_inj in Heq as (? & ? & ? & _); try assumption; try reflexivity;
      [auto | discriminate].
  - intros [-> ->]. left. reflexivity.
Qed.

(** X18.  A command for the devices of project [P] of team [T] is
    published on a topic that a device may subscribe to exactly when it
    is of team [T] and assigned to [P]. *)
Theorem broadcast_reaches_assigned_devices T P cmd payload st T' D' accessLevel :
  id_ok T -> id_ok P -> id_ok T' -> id_ok D' ->
  strict_eq accessLevel (VNum 2) = false ->
  exists p,
    published (sendCommandToProjectDevices T P cmd payload st) = (published st ++ [p])%list
    /\ (truthy (verify app ACLS ("device:" ++ T' ++ ":" ++ D') (topic p) accessLevel) = true
        <-> T' = T /\ getDeviceProjectId app (VStr D') = VStr P).
Proof.
  intros (HT & HsT & HcT) (HP & HsP & HcP) (HT' & HsT' & HcT') (HD' & HsD' & HcD') Hacc.
  eexists. split; [reflexivity|].
  change (topic _) with (topic_of T "p" P "command").
  rewrite (verify_core _ _ _ _ device) by apply scope_of_device.
  change ("device:" ++ T' ++ ":" ++ D') with ("device" ++ ":" ++ T' ++ ":" ++ D').
  rewrite username_parts by (assumption || reflexivity).
  rewrite Hacc, device_sub_scan by assumption.
  split.
  - intros [Heq | (Q & Hassigned & _ & HsQ & Heq)];
      apply topic_of_inj in Heq as (? & ? & ? & _); try assumption; try reflexivity;
      [discriminate | subst; auto].
  - intros [-> Hassigned]. right. exists P. auto.
Qed.

(** X19.  Whatever a device [device:T:D] is allowed to publish reaches
    the platform as an event of that very device: the id of the event is
    [D], and the event is a status, a logs or a response event. *)
Theorem device_message_carries_own_id T D topic message :
  id_ok T -> id_ok D ->
  truthy (verify app ACLS ("device:" ++ T ++ ":" ++ D) topic (VNum 2)) = true ->
  exists name key,
    on_message topic message = Some (name, VObj [("id", VStr D); (key, VStr message)])
    /\ (name, key) ∈ [("status/device", "status"); ("logs/device", "logs");
                      ("response/device", "message")].
Proof.
  intros HidT HidD Hok.
  destruct (device_publish_inv app T D topic HidT HidD Hok) as (m & Hin & ->).
  destruct HidT as (_ & HsT & _), HidD as (_ & HsD & _).
  repeat (apply elem_of_cons in Hin as [-> | Hin]); [..|inversion Hin];
    rewrite on_message_topic_of by (assumption || reflexivity);
    do 2 eexists; (split; [reflexivity | set_solver]).
Qed.

(** X20.  What a project runtime [project:T:P] is allowed to publish,
    its status, makes the listener emit no event. *)
Theorem launcher_status_emits_nothing T P topic message :
  id_ok T -> id_ok P ->
  truthy (verify app ACLS ("project:" ++ T ++ ":" ++ P) topic (VNum 2)) = true ->
  on_message topic message = None.
Proof.
  intros HidT HidP Hok.
  rewrite (project_publish_inv app T P topic HidT HidP Hok).
  destruct HidT as (_ & HsT & _), HidP as (_ & HsP & _).
  rewrite on_message_topic_of by (assumption || reflexivity). reflexivity.
Qed.

(** X21.  The round trip of a command: the message [sendCommandAwaitReply]
    publishes names a response topic; the addressed device is allowed to
    publish on it; and a reply the broker delivers on it, with the token
    and the command of the call and a truthy payload, resolves the
    promise of the call with that payload and unregisters the call. *)
Theorem reply_on_response_topic_resolves
    T D cmd payload options now uuid st text message device reply_payload :
  id_ok T -> id_ok D ->
  Device_byId app (VStr D) = Some device ->
  JSON_parse app text = Some message ->
  get_prop message "command" = Ok (VStr cmd) -> truthy (VStr cmd) = true ->
  get_prop message "correlationData" = Ok (VStr uuid) -> truthy (VStr uuid) = true ->
  get_prop message "payload" = Ok reply_payload -> truthy reply_payload = true ->
  let sent := sendCommandAwaitReply T D cmd payload options now uuid st in
  exists p responseTopic,
    published sent.2 = (published st ++ [p])%list
    /\ get_prop (body p) "responseTopic" = Ok (VStr responseTopic)
    /\ truthy (verify app ACLS ("device:" ++ T ++ ":" ++ D) responseTopic (VNum 2)) = true
    /\ promises (deliver app responseTopic text sent.2) !! sent.1
       = Some (Fulfilled reply_payload)
    /\ inFlightCommands (deliver app responseTopic text sent.2) !! uuid = None.
Proof.
  intros HidT HidD Hdev Hparse Hc Htc Hcd Htcd Hp Htp sent.
  destruct (sendCommandAwaitReply_registers T D cmd payload options now uuid st)
    as (Hm & Hin & Hpend & _).
  fold sent in Hm, Hin, Hpend.
  exists {| topic := "ff/v1/" ++ T ++ "/d/" ++ D ++ "/command";
            body := command_body cmd
                      (newCommandMessage
                         (newResponseMonitor cmd D T (sanitise_timeout options) now uuid)
                         payload) |}.
  exists (topic_of T "d" D "response").
  split; [reflexivity|]. split; [reflexivity|].
  split; [apply device_publish_granted; [assumption.. | set_solver]|].
  assert (truthy (VStr D) = true) as HtD.
  { destruct HidD as (HD & _). unfold truthy.
    destruct (String.eqb_spec D ""); [contradiction | reflexivity]. }
  assert (exists rcd, deliver app (topic_of T "d" D "response") text sent.2
          = with_inFlightCommands (delete rcd) (monitor_resolve sent.1 reply_payload sent.2))
    as [rcd ->].
  { unfold deliver. destruct HidT as (_ & HsT & _), HidD as (_ & HsD & _).
    rewrite on_message_topic_of by (assumption || reflexivity).
    change (exists rcd,
              or_unchanged sent.2
                (handleCommandResponse app (VObj [("id", VStr D); ("message", VStr text)])
                   sent.2)
              = with_inFlightCommands (delete rcd)
                  (monitor_resolve sent.1 reply_payload sent.2)).
    destruct (handleCommandResponse_resolve app
                (VObj [("id", VStr D); ("message", VStr text)]) sent.2 (VStr D) device
                text message cmd uuid reply_payload sent.1
                (newResponseMonitor cmd D T (sanitise_timeout options) now uuid))
      as [rcd Hrun]; auto.
    rewrite Hrun. exists rcd. reflexivity. }
  clearbody sent. unfold monitor_resolve. rewrite Hm. simpl. split.
  - rewrite lookup_alter_eq, Hpend. reflexivity.
  - rewrite lookup_delete. case_decide; [reflexivity|]. apply lookup_delete_eq.
Qed.

End Routing.

Lemma command_topic_private_witness :
  id_ok "team1" /\ id_ok "dev1"
  /\ exists p,
       published (sendCommand "team1" "dev1" "update" VNull init) = ([] ++ [p])%list
       /\ (truthy (AclManager.verify sample_app AclManager.ACLS "device:team1:dev1"
                     (topic p) (VNum 1)) = true
           <-> "team1" = "team1" /\ "dev1" = "dev1").
Proof.
  assert (id_ok "team1") as HT by (repeat split; (discriminate || reflexivity)).
  assert (id_ok "dev1") as HD by (repeat split; (discriminate || reflexivity)).
  split; [exact HT|]. split; [exact HD|].
  apply (command_topic_private sample_app "team1" "dev1" "update" VNull init
           "team1" "dev1" (VNum 1) HT HD HT HD).
  reflexivity.
Defined.

Lemma broadcast_reaches_assigned_devices_witness :
  id_ok "team1" /\ id_ok "proj1" /\ id_ok "dev1"
  /\ exists p,
       published (sendCommandToProjectDevices "team1" "proj1" "update" VNull init)
       = ([] ++ [p])%list
       /\ (truthy (AclManager.verify sample_app AclManager.ACLS "device:team1:dev1"
                     (topic p) (VNum 1)) = true
           <-> "team1" = "team1"
               /\ getDeviceProjectId sample_app (VStr "dev1") = VStr "proj1").
Proof.
  assert (id_ok "team1") as HT by (repeat split; (discriminate || reflexivity)).
  assert (id_ok "proj1") as HP by (repeat split; (discriminate || reflexivity)).
  assert (id_ok "dev1") as HD by (repeat split; (discriminate || reflexivity)).
  split; [exact HT|]. split; [exact HP|]. split; [exact HD|].
  apply (broadcast_reaches_assigned_devices sample_app "team1" "proj1" "update" VNull init
           "team1" "dev1" (VNum 1) HT HP HT HD).
  reflexivity.
Defined.

Lemma device_message_carries_own_id_witness :
  truthy (AclManager.verify sample_app AclManager.ACLS "device:team1:dev1"
            "ff/v1/team1/d/dev1/logs" (VNum 2)) = true
  /\ exists name key,
       on_message "ff/v1/team1/d/dev1/logs" "started"
       = Some (name, VObj [("id", VStr "dev1"); (key, VStr "started")])
       /\ (name, key) ∈ [("status/device", "status"); ("logs/device", "logs");
                         ("response/device", "message")].
Proof.
  split; [reflexivity|].
  apply (device_message_carries_own_id sample_app "team1" "dev1"
           "ff/v1/team1/d/dev1/logs" "started");
    [repeat split; (discriminate || reflexivity).. | reflexivity].
Defined.

Lemma launcher_status_emits_nothing_witness :
  truthy (AclManager.verify sample_app AclManager.ACLS "project:team1:proj1"
            "ff/v1/team1/l/proj1/status" (VNum 2)) = true
  /\ on_message "ff/v1/team1/l/proj1/status" "running" = None.
Proof.
  split; [reflexivity|].
  apply (launcher_status_emits_nothing sample_app "team1" "proj1"
           "ff/v1/team1/l/proj1/status" "running");
    [repeat split; (discriminate || reflexivity).. | reflexivity].
Defined.

Lemma reply_on_response_topic_resolves_witness :
  let sent := sendCommandAwaitReply "team1" "dev1" "startEditor"
                (VObj [("token", VStr "s3cr3t")]) None 1000 "c0ffee" init in
  let text := Json.stringify (reply "startEditor" "c0ffee" (VBool true)) in
  exists p responseTopic,
    published sent.2 = ([] ++ [p])%list
    /\ get_prop (body p) "responseTopic" = Ok (VStr responseTopic)
    /\ truthy (AclManager.verify sample_app AclManager.ACLS "device:team1:dev1"
                 responseTopic (VNum 2)) = true
    /\ promises (deliver sample_app responseTopic text sent.2) !! sent.1
       = Some (Fulfilled (VBool true))
    /\ inFlightCommands (deliver sample_app responseTopic text sent.2) !! "c0ffee" = None.
Proof.
  apply (reply_on_response_topic_resolves sample_app "team1" "dev1" "startEditor"
           (VObj [("token", VStr "s3cr3t")]) None 1000 "c0ffee" init
           (Json.stringify (reply "startEditor" "c0ffee" (VBool true)))
           (reply "startEditor" "c0ffee" (VBool true)) sample_device (VBool true));
    try (vm_compute; reflexivity);
    repeat split; (discriminate || reflexivity).
Defined.

(** ** Platform environment variables *)

Lemma filter_idem {A} (P : A -> Prop) `{forall x, Decision (P x)} (l : list A) :
  filter P (filter P l) = filter P l.
Proof.
  induction l as [|x l IH]; [reflexivity|].
  rewrite (filter_cons P x l). destruct (decide (P x)) as [HP|HP]; [|exact IH].
  rewrite filter_cons_True by exact HP. rewrite IH. reflexivity.
Qed.

(** X22.  Stripping what [insertPlatformSpecificEnvVars] returns gives
    the caller's variables as [removePlatformSpecificEnvVars] gives
    them: the five platform entries are taken out again, every other
    entry is kept, in order. *)
Theorem platform_env_vars_stripped device deviceName deviceType snapshotName envVars :
  removePlatformSpecificEnvVars
    (Some (insertPlatformSpecificEnvVars device deviceName deviceType snapshotName envVars))
  = removePlatformSpecificEnvVars envVars.
Proof.
  unfold insertPlatformSpecificEnvVars.
  unfold removePlatformSpecificEnvVars at 1. rewrite filter_app.
  destruct envVars as [l|]; [|reflexivity].
  unfold removePlatformSpecificEnvVars. rewrite filter_idem. reflexivity.
Qed.

(** X23.  The names that start with [FF_] are the platform's: an entry
    of the result of [insertPlatformSpecificEnvVars] under such a name
    is one of the five the function made, flagged [platform], whatever
    the caller's variables are called. *)
Theorem platform_names_reserved device deviceName deviceType snapshotName envVars e :
  e ∈ insertPlatformSpecificEnvVars device deviceName deviceType snapshotName envVars ->
  String.prefix "FF_" (EnvVar.name e) = true ->
  EnvVar.platform e = true
  /\ EnvVar.name e ∈ ["FF_DEVICE_ID"; "FF_DEVICE_NAME"; "FF_DEVICE_TYPE";
                      "FF_SNAPSHOT_ID"; "FF_SNAPSHOT_NAME"].
Proof.
  unfold insertPlatformSpecificEnvVars. intros Hin Hname.
  apply elem_of_app in Hin as [Hin | Hin].
  - repeat (apply elem_of_cons in Hin as [-> | Hin]); [..|inversion Hin];
      (split; [reflexivity | set_solver]).
  - destruct envVars as [l|]; [|inversion Hin].
    apply list_elem_of_filter in Hin as [Hno _]. congruence.
Qed.

Lemma platform_names_reserved_witness :
  let user := [{| EnvVar.name := "FF_DEVICE_ID"; EnvVar.value := VStr "forged";
                  EnvVar.platform := false |};
               {| EnvVar.name := "PORT"; EnvVar.value := VStr "1880";
                  EnvVar.platform := false |}] in
  let e := makeVar "FF_DEVICE_ID" (VStr "dev1") in
  e ∈ insertPlatformSpecificEnvVars sample_device (VStr "pi") VUndefined VUndefined (Some user)
  /\ EnvVar.platform e = true
  /\ EnvVar.name e ∈ ["FF_DEVICE_ID"; "FF_DEVICE_NAME"; "FF_DEVICE_TYPE";
                      "FF_SNAPSHOT_ID"; "FF_SNAPSHOT_NAME"].
Proof.
  intros user e.
  assert (e ∈ insertPlatformSpecificEnvVars sample_device (VStr "pi") VUndefined VUndefined
                (Some user)) as Hin by (left).
  split; [exact Hin|].
  apply (platform_names_reserved sample_device (VStr "pi") VUndefined VUndefined
           (Some user) e Hin).
  reflexivity.
Defined.

(** ** The scope of a provisioning token *)

Lemma filter_project_entry y :
  filter (fun s => String.prefix "project:" s = false) [String.append "project:" y] = [].
Proof.
  rewrite filter_cons_False; [reflexivity|]. rewrite prefix_append. discriminate.
Qed.

(** X24.  Updating a provisioning token that was created for one
    project with another project gives the scope the token would have
    had if it had been created for that other project; updating it with
    no project gives the scope of a token created without one. *)
Theorem provisioning_update_after_create name project project' :
  updated_provisioning_scope (Some (provisioning_scope name project)) project'
  = provisioning_scope name project'.
Proof.
  unfold updated_provisioning_scope, provisioning_scope. cbv zeta. simpl default.
  destruct (truthy (project_id_of project)); [|reflexivity].
  rewrite !filter_cons_True by reflexivity. rewrite filter_project_entry. reflexivity.
Qed.

(** X25.  An update replaces the project of the scope, it does not add
    to it: after two updates the scope is what the second update alone
    would have made it. *)
Theorem provisioning_update_replaces scope project project' :
  updated_provisioning_scope (Some (updated_provisioning_scope scope project)) project'
  = updated_provisioning_scope scope project'.
Proof.
  unfold updated_provisioning_scope. cbv zeta. simpl default.
  destruct (truthy (project_id_of project)).
  - rewrite filter_app, filter_project_entry, app_nil_r, filter_idem. reflexivity.
  - rewrite filter_idem. reflexivity.
Qed.

(** ** The expiry of a call *)




(** ** The verify functions for devices *)
Section DeviceChecks.
Import AclManager.

Variable app : App.

(** X27.  [checkDeviceAssignedToProject] is the strictest of the device
    checks: a request it passes is passed by
    [checkDeviceCanAccessProject], by [checkDeviceIsAssigned] and by
    [checkTeamId]. *)
Theorem assigned_to_project_is_strictest requestParts ids :
  truthy (checkDeviceAssignedToProject app requestParts ids) = true ->
  checkDeviceCanAccessProject app requestParts ids = VBool true
  /\ checkDeviceIsAssigned app requestParts ids = VBool true
  /\ checkTeamId requestParts ids = VBool true.
Proof.
  unfold checkDeviceAssignedToProject, checkDeviceCanAccessProject,
    checkDeviceIsAssigned, checkTeamId, js_and.
  destruct (strict_eq (at_index requestParts 1) (at_index ids 1)); simpl;
    [|discriminate].
  destruct (truthy (getDeviceProjectId app (at_index ids 2))) eqn:Hassigned; simpl.
  - intros Heq. change (truthy (VBool ?b)) with b in Heq. rewrite Heq. auto.
  - rewrite Hassigned. discriminate.
Qed.

(** X28.  Access to a project is only ever given inside the team and to
    an assigned device: a request [checkDeviceCanAccessProject] passes
    has the team id of the identity, and the device of the identity is
    assigned to some project. *)
Theorem project_access_needs_team_and_assignment requestParts ids :
  truthy (checkDeviceCanAccessProject app requestParts ids) = true ->
  strict_eq (at_index requestParts 1) (at_index ids 1) = true
  /\ truthy (getDeviceProjectId app (at_index ids 2)) = true
  /\ checkDeviceIsAssigned app requestParts ids = VBool true.
Proof.
  unfold checkDeviceCanAccessProject, checkDeviceIsAssigned.
  destruct (strict_eq (at_index requestParts 1) (at_index ids 1)); simpl;
    [|discriminate].
  destruct (truthy (getDeviceProjectId app (at_index ids 2))); simpl;
    [auto | discriminate].
Qed.

End DeviceChecks.

Lemma assigned_to_project_is_strictest_witness :
  let requestParts := [VStr "ff/v1/team1/p/proj1/command"; VStr "team1"; VStr "proj1"] in
  let ids := [VStr "device"; VStr "team1"; VStr "dev1"] in
  AclManager.checkDeviceCanAccessProject sample_app requestParts ids = VBool true
  /\ AclManager.checkDeviceIsAssigned sample_app requestParts ids = VBool true
  /\ AclManager.checkTeamId requestParts ids = VBool true.
Proof.
  apply (assigned_to_project_is_strictest sample_app
           [VStr "ff/v1/team1/p/proj1/command"; VStr "team1"; VStr "proj1"]
           [VStr "device"; VStr "team1"; VStr "dev1"]).
  reflexivity.
Defined.

Lemma project_access_needs_team_and_assignment_witness :
  let requestParts := [VStr "ff/v1/team1/p/proj2/command"; VStr "team1"; VStr "proj1"] in
  let ids := [VStr "device"; VStr "team1"; VStr "dev1"] in
  strict_eq (AclManager.at_index requestParts 1) (AclManager.at_index ids 1) = true
  /\ truthy (getDeviceProjectId sample_app (AclManager.at_index ids 2)) = true
  /\ AclManager.checkDeviceIsAssigned sample_app requestParts ids = VBool true.
Proof.
  apply (project_access_needs_team_and_assignment sample_app
           [VStr "ff/v1/team1/p/proj2/command"; VStr "team1"; VStr "proj1"]
           [VStr "device"; VStr "team1"; VStr "dev1"]).
  reflexivity.
Defined.
